(** * The external compiler client of hphp/runtime/vm/extern-compiler.cpp

    A shallow embedding of the worker ([ExternCompiler]), the worker pool
    ([CompilerPool]) and the process-wide manager ([CompilerManager]),
    followed by the properties proved about them.

    Conventions.
    - A C++ member function becomes a computation of type [M X A]: it takes
      the object ([X]) and the operating-system state ([World]) and gives
      back a result, the updated object and the updated world.  State
      changes made before an exception is thrown persist, as in C++.
    - Exceptions are values of [exn], each with the string it was built
      from; [what()] is a C string, so code that reads it back sees that
      string up to its first NUL byte.  [Halt] covers the ways a call never
      returns to its caller (null dereference, [not_reached()],
      [std::terminate], a condition-variable wait nobody can end, a join of
      a thread that never ends).
    - The subprocess is a black box: what it writes on its stdout is the
      unread content of the [FILE] the worker holds, what happens to the
      worker's writes and flushes is a script of outcomes carried by the
      [FILE], and whether it ever closes its stderr is told by the world.
    - Every library call with an effect is recorded in [w_trace], and so
      are three points of the program itself: the entry into the worker's
      compile, and the taking and the return of a lease.
    - Where a C++ function has SCOPE_EXIT blocks or a try statement, the
      blocks are definitions of their own, named after the function.
    - folly, libc's formatting helpers and the assembler are not part of the
      file under study; they are the fields of [Externals].  Floating-point
      JSON numbers are left out of [dynamic]. *)

From Stdlib Require Import ZArith List String Ascii Bool Lia DecimalString.
Import ListNotations.
Open Scope string_scope.
Open Scope Z_scope.

(** ** Exceptions and results *)

Inductive exn : Type :=
| CompileException (what : string)      (* struct CompileException : Exception *)
| BadCompilerException (what : string)
| runtime_error (what : string)         (* std::runtime_error and subclasses *)
| other_exception (what : string).      (* std::out_of_range, std::length_error *)

Definition what (e : exn) : string :=
  match e with
  | CompileException s | BadCompilerException s
  | runtime_error s | other_exception s => s
  end.

Inductive halt : Type :=
| NullDeref | NotReached | Terminate | CvWait | JoinWait | OutOfFuel.

Inductive Res (A : Type) : Type :=
| Ret (a : A)
| Throw (e : exn)
| Halt (h : halt).
Arguments Ret {A} a.
Arguments Throw {A} e.
Arguments Halt {A} h.

(** ** folly::dynamic *)

#[warnings="-register-all"]
Inductive dynamic : Type :=
| DNull
| DBool (b : bool)
| DInt (z : Z)
| DString (s : string)
| DArray (l : list dynamic)
| DObject (kv : list (string * dynamic)).

Fixpoint assoc_find (k : string) (kv : list (string * dynamic)) : option dynamic :=
  match kv with
  | [] => None
  | (k', v) :: rest => if String.eqb k k' then Some v else assoc_find k rest
  end.

Fixpoint assoc_set (k : string) (v : dynamic) (kv : list (string * dynamic))
  : list (string * dynamic) :=
  match kv with
  | [] => [(k, v)]
  | (k', v') :: rest =>
      if String.eqb k k' then (k, v) :: rest else (k', v') :: assoc_set k v rest
  end.

(** ** Collaborators outside the file *)

Definition LF : ascii := "010"%char.
Definition NUL : ascii := "000"%char.
Definition newline : string := String LF EmptyString.

(** What [printf("%s")] prints of [s.data()]: the bytes before the first NUL. *)
Fixpoint c_str (s : string) : string :=
  match s with
  | EmptyString => EmptyString
  | String c r => if Ascii.eqb c NUL then EmptyString else String c (c_str r)
  end.

Inductive asm_result (UE : Type) : Type :=
| AsmUnit (ue : UE)
| AsmRuntimeError (what : string)
| AsmOtherError (what : string).
Arguments AsmUnit {UE} ue.
Arguments AsmRuntimeError {UE} what.
Arguments AsmOtherError {UE} what.

Record Externals (UE : Type) : Type := mkExternals {
  parseJson : string -> string + dynamic;      (* inl w: folly parse error *)
  toJson : dynamic -> string;
  toJson_no_nul : forall d, c_str (toJson d) = toJson d;
                                               (* JSON text holds no NUL byte *)
  to_string_int : Z -> string;                 (* folly::to<std::string>(int64_t) *)
  to_string_bool : bool -> string;
  to_int_string : string -> string + Z;        (* folly::to<int64_t>(string) *)
  type_error_what : dynamic -> string;         (* what() of folly::TypeError *)
  key_error_what : string -> string;           (* what() of std::out_of_range *)
  errnoStr : Z -> string;                      (* folly::errnoStr *)
  errnoStr_no_nul : forall e, c_str (errnoStr e) = errnoStr e;
                                               (* strerror text holds no NUL byte *)
  string_max_size : Z;       (* the largest length std::string(n, c) is
                                constructed for: max_size() at most, less
                                where the allocation fails before that *)
  string_max_size_nonneg : (0 <=? string_max_size) = true;
  string_ctor_what : Z -> string;
                             (* what() of the std::length_error or
                                std::bad_alloc the constructor throws for a
                                longer one *)
  assemble_string : string -> string -> string -> asm_result UE
}.
Arguments parseJson {UE} _ _.
Arguments toJson {UE} _ _.
Arguments toJson_no_nul {UE} _ _.
Arguments to_string_int {UE} _ _.
Arguments to_string_bool {UE} _ _.
Arguments to_int_string {UE} _ _.
Arguments type_error_what {UE} _ _.
Arguments key_error_what {UE} _ _.
Arguments errnoStr {UE} _ _.
Arguments errnoStr_no_nul {UE} _ _.
Arguments string_max_size {UE} _.
Arguments string_max_size_nonneg {UE} _.
Arguments string_ctor_what {UE} _ _.
Arguments assemble_string {UE} _ _ _ _.

(** RuntimeOption and IniSetting values the file reads. *)
Record RuntimeOption : Type := mkRuntimeOption {
  EvalHackCompilerReset : Z;
  GetAllAsJSON : string;          (* IniSetting::GetAllAsJSON() *)
  IncludeRoots : dynamic          (* folly::toDynamic(RuntimeOption::IncludeRoots) *)
}.

(** ** Files, subprocesses and the world *)

Variant wr_outcome : Type :=
| WrOk
| WrFail (e : Z).                 (* the call fails and sets errno to e *)

Record FILE : Type := mkFILE {
  fileno : Z;
  f_rd : string;                  (* bytes not yet read; end of file after them *)
  f_wr : list wr_outcome          (* outcomes of the coming fprintf, fwrite and
                                     fflush calls, in order; then success *)
}.

Variant spawn : Type :=
| PipeError (e : Z)               (* pipe2 fails with errno e *)
| ProcOpen (pid : Z) (fin fout ferr : option FILE).
                                  (* proc_open's result and what fdopen gives *)

Inductive event : Type :=
| EvProcOpen (command : string) (pid : Z)
| EvWrite (fd : Z) (data : string)        (* fprintf / fwrite that succeeded *)
| EvWriteFail (fd : Z)
| EvFlush (fd : Z)                        (* fflush that succeeded *)
| EvFlushFail (fd : Z)
| EvGetline (fd : Z)
| EvFread (fd : Z) (size : Z)
| EvFclose (fd : Z)
| EvKill (pid : Z) (sig : Z)
| EvWaitpid (pid : Z)
| EvThreadStart
| EvThreadJoin
| EvClose (fd : Z)
| EvLogger (text : string)
| EvCompile (filename : string)           (* entry into ExternCompiler::compile *)
| EvGetCompiler (id : nat)                (* a lease is taken on slot id *)
| EvReleaseCompiler (id : nat).           (* the lease on slot id is given back *)

Record World : Type := mkWorld {
  w_errno : Z;
  w_spawns : list spawn;          (* what the coming spawn attempts meet *)
  w_kill : Z -> option Z;         (* kill(pid): None = 0, Some e = -1 with errno e *)
  w_waitpid : Z -> Z * Z;         (* LightProcess::waitpid(pid): (ret, status) *)
  w_stderr_hup : Z -> bool;       (* the thread that logs the stderr of
                                     subprocess pid ends: its poll reports a
                                     hang-up or an error on the pipe, as it does
                                     once the subprocess has exited; false: the
                                     pipe stays open and silent, the subprocess
                                     or a descendant holding it *)
  w_s_inited : bool;              (* SystemLib::s_inited *)
  w_trace : list event
}.

Definition set_errno (e : Z) (sg : World) : World :=
  mkWorld e (w_spawns sg) (w_kill sg) (w_waitpid sg) (w_stderr_hup sg)
          (w_s_inited sg) (w_trace sg).
Definition set_spawns (l : list spawn) (sg : World) : World :=
  mkWorld (w_errno sg) l (w_kill sg) (w_waitpid sg) (w_stderr_hup sg)
          (w_s_inited sg) (w_trace sg).
Definition add_events (evs : list event) (sg : World) : World :=
  mkWorld (w_errno sg) (w_spawns sg) (w_kill sg) (w_waitpid sg) (w_stderr_hup sg)
          (w_s_inited sg) (w_trace sg ++ evs)%list.
Definition log_event (e : event) (sg : World) : World := add_events [e] sg.

(** ** The monad of member functions *)

Definition M (X A : Type) : Type := X -> World -> Res A * X * World.

Definition ret {X A} (a : A) : M X A := fun x sg => (Ret a, x, sg).
Definition throw {X A} (e : exn) : M X A := fun x sg => (Throw e, x, sg).
Definition stuck {X A} (h : halt) : M X A := fun x sg => (Halt h, x, sg).

Definition bind {X A B} (m : M X A) (k : A -> M X B) : M X B :=
  fun x sg =>
    match m x sg with
    | (Ret a, x', sg') => k a x' sg'
    | (Throw e, x', sg') => (Throw e, x', sg')
    | (Halt h, x', sg') => (Halt h, x', sg')
    end.

Notation "x <- m ;; k" := (bind m (fun x => k))
  (at level 61, m at next level, right associativity).
Notation "m ;;; k" := (bind m (fun _ => k))
  (at level 61, right associativity).

(** [try { m } catch (...) { h }]: [h e] is [None] when no handler matches. *)
Definition try_catch {X A} (m : M X A) (h : exn -> option (M X A)) : M X A :=
  fun x sg =>
    match m x sg with
    | (Throw e, x', sg') =>
        match h e with
        | Some k => k x' sg'
        | None => (Throw e, x', sg')
        end
    | r => r
    end.

(** [SCOPE_EXIT { h }; m]: [h] runs when [m] returns or throws. *)
Definition scope_exit {X A} (h : M X unit) (m : M X A) : M X A :=
  fun x sg =>
    match m x sg with
    | (Halt e, x', sg') => (Halt e, x', sg')
    | (r, x', sg') =>
        match h x' sg' with
        | (Ret _, x'', sg'') => (r, x'', sg'')
        | (Throw _, x'', sg'') => (Halt Terminate, x'', sg'')
        | (Halt e, x'', sg'') => (Halt e, x'', sg'')
        end
    end.

Definition this {X} : M X X := fun x sg => (Ret x, x, sg).
Definition update {X} (f : X -> X) : M X unit := fun x sg => (Ret tt, f x, sg).
Definition world {X} : M X World := fun x sg => (Ret sg, x, sg).
Definition emit {X} (e : event) : M X unit := fun x sg => (Ret tt, x, log_event e sg).
Definition when {X} (b : bool) (m : M X unit) : M X unit :=
  if b then m else ret tt.

(** ** The worker: struct ExternCompiler *)

Record CompilerOptions : Type := mkCompilerOptions {
  verboseErrors : bool;
  maxRetries : Z;                 (* uint64_t *)
  workers : Z;                    (* uint64_t *)
  command : string;
  inheritConfig : bool
}.

Definition kInvalidPid : Z := -1.
Definition SIGTERM : Z := 15.

Record ExternCompiler : Type := mkExternCompiler {
  m_pid : Z;
  m_in : option FILE;
  m_out : option FILE;
  m_version : string;
  m_err : option FILE;
  m_logStderrThread : bool;       (* joinable() *)
  m_compilations : Z;             (* unsigned *)
  m_options : CompilerOptions
}.

(** The constructor: every member at its default initialiser. *)
Definition new_ExternCompiler (options : CompilerOptions) : ExternCompiler :=
  mkExternCompiler kInvalidPid None None EmptyString None false 0 options.

Definition set_m_pid (v : Z) (c : ExternCompiler) : ExternCompiler :=
  mkExternCompiler v (m_in c) (m_out c) (m_version c) (m_err c)
    (m_logStderrThread c) (m_compilations c) (m_options c).
Definition set_m_in (v : option FILE) (c : ExternCompiler) : ExternCompiler :=
  mkExternCompiler (m_pid c) v (m_out c) (m_version c) (m_err c)
    (m_logStderrThread c) (m_compilations c) (m_options c).
Definition set_m_out (v : option FILE) (c : ExternCompiler) : ExternCompiler :=
  mkExternCompiler (m_pid c) (m_in c) v (m_version c) (m_err c)
    (m_logStderrThread c) (m_compilations c) (m_options c).
Definition set_m_version (v : string) (c : ExternCompiler) : ExternCompiler :=
  mkExternCompiler (m_pid c) (m_in c) (m_out c) v (m_err c)
    (m_logStderrThread c) (m_compilations c) (m_options c).
Definition set_m_err (v : option FILE) (c : ExternCompiler) : ExternCompiler :=
  mkExternCompiler (m_pid c) (m_in c) (m_out c) (m_version c) v
    (m_logStderrThread c) (m_compilations c) (m_options c).
Definition set_m_logStderrThread (v : bool) (c : ExternCompiler) : ExternCompiler :=
  mkExternCompiler (m_pid c) (m_in c) (m_out c) (m_version c) (m_err c)
    v (m_compilations c) (m_options c).
Definition set_m_compilations (v : Z) (c : ExternCompiler) : ExternCompiler :=
  mkExternCompiler (m_pid c) (m_in c) (m_out c) (m_version c) (m_err c)
    (m_logStderrThread c) v (m_options c).

Definition isRunning (c : ExternCompiler) : bool :=
  negb (m_pid c =? kInvalidPid).

Definition detach_from_process : M ExternCompiler unit :=
  update (set_m_pid kInvalidPid).

(** ** stdio on the worker's handles *)

Definition strlen (s : string) : Z := Z.of_nat (String.length s).

Definition size_t (z : Z) : Z := z mod 2 ^ 64.
Definition unsigned (z : Z) : Z := z mod 2 ^ 32.

(** One write call (fprintf or fwrite of one item) on [m_in]: the value is
    [true] when the call succeeds. *)
Definition write_in (data : string) : M ExternCompiler bool :=
  fun c sg =>
    match m_in c with
    | None => (Halt NullDeref, c, sg)
    | Some f =>
        match f_wr f with
        | WrFail e :: rest =>
            (Ret false,
             set_m_in (Some (mkFILE (fileno f) (f_rd f) rest)) c,
             log_event (EvWriteFail (fileno f)) (set_errno e sg))
        | WrOk :: rest =>
            (Ret true,
             set_m_in (Some (mkFILE (fileno f) (f_rd f) rest)) c,
             log_event (EvWrite (fileno f) data) sg)
        | [] => (Ret true, c, log_event (EvWrite (fileno f) data) sg)
        end
    end.

(** [fflush(m_in);]: the call can fail, and its result is not looked at. *)
Definition fflush_in : M ExternCompiler unit :=
  fun c sg =>
    match m_in c with
    | None => (Halt NullDeref, c, sg)
    | Some f =>
        match f_wr f with
        | WrFail e :: rest =>
            (Ret tt,
             set_m_in (Some (mkFILE (fileno f) (f_rd f) rest)) c,
             log_event (EvFlushFail (fileno f)) (set_errno e sg))
        | WrOk :: rest =>
            (Ret tt,
             set_m_in (Some (mkFILE (fileno f) (f_rd f) rest)) c,
             log_event (EvFlush (fileno f)) sg)
        | [] => (Ret tt, c, log_event (EvFlush (fileno f)) sg)
        end
    end.

(** getline(3) on a stream holding [s]: the line with its delimiter and the
    rest of the stream; [None] at end of file. *)
Fixpoint getline (s : string) : option (string * string) :=
  match s with
  | EmptyString => None
  | String c r =>
      if Ascii.eqb c LF then Some (String c EmptyString, r)
      else match getline r with
           | None => Some (String c EmptyString, EmptyString)
           | Some (l, r') => Some (String c l, r')
           end
  end.

(** [std::string(line, len - 1)]. *)
Fixpoint drop_last (s : string) : string :=
  match s with
  | EmptyString => EmptyString
  | String c EmptyString => EmptyString
  | String c r => String c (drop_last r)
  end.

(** fread(buf, size, 1, f) on a stream holding [s]: the return value, the
    bytes stored and the rest of the stream. *)
Definition fread1 (size : Z) (s : string) : Z * string * string :=
  if size =? 0 then (0, EmptyString, s)
  else if size <=? strlen s
       then (1, substring 0 (Z.to_nat size) s,
                substring (Z.to_nat size) (String.length s - Z.to_nat size) s)
       else (0, s, EmptyString).

Section Worker.

Context {UE : Type}.
Variable ext : Externals UE.
Variable ro : RuntimeOption.

Definition throwErrno {X A} (what : string) : M X A :=
  sg <- world ;;
  throw (CompileException (what ++ ": " ++ errnoStr ext (w_errno sg))).

(** readline(FILE* f) applied to m_out. *)
Definition readline_out : M ExternCompiler string :=
  fun c sg =>
    match m_out c with
    | None => (Halt NullDeref, c, sg)
    | Some f =>
        match getline (f_rd f) with
        | None => throwErrno "error reading line" c (log_event (EvGetline (fileno f)) sg)
        | Some (line, rest) =>
            (Ret (drop_last line),
             set_m_out (Some (mkFILE (fileno f) rest (f_wr f))) c,
             log_event (EvGetline (fileno f)) sg)
        end
    end.

(** fread(&program[0], bytes, 1, m_out): the return value and the buffer. *)
Definition fread_out (bytes : Z) : M ExternCompiler (Z * string) :=
  fun c sg =>
    match m_out c with
    | None => (Halt NullDeref, c, sg)
    | Some f =>
        let '(n, buf, rest) := fread1 bytes (f_rd f) in
        (Ret (n, buf),
         set_m_out (Some (mkFILE (fileno f) rest (f_wr f))) c,
         log_event (EvFread (fileno f) bytes) sg)
    end.

(** *** The part of folly::dynamic the file uses *)

Definition lift {X A} (r : exn + A) : M X A :=
  match r with
  | inl e => throw e
  | inr a => ret a
  end.

Definition and_then {A B} (r : exn + A) (k : A -> exn + B) : exn + B :=
  match r with
  | inl e => inl e
  | inr a => k a
  end.

Definition parse (line : string) : exn + dynamic :=
  match parseJson ext line with
  | inl w => inl (runtime_error w)
  | inr d => inr d
  end.

Definition getDefault (d : dynamic) (k : string) (dflt : dynamic) : exn + dynamic :=
  match d with
  | DObject kv =>
      match assoc_find k kv with
      | Some v => inr v
      | None => inr dflt
      end
  | _ => inl (runtime_error (type_error_what ext d))
  end.

Definition at_key (d : dynamic) (k : string) : exn + dynamic :=
  match d with
  | DObject kv =>
      match assoc_find k kv with
      | Some v => inr v
      | None => inl (other_exception (key_error_what ext k))
      end
  | _ => inl (runtime_error (type_error_what ext d))
  end.

Definition asString (d : dynamic) : exn + string :=
  match d with
  | DString s => inr s
  | DInt z => inr (to_string_int ext z)
  | DBool b => inr (to_string_bool ext b)
  | _ => inl (runtime_error (type_error_what ext d))
  end.

Definition asInt (d : dynamic) : exn + Z :=
  match d with
  | DInt z => inr z
  | DBool b => inr (if b then 1 else 0)
  | DString s =>
      match to_int_string ext s with
      | inl w => inl (runtime_error w)
      | inr z => inr z
      end
  | _ => inl (runtime_error (type_error_what ext d))
  end.

(** [header[k] = v] *)
Definition set_item (d : dynamic) (k : string) (v : dynamic) : exn + dynamic :=
  match d with
  | DObject kv => inr (DObject (assoc_set k v kv))
  | _ => inl (runtime_error (type_error_what ext d))
  end.

(** *** Reading *)

(** [folly::parseJson(line).at("version").asString()] *)
Definition version_of_line (line : string) : exn + string :=
  and_then (parse line) (fun d =>
  and_then (at_key d "version") asString).

Definition readVersion : M ExternCompiler string :=
  line <- readline_out ;;
  lift (version_of_line line).

(** [header.getDefault("type", "").asString()] *)
Definition reply_type (header : dynamic) : exn + string :=
  and_then (getDefault header "type" (DString EmptyString)) asString.

(** [header.getDefault("bytes", 0).asInt()], converted to std::size_t *)
Definition reply_bytes (header : dynamic) : exn + Z :=
  and_then (getDefault header "bytes" (DInt 0)) (fun b =>
  and_then (asInt b) (fun n => inr (size_t n))).

(** [header.getDefault("error", "[no 'error' field]").asString()] *)
Definition reply_error (header : dynamic) : exn + string :=
  and_then (getDefault header "error" (DString "[no 'error' field]")) asString.

(** ExternCompiler::readProgram.  [std::string program(bytes, '\0')] comes
    before the fread: where the string cannot be constructed, for its length
    or for lack of memory, the constructor's exception leaves readProgram and
    nothing more is read. *)
Definition readProgram : M ExternCompiler string :=
  line <- readline_out ;;
  header <- lift (parse line) ;;
  type <- lift (reply_type header) ;;
  bytes <- lift (reply_bytes header) ;;
  if String.eqb type "hhas" then
    if string_max_size ext <? bytes
    then throw (other_exception (string_ctor_what ext bytes))
    else
      r <- fread_out bytes ;;
      let '(n, program) := r in
      if negb (n =? 1) then throwErrno "reading input program"
      else ret program
  else if String.eqb type "error" then
    msg <- lift (reply_error header) ;;
    throw (runtime_error msg)
  else
    throw (runtime_error ("unknown message type, " ++ type)).

(** *** Writing *)

(** [header] is passed by reference: the value is the header as writeMessage
    leaves it. *)
Definition writeMessage (header : dynamic) (body : string)
  : M ExternCompiler dynamic :=
  let bytes := strlen body in
  header <- lift (set_item header "bytes" (DInt bytes)) ;;
  let jsonHeader := toJson ext header in
  ok1 <- write_in (c_str jsonHeader ++ newline) ;;
  ok <- (if negb ok1 then ret false
         else if 0 <? bytes then write_in body else ret true) ;;
  if negb ok then throwErrno "error writing message"
  else fflush_in ;;; ret header.

Definition boundConfig (options : CompilerOptions) : string :=
  if inheritConfig options then GetAllAsJSON ro else EmptyString.

Definition miscConfig (options : CompilerOptions) : string :=
  if inheritConfig options
  then toJson ext
         (DObject [("hhvm.include_roots",
                    DObject [("global_value", IncludeRoots ro)])])
  else EmptyString.

Definition writeConfigs : M ExternCompiler unit :=
  c <- this ;;
  let header := DObject [("type", DString "config")] in
  header <- writeMessage header (boundConfig (m_options c)) ;;
  header <- writeMessage header (miscConfig (m_options c)) ;;
  ret tt.

Definition writeProgram (filename md5 code : string) : M ExternCompiler unit :=
  sg <- world ;;
  let header := DObject [("type", DString "code");
                         ("md5", DString md5);
                         ("file", DString filename);
                         ("is_systemlib", DBool (negb (w_s_inited sg)))] in
  header <- writeMessage header code ;;
  ret tt.

End Worker.

(** ** Stopping and starting the subprocess *)

Definition sys_kill {X} (pid sig : Z) : M X Z :=
  fun x sg =>
    match w_kill sg pid with
    | None => (Ret 0, x, log_event (EvKill pid sig) sg)
    | Some e => (Ret (-1), x, log_event (EvKill pid sig) (set_errno e sg))
    end.

(** LightProcess::waitpid(pid, &status, 0, 2) under UseLightDelegate. *)
Definition sys_waitpid {X} (pid : Z) : M X (Z * Z) :=
  fun x sg => (Ret (w_waitpid sg pid), x, log_event (EvWaitpid pid) sg).

Definition WIFEXITED (status : Z) : bool := Z.land status 127 =? 0.
Definition WEXITSTATUS (status : Z) : Z := Z.shiftr (Z.land status 65280) 8.
Definition WTERMSIG (status : Z) : Z := Z.land status 127.
Definition WIFSIGNALED (status : Z) : bool :=
  (0 <? Z.land status 127) && (Z.land status 127 <? 127).

Definition fclose {X} (f : option FILE) : M X unit :=
  match f with
  | Some f => emit (EvFclose (fileno f))
  | None => ret tt
  end.

(** [m_logStderrThread.join()].  The thread sits in [poll(pfd, 1, -1)] on
    the stderr pipe of the subprocess it was started for, and leaves its
    loop when poll reports a hang-up or an error there; the fclose(m_err)
    before the join does not wake a poll that is under way.  So the join
    returns if the pipe's write end gets closed, which it does when the
    subprocess exits, and waits for ever if the pipe stays open and silent.
    [pid] is that subprocess.  With the sentinel for
    [pid] the worker is one that detach_from_process() has run on, in a
    forked child: fork() has not copied the thread and the join returns at
    once. *)
Definition join_logStderrThread (pid : Z) : M ExternCompiler unit :=
  sg <- world ;;
  if (pid =? kInvalidPid) || w_stderr_hup sg pid
  then emit EvThreadJoin ;;; update (set_m_logStderrThread false)
  else stuck JoinWait.

(** stopLogStderrThread(), called by stop() for the thread of subprocess
    [pid]. *)
Definition stopLogStderrThread (pid : Z) : M ExternCompiler unit :=
  scope_exit (update (set_m_err None))
    (c <- this ;;
     fclose (m_err c) ;;;
     if m_logStderrThread c
     then join_logStderrThread pid
     else ret tt).

(** The second SCOPE_EXIT block of stop(). *)
Definition stop_close_pipes : M ExternCompiler unit :=
  c <- this ;;
  fclose (m_in c) ;;;
  fclose (m_out c) ;;;
  update (set_m_in None) ;;;
  update (set_m_out None) ;;;
  update (set_m_pid kInvalidPid).

(** The statements of stop() after the second SCOPE_EXIT. *)
Definition stop_kill_and_wait : M ExternCompiler unit :=
  update (set_m_compilations 0) ;;;
  c <- this ;;
  r <- sys_kill (m_pid c) SIGTERM ;;
  when (r =? -1) (emit (EvLogger "ExternCompiler: kill failed")) ;;;
  w <- sys_waitpid (m_pid c) ;;
  let '(r, status) := w in
  if negb (r =? m_pid c)
  then emit (EvLogger "ExternCompiler: unable to wait for compiler process")
  else if WIFEXITED status && negb (WEXITSTATUS status =? 0)
  then emit (EvLogger "ExternCompiler: exited with status code")
  else if WIFSIGNALED status && negb (WTERMSIG status =? SIGTERM)
  then emit (EvLogger "ExternCompiler: terminated by signal")
  else ret tt.

(** stop().  The thread that the first SCOPE_EXIT block joins is the one
    start() created for the subprocess [m_pid] names at the entry of
    stop(): start() sets [m_pid] before it creates the thread, and only
    stop() and detach_from_process() change it afterwards. *)
Definition stop : M ExternCompiler unit :=
  c <- this ;;
  scope_exit (stopLogStderrThread (m_pid c))
    (if m_pid c =? kInvalidPid then ret tt
     else scope_exit stop_close_pipes stop_kill_and_wait).

(** ~ExternCompiler(): stop(), then the members' destructors; destroying a
    std::thread that is still joinable terminates the process. *)
Definition destroy : M ExternCompiler unit :=
  stop ;;;
  c <- this ;;
  if m_logStderrThread c then stuck Terminate else ret tt.

Definition pipes_and_proc_open : M ExternCompiler spawn :=
  fun c sg =>
    match w_spawns sg with
    | [] => (Ret (ProcOpen kInvalidPid None None None), c, sg)
    | sp :: rest => (Ret sp, c, set_spawns rest sg)
    end.

Section Lifecycle.

Context {UE : Type}.
Variable ext : Externals UE.
Variable ro : RuntimeOption.

(** Pipe::detach *)
Definition Pipe_detach (f : option FILE) : M ExternCompiler FILE :=
  match f with
  | Some f => ret f
  | None => throwErrno ext "unable to fdopen pipe"
  end.

Definition start : M ExternCompiler unit :=
  c <- this ;;
  if negb (m_pid c =? kInvalidPid) then ret tt
  else
    sp <- pipes_and_proc_open ;;
    match sp with
    | PipeError e =>
        (fun c sg => (Ret tt, c, set_errno e sg)) ;;;
        throwErrno ext "unable to open pipe"
    | ProcOpen pid fin fout ferr =>
        update (set_m_pid pid) ;;;
        emit (EvProcOpen (command (m_options c)) pid) ;;;
        if pid =? kInvalidPid then
          let msg := "Unable to start external compiler with command: "
                     ++ command (m_options c) in
          emit (EvLogger msg) ;;;
          throw (BadCompilerException msg)
        else
          f <- Pipe_detach fin ;; update (set_m_in (Some f)) ;;;
          f <- Pipe_detach fout ;; update (set_m_out (Some f)) ;;;
          f <- Pipe_detach ferr ;; update (set_m_err (Some f)) ;;;
          (if m_logStderrThread c then stuck Terminate
           else update (set_m_logStderrThread true) ;;; emit EvThreadStart) ;;;
          try_catch
            (v <- readVersion ext ;; update (set_m_version v))
            (fun e =>
               match e with
               | CompileException _ =>
                   Some (throw (BadCompilerException
                     "Couldn't read version message from external compiler"))
               | _ => None
               end) ;;;
          ok <- write_in newline ;;
          if negb ok
          then throw (BadCompilerException "Couldn't write initial newline")
          else fflush_in ;;; writeConfigs ext ro
    end.

Definition getVersionString : M ExternCompiler string :=
  c <- this ;;
  when (negb (isRunning c)) start ;;;
  c <- this ;;
  ret (m_version c).

Definition lift_assemble {X} (prog filename md5 : string) : M X UE :=
  match assemble_string ext prog filename md5 with
  | AsmUnit ue => ret ue
  | AsmRuntimeError w => throw (runtime_error w)
  | AsmOtherError w => throw (other_exception w)
  end.

Definition verbose_message (w code prog : string) : string :=
  w ++ newline
    ++ "========== PHP Source ==========" ++ newline
    ++ code ++ newline
    ++ "========== ExternCompiler Result ==========" ++ newline
    ++ prog ++ newline.

(** The two catch clauses of ExternCompiler::compile; [prog] is the local
    variable, still empty while readProgram has not returned.  Both format
    [ex.what()], a C string. *)
Definition compile_catch {A} (code prog : string) (e : exn)
  : option (M ExternCompiler A) :=
  match e with
  | CompileException w =>
      Some (stop ;;;
            c <- this ;;
            when (verboseErrors (m_options c))
                 (emit (EvLogger ("ExternCompiler Error: " ++ c_str w))) ;;;
            throw e)
  | runtime_error w =>
      Some (c <- this ;;
            if verboseErrors (m_options c) then
              let msg := verbose_message (c_str w) code prog in
              emit (EvLogger ("ExternCompiler Generated a bad unit: " ++ msg)) ;;;
              throw (runtime_error msg)
            else throw e)
  | _ => None
  end.

(** The statements of ExternCompiler::compile before its try block. *)
Definition compile_prepare : M ExternCompiler unit :=
  c <- this ;;
  when (negb (EvalHackCompilerReset ro =? 0)
        && (EvalHackCompilerReset ro <? m_compilations c)) stop ;;;
  c <- this ;;
  when (negb (isRunning c)) start.

(** The first two statements of the try block. *)
Definition compile_send (filename md5 code : string) : M ExternCompiler unit :=
  c <- this ;;
  update (set_m_compilations (unsigned (m_compilations c + 1))) ;;;
  writeProgram ext filename md5 code.

(** The try block up to the assignment of [prog]. *)
Definition compile_request (filename md5 code : string) : M ExternCompiler string :=
  compile_send filename md5 code ;;;
  readProgram ext.

(** The try statement. *)
Definition compile_try (filename md5 code : string) : M ExternCompiler UE :=
  prog <- try_catch (compile_request filename md5 code)
                    (compile_catch code EmptyString) ;;
  try_catch (lift_assemble prog filename md5) (compile_catch code prog).

Definition compile (filename md5 code : string) : M ExternCompiler UE :=
  emit (EvCompile filename) ;;;
  compile_prepare ;;;
  compile_try filename md5 code.

End Lifecycle.

(** ** The pool: struct CompilerPool *)

Record CompilerPool : Type := mkCompilerPool {
  pool_options : CompilerOptions;
  m_freeCount : Z;                              (* std::atomic<size_t> *)
  m_compilers : list (option ExternCompiler);   (* AtomicVector<ExternCompiler*> *)
  pool_version : string
}.

Definition set_m_freeCount (v : Z) (p : CompilerPool) : CompilerPool :=
  mkCompilerPool (pool_options p) v (m_compilers p) (pool_version p).
Definition set_m_compilers (v : list (option ExternCompiler)) (p : CompilerPool)
  : CompilerPool :=
  mkCompilerPool (pool_options p) (m_freeCount p) v (pool_version p).
Definition set_pool_version (v : string) (p : CompilerPool) : CompilerPool :=
  mkCompilerPool (pool_options p) (m_freeCount p) (m_compilers p) v.

Definition new_CompilerPool (options : CompilerOptions) : CompilerPool :=
  mkCompilerPool options 0 (repeat None (Z.to_nat (workers options))) EmptyString.

(** Slot access: [load] reads slot [id], [store] writes it. *)
Definition load {A} (id : nat) (l : list (option A)) : option A :=
  nth id l None.

Fixpoint store {A} (id : nat) (v : A) (l : list A) : list A :=
  match l, id with
  | [], _ => []
  | _ :: t, O => v :: t
  | h :: t, S i => h :: store i v t
  end.

(** The for loop of getCompiler from index [id], with [n] slots left. *)
Fixpoint scan_from (id n : nat) (cs : list (option ExternCompiler))
  : option (nat * ExternCompiler) * list (option ExternCompiler) :=
  match n with
  | O => (None, cs)
  | S n' =>
      let r := load id cs in
      let cs' := store id None cs in        (* exchange(id, nullptr) *)
      match r with
      | Some c => (Some (id, c), cs')
      | None => scan_from (S id) n' cs'
      end
  end.

(** getCompiler once the wait on the condition variable is over. *)
Definition getCompiler_locked (p : CompilerPool)
  : option (nat * ExternCompiler) * CompilerPool :=
  let p1 := set_m_freeCount (size_t (m_freeCount p - 1)) p in
  let '(r, cs) := scan_from 0 (List.length (m_compilers p1)) (m_compilers p1) in
  (r, set_m_compilers cs p1).

Definition releaseCompiler_locked (id : nat) (ptr : ExternCompiler)
  (p : CompilerPool) : CompilerPool :=
  let p1 := set_m_compilers (store id (Some ptr) (m_compilers p)) p in
  set_m_freeCount (size_t (m_freeCount p1 + 1)) p1.

(** In a single thread a wait with free count 0 never ends. *)
Definition getCompiler : M CompilerPool (nat * ExternCompiler) :=
  p <- this ;;
  if m_freeCount p =? 0 then stuck CvWait
  else
    let '(r, p') := getCompiler_locked p in
    update (fun _ => p') ;;;
    match r with
    | Some (id, c) => emit (EvGetCompiler id) ;;; ret (id, c)
    | None => stuck NotReached
    end.

Definition releaseCompiler (id : nat) (ptr : ExternCompiler) : M CompilerPool unit :=
  update (releaseCompiler_locked id ptr) ;;;
  emit (EvReleaseCompiler id).

(** CompilerGuard around [body]: the worker taken from its slot is the
    object [body] runs on; the destructor gives it back on return and on
    throw. *)
Definition with_CompilerGuard {A} (body : M ExternCompiler A) : M CompilerPool A :=
  g <- getCompiler ;;
  let '(id, c) := g in
  fun p sg =>
    match body c sg with
    | (Halt h, _, sg') => (Halt h, p, sg')
    | (r, c', sg') =>
        match releaseCompiler id c' p sg' with
        | (Ret _, p', sg'') => (r, p', sg'')
        | (Throw _, p', sg'') => (Halt Terminate, p', sg'')
        | (Halt h, p', sg'') => (Halt h, p', sg'')
        end
    end.

(** [delete c] *)
Definition delete {X} (c : option ExternCompiler) : M X unit :=
  fun x sg =>
    match c with
    | None => (Ret tt, x, sg)
    | Some c =>
        match destroy c sg with
        | (Ret _, _, sg') => (Ret tt, x, sg')
        | (Throw _, _, sg') => (Halt Terminate, x, sg')
        | (Halt h, _, sg') => (Halt h, x, sg')
        end
    end.

(** The loop of CompilerPool::shutdown from index [i], with [n] slots left. *)
Fixpoint shutdown_from (detach_compilers : bool) (i n : nat)
  : M CompilerPool unit :=
  match n with
  | O => ret tt
  | S n' =>
      p <- this ;;
      let c := load i (m_compilers p) in
      update (set_m_compilers (store i None (m_compilers p))) ;;;
      c <- (if detach_compilers then
              match c with
              | None => stuck NullDeref
              | Some c => ret (Some (set_m_pid kInvalidPid c))
              end
            else ret c) ;;
      delete c ;;;
      shutdown_from detach_compilers (S i) n'
  end.

Definition CompilerPool_shutdown (detach_compilers : bool) : M CompilerPool unit :=
  p <- this ;;
  shutdown_from detach_compilers 0 (List.length (m_compilers p)).

Definition CompilerResult (UE : Type) : Type := (UE + string)%type.

Section Pool.

Context {UE : Type}.
Variable ext : Externals UE.
Variable ro : RuntimeOption.

(** The first loop of CompilerPool::start. *)
Fixpoint fill_from (options : CompilerOptions) (i n : nat)
  (cs : list (option ExternCompiler)) : list (option ExternCompiler) :=
  match n with
  | O => cs
  | S n' => fill_from options (S i) n' (store i (Some (new_ExternCompiler options)) cs)
  end.

(** The statements of CompilerPool::start before the guard. *)
Definition start_slots (p : CompilerPool) : CompilerPool :=
  let nworkers := workers (pool_options p) in
  let p1 := set_m_freeCount nworkers p in
  set_m_compilers
    (fill_from (pool_options p1) 0 (Z.to_nat nworkers) (m_compilers p1)) p1.

Definition CompilerPool_start : M CompilerPool unit :=
  update start_slots ;;;
  v <- with_CompilerGuard (getVersionString ext ro) ;;
  update (set_pool_version v).

(** The while loop of CompilerPool::compile.  [fuel] bounds the number of
    tests of the loop condition.  [err << ex.what()] and [return ex.what()]
    take the message as a C string. *)
Fixpoint retry_loop (filename md5 code : string) (verbose : bool)
  (fuel : nat) (max retry : Z) (err : string)
  : M ExternCompiler (CompilerResult UE) :=
  match fuel with
  | O => stuck OutOfFuel
  | S fuel' =>
      if retry <? max then
        let retry := retry + 1 in
        try_catch
          (ue <- compile ext ro filename md5 code ;; ret (inl ue))
          (fun e =>
             match e with
             | CompileException w =>
                 let err := err ++ c_str w in
                 let err := if retry <? max then err ++ newline else err in
                 Some (retry_loop filename md5 code verbose fuel' max retry err)
             | runtime_error w => Some (ret (inr (c_str w)))
             | _ => None
             end)
      else
        when verbose
          (emit (EvLogger
             "ExternCompiler encountered too many communication errors, giving up.")) ;;;
        ret (inr err)
  end.

(** [std::max<size_t>(1, m_options.maxRetries + 1)] *)
Definition max_attempts (options : CompilerOptions) : Z :=
  Z.max 1 (size_t (maxRetries options + 1)).

Definition CompilerPool_compile (code filename md5 : string)
  : M CompilerPool (CompilerResult UE) :=
  p <- this ;;
  with_CompilerGuard
    (let max := max_attempts (pool_options p) in
     retry_loop filename md5 code (verboseErrors (pool_options p))
                (S (Z.to_nat max)) max 0 EmptyString).

End Pool.

(** ** The manager: struct CompilerManager *)

Record CompilerManager : Type := mkCompilerManager {
  m_delegate : Z;
  m_hackc_pool : option CompilerPool;
  m_started : bool;
  m_username : option string
}.

Definition CompilerManager_stop (detach_compilers : bool) : M CompilerManager unit :=
  m <- this ;;
  match m_hackc_pool m with
  | Some p =>
      fun m sg =>
        match CompilerPool_shutdown detach_compilers p sg with
        | (Ret _, _, sg') =>
            (Ret tt, mkCompilerManager (m_delegate m) None (m_started m) (m_username m), sg')
        | (Throw e, p', sg') =>
            (Throw e, mkCompilerManager (m_delegate m) (Some p') (m_started m) (m_username m), sg')
        | (Halt h, p', sg') =>
            (Halt h, mkCompilerManager (m_delegate m) (Some p') (m_started m) (m_username m), sg')
        end
  | None => ret tt
  end ;;;
  m <- this ;;
  emit (EvClose (m_delegate m)) ;;;
  update (fun m => mkCompilerManager kInvalidPid (m_hackc_pool m) false (m_username m)).

Definition CompilerManager_shutdown : M CompilerManager unit :=
  CompilerManager_stop false.

Definition detach_after_fork : M CompilerManager unit :=
  CompilerManager_stop true.

(** ** A concrete instance of the collaborators

    Used to run the definitions on concrete inputs.  [toJson] is a plain
    serialiser without escaping (cut at a NUL byte, which none of the
    documents below holds); [parseJson] inverts it on the documents of [docs]
    and rejects every other line. *)

Module Sample.

Definition Z_to_string (z : Z) : string :=
  NilZero.string_of_int (Z.to_int z).

Definition dq : string := String (ascii_of_nat 34) EmptyString.
Definition quoted (s : string) : string := dq ++ s ++ dq.

Fixpoint toJson (d : dynamic) : string :=
  match d with
  | DNull => "null"
  | DBool b => if b then "true" else "false"
  | DInt z => Z_to_string z
  | DString s => quoted s
  | DArray l =>
      "[" ++ (fix items (l : list dynamic) : string :=
                match l with
                | [] => EmptyString
                | x :: r =>
                    toJson x ++ match r with [] => EmptyString | _ => "," ++ items r end
                end) l ++ "]"
  | DObject kv =>
      "{" ++ (fix items (kv : list (string * dynamic)) : string :=
                match kv with
                | [] => EmptyString
                | (k, v) :: r =>
                    quoted k ++ ":" ++ toJson v
                      ++ match r with [] => EmptyString | _ => "," ++ items r end
                end) kv ++ "}"
  end.

Definition hhas (bytes : Z) : dynamic :=
  DObject [("type", DString "hhas"); ("bytes", DInt bytes)].
Definition error_reply (bytes : Z) (msg : string) : dynamic :=
  DObject [("type", DString "error"); ("bytes", DInt bytes); ("error", DString msg)].
Definition error_no_field (bytes : Z) : dynamic :=
  DObject [("type", DString "error"); ("bytes", DInt bytes)].
Definition error_bad_bytes : dynamic :=
  DObject [("type", DString "error"); ("bytes", DArray [])].
Definition banana : dynamic :=
  DObject [("type", DString "banana"); ("bytes", DInt 0)].
Definition version_doc : dynamic := DObject [("version", DString "1.0")].
Definition no_version_doc : dynamic := DObject [("build", DString "1.0")].

Definition docs : list dynamic :=
  [ version_doc; no_version_doc; DObject []; hhas 0; hhas 3; hhas 9;
    error_reply 0 "syntax error at line 1"; error_no_field 0; error_no_field 5;
    error_bad_bytes; banana ].

Definition parseJson (line : string) : string + dynamic :=
  match find (fun d => String.eqb (toJson d) line) docs with
  | Some d => inr d
  | None => inl ("json parse error on input: " ++ line)
  end.

Fixpoint c_str_idem (s : string) : c_str (c_str s) = c_str s.
Proof.
  destruct s as [|a r]; simpl; [reflexivity|].
  destruct (Ascii.eqb a NUL) eqn:E; simpl; [reflexivity|].
  rewrite E. f_equal. apply c_str_idem.
Defined.

Definition ext : Externals string :=
  mkExternals string
    parseJson
    (fun d => c_str (toJson d))
    (fun d => c_str_idem (toJson d))
    Z_to_string
    (fun b : bool => if b then "true" else "false")
    (fun s => inl ("Invalid leading character: " ++ s))
    (fun _ => "TypeError")
    (fun k => "couldn't find key " ++ k ++ " in dynamic object")
    (fun e => c_str ("errno " ++ Z_to_string e))
    (fun e => c_str_idem ("errno " ++ Z_to_string e))
    (2 ^ 62) eq_refl
    (fun n => if 2 ^ 62 <? n then "basic_string::_M_create" else "std::bad_alloc")
    (fun prog _ _ => AsmUnit prog).

Definition ro : RuntimeOption := mkRuntimeOption 0 "{}" (DArray []).

Definition options (verbose : bool) (retries nworkers : Z) : CompilerOptions :=
  mkCompilerOptions verbose retries nworkers "hackc" false.

Definition world0 (spawns : list spawn) : World :=
  mkWorld 0 spawns (fun _ => None) (fun pid => (pid, 15)) (fun _ => true) true [].

(** A world whose subprocesses ignore SIGTERM: the bounded wait for them
    fails and they keep their stderr open. *)
Definition lingering (spawns : list spawn) : World :=
  mkWorld 0 spawns (fun _ => None) (fun _ => (-1, 0)) (fun _ => false) true [].

(** A subprocess with identifier [pid] whose stdout will hold [out]. *)
Definition proc (pid : Z) (out : string) : spawn :=
  ProcOpen pid (Some (mkFILE 10 EmptyString []))
               (Some (mkFILE 11 out []))
               (Some (mkFILE 12 EmptyString [])).

Definition frame (header : dynamic) (body : string) : string :=
  toJson header ++ newline ++ body.

(** A worker that is running and whose stdout holds [out]. *)
Definition running (verbose : bool) (out : string) : ExternCompiler :=
  mkExternCompiler 4242 (Some (mkFILE 10 EmptyString []))
                   (Some (mkFILE 11 out []))
                   "1.0" (Some (mkFILE 12 EmptyString [])) true 0
                   (options verbose 2 2).

End Sample.

(** ** Recognising Hack files: startsWith, isFileHack

    A [const char*] is the string of the bytes that may be read from it;
    reading past them is [None].  A string literal is the string of its
    bytes, its terminating NUL left implicit. *)

(** [strncmp(big, small, n) == 0], [small] a literal. *)
Fixpoint strncmp_eq0 (big small : string) (n : nat) {struct n} : option bool :=
  match n with
  | O => Some true
  | S n' =>
      match big with
      | EmptyString => None
      | String b big' =>
          match small with
          | EmptyString => Some (Ascii.eqb b NUL)
          | String s small' =>
              if Ascii.eqb b s
              then (if Ascii.eqb b NUL then Some true
                    else strncmp_eq0 big' small' n')
              else Some false
          end
      end
  end.

(** [memchr(s, c, n)]: the offset of the first [c] among the first [n] bytes
    of [s], [Some None] for a null result. *)
Fixpoint memchr (s : string) (c : ascii) (n : nat) {struct n}
  : option (option nat) :=
  match n with
  | O => Some None
  | S n' =>
      match s with
      | EmptyString => None
      | String b s' =>
          if Ascii.eqb b c then Some (Some O)
          else match memchr s' c n' with
               | Some (Some i) => Some (Some (S i))
               | r => r
               end
      end
  end.

(** [p + n] on a [const char*]. *)
Fixpoint advance (n : nat) (s : string) {struct n} : string :=
  match n, s with
  | O, _ => s
  | S n', String _ s' => advance n' s'
  | S _, EmptyString => EmptyString
  end.

Definition startsWith (big small : string) : option bool :=
  strncmp_eq0 big small (String.length small).

Definition isFileHack_tail (code : string) (codeLen : Z) : option bool :=
  if strlen "<?hh" <? codeLen then startsWith code "<?hh" else Some false.

Definition isFileHack (code : string) (codeLen : Z) : option bool :=
  if 2 <? codeLen then
    match strncmp_eq0 code "#!" 2 with
    | None => None
    | Some true =>
        match memchr code LF (Z.to_nat codeLen) with
        | None => None
        | Some None => Some false
        | Some (Some loc) =>
            let offset := Z.of_nat loc in
            isFileHack_tail (advance (S loc) code) (size_t (codeLen - (offset + 1)))
        end
    | Some false => isFileHack_tail code codeLen
    end
  else isFileHack_tail code codeLen.

(** ** hackc_mode, hackcConfiguration *)

(** The RuntimeOption values the configuration reads.  [hackcCommand] is the
    value of the function-local static of hackcCommand(), computed at its
    first call and the same at every later one. *)
Record HackcOption : Type := mkHackcOption {
  EvalHackCompilerDefault : bool;
  EvalHackCompilerFallback : bool;
  EvalHackCompilerVerboseErrors : bool;
  EvalHackCompilerMaxRetries : Z;           (* uint64_t *)
  EvalHackCompilerWorkers : Z;              (* uint64_t *)
  EvalHackCompilerInheritConfig : bool;
  EvalUseExternCompilerForSystemLib : bool;
  hackcCommand : string
}.

Variant HackcMode : Type := kNever | kFallback | kFatal.

Definition HackcMode_eqb (a b : HackcMode) : bool :=
  match a, b with
  | kNever, kNever | kFallback, kFallback | kFatal, kFatal => true
  | _, _ => false
  end.

Definition hackc_mode (o : HackcOption) : HackcMode :=
  if negb (EvalHackCompilerDefault o) then kNever
  else if String.eqb (hackcCommand o) EmptyString
          || (EvalHackCompilerWorkers o =? 0)
  then kNever
  else if EvalHackCompilerFallback o then kFallback
  else kFatal.

Definition hackcConfiguration (o : HackcOption) : option CompilerOptions :=
  if HackcMode_eqb (hackc_mode o) kNever then None
  else Some (mkCompilerOptions
               (EvalHackCompilerVerboseErrors o)
               (EvalHackCompilerMaxRetries o)
               (EvalHackCompilerWorkers o)
               (hackcCommand o)
               (EvalHackCompilerInheritConfig o)).

(** ** The manager's member functions and the entry points *)

(** LightProcess, as the manager uses it: the results of the calls of
    createDelegate() to come, and the ChangeUser calls made, latest first. *)
Record LightProcess : Type := mkLightProcess {
  lp_delegates : list Z;
  lp_users : list (Z * string)
}.

(** The process: [s_manager] and the light process. *)
Record Process : Type := mkProcess {
  s_manager : CompilerManager;
  light_process : LightProcess
}.

Definition set_m_delegate (v : Z) (m : CompilerManager) : CompilerManager :=
  mkCompilerManager v (m_hackc_pool m) (m_started m) (m_username m).
Definition set_m_hackc_pool (v : option CompilerPool) (m : CompilerManager)
  : CompilerManager :=
  mkCompilerManager (m_delegate m) v (m_started m) (m_username m).
Definition set_m_started (v : bool) (m : CompilerManager) : CompilerManager :=
  mkCompilerManager (m_delegate m) (m_hackc_pool m) v (m_username m).
Definition set_username (username : string) (m : CompilerManager) : CompilerManager :=
  mkCompilerManager (m_delegate m) (m_hackc_pool m) (m_started m) (Some username).

Definition hackc_enabled (m : CompilerManager) : bool :=
  match m_hackc_pool m with
  | Some _ => true
  | None => false
  end.

(** A member function of [s_manager], run in the process. *)
Definition on_manager {A} (f : M CompilerManager A) : M Process A :=
  fun s sg =>
    match f (s_manager s) sg with
    | (r, m', sg') => (r, mkProcess m' (light_process s), sg')
    end.

(** A member function of the pool called through [m_hackc_pool], by [->]
    or on the reference get_hackc_pool() returns. *)
Definition on_hackc_pool {A} (f : M CompilerPool A) : M CompilerManager A :=
  fun m sg =>
    match m_hackc_pool m with
    | None => (Halt NullDeref, m, sg)
    | Some p =>
        match f p sg with
        | (r, p', sg') => (r, set_m_hackc_pool (Some p') m, sg')
        end
    end.

(** LightProcess::createDelegate(); -1 when it fails. *)
Definition createDelegate : M Process Z :=
  fun s sg =>
    match lp_delegates (light_process s) with
    | [] => (Ret (-1), s, sg)
    | d :: rest =>
        (Ret d,
         mkProcess (s_manager s) (mkLightProcess rest (lp_users (light_process s))),
         sg)
    end.

Definition ChangeUser (afdt : Z) (username : string) : M Process unit :=
  update (fun s =>
    mkProcess (s_manager s)
      (mkLightProcess (lp_delegates (light_process s))
                      ((afdt, username) :: lp_users (light_process s)))).

(** CompilerPool::getVersionString *)
Definition CompilerPool_getVersionString : M CompilerPool string :=
  p <- this ;; ret (pool_version p).

Variant FatalOp : Type := FatalOp_Runtime | FatalOp_Parse | FatalOp_RuntimeOmitFrame.

(** What a [std::unique_ptr<UnitEmitter>] that is not null holds: the unit
    the assembler built, or the unit of createFatalUnit. *)
Inductive unit_emitter (UE : Type) : Type :=
| Assembled (ue : UE)
| createFatalUnit (filename md5 : string) (op : FatalOp) (err : string).
Arguments Assembled {UE} ue.
Arguments createFatalUnit {UE} filename md5 op err.

Record HackcUnitCompiler : Type := mkHackcUnitCompiler {
  m_code : string;
  m_filename : string;
  m_md5 : string;
  m_hackcMode : HackcMode
}.

Section Manager.

Context {UE : Type}.
Variable ext : Externals UE.
Variable ro : RuntimeOption.
Variable ho : HackcOption.

(** CompilerManager::ensure_started, on a platform other than Apple's.  The
    second test of m_started, under the lock, reads what the first read. *)
Definition ensure_started : M Process unit :=
  s <- this ;;
  if m_started (s_manager s) then ret tt
  else
    let hackConfig := hackcConfiguration ho in
    match hackConfig with
    | Some _ =>
        d <- createDelegate ;;
        on_manager (update (set_m_delegate d))
    | None => ret tt
    end ;;;
    match hackConfig with
    | Some options =>
        on_manager (update (set_m_hackc_pool (Some (new_CompilerPool options))))
    | None => ret tt
    end ;;;
    s <- this ;;
    match m_username (s_manager s) with
    | Some username =>
        when (negb (m_delegate (s_manager s) =? kInvalidPid))
             (ChangeUser (m_delegate (s_manager s)) username)
    | None => ret tt
    end ;;;
    s <- this ;;
    when (hackc_enabled (s_manager s))
         (on_manager (on_hackc_pool (CompilerPool_start ext ro))) ;;;
    on_manager (update (set_m_started true)).

(** [s_manager.get_hackc_pool().f(...)] *)
Definition with_hackc_pool {A} (f : M CompilerPool A) : M Process A :=
  ensure_started ;;;
  on_manager (on_hackc_pool f).

Definition compilers_start : M Process unit := ensure_started.

Definition compilers_set_user (username : string) : M Process unit :=
  on_manager (update (set_username username)).

Definition compilers_shutdown : M Process unit :=
  on_manager CompilerManager_shutdown.

Definition compilers_detach_after_fork : M Process unit :=
  on_manager detach_after_fork.

Definition hackc_compile (code filename md5 : string)
  : M Process (CompilerResult UE) :=
  with_hackc_pool (CompilerPool_compile ext ro code filename md5).

Definition hackc_version : M Process string :=
  with_hackc_pool CompilerPool_getVersionString.

(** UnitCompiler::create; [None] is the null pointer. *)
Definition UnitCompiler_create (code filename md5 : string)
  : M Process (option HackcUnitCompiler) :=
  ensure_started ;;;
  sg <- world ;;
  if w_s_inited sg || EvalUseExternCompilerForSystemLib ho then
    let hcMode := hackc_mode ho in
    s <- this ;;
    if negb (HackcMode_eqb hcMode kNever) && hackc_enabled (s_manager s)
    then ret (Some (mkHackcUnitCompiler code filename md5 hcMode))
    else ret None
  else ret None.

(** HackcUnitCompiler::compile; [None] is the null pointer. *)
Definition HackcUnitCompiler_compile (uc : HackcUnitCompiler)
  : M Process (option (unit_emitter UE)) :=
  res <- hackc_compile (m_code uc) (m_filename uc) (m_md5 uc) ;;
  match res with
  | inl ue => ret (Some (Assembled ue))
  | inr err =>
      if negb (HackcMode_eqb (m_hackcMode uc) kFallback)
      then ret (Some (createFatalUnit (m_filename uc) (m_md5 uc)
                                      FatalOp_Runtime err))
      else ret None
  end.

End Manager.

(** * Observations used in the statements *)

Definition kill_or_wait (e : event) : bool :=
  match e with
  | EvKill _ _ | EvWaitpid _ => true
  | _ => false
  end.

(** The worker [stop] leaves behind. *)
Definition stopped (c : ExternCompiler) : ExternCompiler :=
  if m_pid c =? kInvalidPid
  then set_m_logStderrThread false (set_m_err None c)
  else mkExternCompiler kInvalidPid None None (m_version c) None false 0 (m_options c).

(** Whether the join of stop() returns for worker [c] in world [sg]: there
    is no thread to join, or the worker is a detached one, or the stderr
    pipe of its subprocess hangs up. *)
Definition can_join (sg : World) (c : ExternCompiler) : bool :=
  negb (m_logStderrThread c)
  || (m_pid c =? kInvalidPid)
  || w_stderr_hup sg (m_pid c).

(** The worker a stop() that waits in the join has left: the subprocess
    signalled and waited for, stdin and stdout closed, the stderr handle and
    the thread still there. *)
Definition joining (c : ExternCompiler) : ExternCompiler :=
  set_m_pid kInvalidPid (set_m_out None (set_m_in None (set_m_compilations 0 c))).

(** The events of tearing a worker down, the kill apart. *)
Definition teardown_event (e : event) : bool :=
  match e with
  | EvFclose _ | EvThreadJoin | EvWaitpid _ | EvLogger _ => true
  | _ => false
  end.

(** Events of the worker's own making: everything but the markers of a
    call into ExternCompiler::compile and of taking and returning a lease. *)
Definition io_event (e : event) : bool :=
  match e with
  | EvCompile _ | EvGetCompiler _ | EvReleaseCompiler _ => false
  | _ => true
  end.

(** [quiet m]: running [m] extends the trace, and only by [io_event]s. *)
Definition quiet {X A} (m : M X A) : Prop :=
  forall x sg, exists evs,
    w_trace (snd (m x sg)) = (w_trace sg ++ evs)%list
    /\ forallb io_event evs = true.

(** The outcome the next write on a stream with script [script] meets. *)
Definition next_write (script : list wr_outcome) : wr_outcome :=
  match script with
  | [] => WrOk
  | o :: _ => o
  end.

(** What a flush that meets outcome [o] leaves in the trace. *)
Definition flush_event (fd : Z) (o : wr_outcome) : event :=
  match o with
  | WrOk => EvFlush fd
  | WrFail _ => EvFlushFail fd
  end.

(** errno after a call that meets outcome [o]. *)
Definition errno_after (o : wr_outcome) (sg : World) : Z :=
  match o with
  | WrOk => w_errno sg
  | WrFail e => e
  end.

(** [keeps_pid m]: running [m] leaves the subprocess identifier alone. *)
Definition keeps_pid {A} (m : M ExternCompiler A) : Prop :=
  forall c sg, m_pid (snd (fst (m c sg))) = m_pid c.

Definition is_BadCompiler (e : exn) : bool :=
  match e with
  | BadCompilerException _ => true
  | _ => false
  end.

(** *** The pool among several threads

    The critical sections of getCompiler and releaseCompiler run under the
    pool's mutex, so each is one atomic step; so is the assignment of
    [m_version] that start() makes while it holds its lease.  A state is the pool together
    with the leases that CompilerGuard objects currently hold.  A guard
    gives back the pointer it took; the object behind it may have changed
    in the meantime. *)

Record PoolState : Type := mkPoolState {
  ps_pool : CompilerPool;
  ps_leases : list (nat * ExternCompiler)
}.

Inductive pool_step : PoolState -> PoolState -> Prop :=
| step_getCompiler : forall p leases id c p',
    m_freeCount p <> 0 ->
    getCompiler_locked p = (Some (id, c), p') ->
    pool_step (mkPoolState p leases) (mkPoolState p' ((id, c) :: leases))
| step_releaseCompiler : forall p l1 l2 id c c',
    pool_step (mkPoolState p (l1 ++ (id, c) :: l2)%list)
              (mkPoolState (releaseCompiler_locked id c' p) (l1 ++ l2)%list)
| step_setVersion : forall p leases v,
    pool_step (mkPoolState p leases) (mkPoolState (set_pool_version v p) leases).

(** The states a pool built from [options] goes through until its
    shutdown: constructed, its slots filled by start(), then any number of
    leases taken and returned, by start() itself and by compile(), and the
    version stored by start(). *)
Inductive reachable (options : CompilerOptions) : PoolState -> Prop :=
| reach_new : reachable options (mkPoolState (new_CompilerPool options) [])
| reach_start :
    reachable options (mkPoolState (start_slots (new_CompilerPool options)) [])
| reach_step : forall s s',
    reachable options s -> pool_step s s' -> reachable options s'.

Definition occupied (slot : option ExternCompiler) : bool :=
  match slot with
  | Some _ => true
  | None => false
  end.

Definition nonempty_slots (cs : list (option ExternCompiler)) : Z :=
  Z.of_nat (List.length (filter occupied cs)).

Definition pool_inv (options : CompilerOptions) (s : PoolState) : Prop :=
  let p := ps_pool s in
  Z.of_nat (List.length (m_compilers p)) = workers options
  /\ m_freeCount p = nonempty_slots (m_compilers p)
  /\ 0 <= m_freeCount p <= workers options
  /\ (forall id c, In (id, c) (ps_leases s) ->
        (id < List.length (m_compilers p))%nat /\ load id (m_compilers p) = None)
  /\ NoDup (map fst (ps_leases s)).

(** *** Attempts of the retry loop *)

Definition is_compile_event (e : event) : bool :=
  match e with
  | EvCompile _ => true
  | _ => false
  end.

Definition is_lease_event (e : event) : bool :=
  match e with
  | EvGetCompiler _ | EvReleaseCompiler _ => true
  | _ => false
  end.

(** The number of calls into ExternCompiler::compile a trace records. *)
Definition attempts (evs : list event) : Z :=
  Z.of_nat (List.length (filter is_compile_event evs)).

Definition lease_free (evs : list event) : bool :=
  forallb (fun e => negb (is_lease_event e)) evs.

(** [transport_failures ext ro f md5 code c sg ws c' sg']: starting from
    worker [c] in world [sg], successive calls of the worker's compile fail
    with CompileExceptions whose messages are [ws], and leave worker [c'] in
    world [sg']. *)
Inductive transport_failures {UE} (ext : Externals UE) (ro : RuntimeOption)
  (filename md5 code : string)
  : ExternCompiler -> World -> list string -> ExternCompiler -> World -> Prop :=
| failures_nil : forall c sg,
    transport_failures ext ro filename md5 code c sg [] c sg
| failures_cons : forall c sg w c1 sg1 ws c2 sg2,
    compile ext ro filename md5 code c sg = (Throw (CompileException w), c1, sg1) ->
    transport_failures ext ro filename md5 code c1 sg1 ws c2 sg2 ->
    transport_failures ext ro filename md5 code c sg (w :: ws) c2 sg2.

(** What the loop appends to [err] for the failures [ws] when it enters
    with counter [retry]: each message, followed by a newline unless it was
    the last attempt. *)
Fixpoint accumulated (max retry : Z) (ws : list string) : string :=
  match ws with
  | [] => EmptyString
  | w :: ws' =>
      (if retry + 1 <? max then w ++ newline else w)
        ++ accumulated max (retry + 1) ws'
  end.

(** [fuelled m]: [m] never stops for lack of fuel. *)
Definition fuelled {X A} (m : M X A) : Prop :=
  forall x sg, fst (fst (m x sg)) <> Halt OutOfFuel.

(** [clean m]: a CompileException that [m] throws carries a message without
    NUL byte, so that [what()] gives it whole. *)
Definition clean {X A} (m : M X A) : Prop :=
  forall x sg w x' sg',
    m x sg = (Throw (CompileException w), x', sg') -> c_str w = w.

(** An exception that, where it is a CompileException, carries such a
    message. *)
Definition clean_exn (e : exn) : Prop :=
  forall w, e = CompileException w -> c_str w = w.

(** *** Further observations on streams and traces *)

(** Whether a string holds a newline. *)
Fixpoint has_LF (s : string) : bool :=
  match s with
  | EmptyString => false
  | String c r => Ascii.eqb c LF || has_LF r
  end.

(** The bytes a trace records as written on descriptor [fd], in order. *)
Fixpoint written_on (fd : Z) (evs : list event) : string :=
  match evs with
  | [] => EmptyString
  | EvWrite fd' data :: rest =>
      if fd' =? fd then data ++ written_on fd rest else written_on fd rest
  | _ :: rest => written_on fd rest
  end.

(** The events [m] adds to the trace when run on [x] in [sg]. *)
Definition events_of {X A} (m : M X A) (x : X) (sg : World) : list event :=
  skipn (List.length (w_trace sg)) (w_trace (snd (m x sg))).

(** The subprocess identifiers a trace records a kill for, in order. *)
Fixpoint kills (evs : list event) : list Z :=
  match evs with
  | [] => []
  | EvKill pid _ :: rest => pid :: kills rest
  | _ :: rest => kills rest
  end.

(** The number of proc_open calls a trace records. *)
Fixpoint spawn_count (evs : list event) : nat :=
  match evs with
  | [] => O
  | EvProcOpen _ _ :: rest => S (spawn_count rest)
  | _ :: rest => spawn_count rest
  end.

(** The events of one frame sent on descriptor [fd]: the header line, the
    body unless it is empty, the flush. *)
Definition frame_events {UE} (ext : Externals UE) (fd : Z) (header : dynamic)
  (body : string) : list event :=
  (EvWrite fd (toJson ext header ++ newline)
     :: match body with
        | EmptyString => []
        | _ => [EvWrite fd body]
        end
     ++ [EvFlush fd])%list.

Definition config_header (n : Z) : dynamic :=
  DObject [("type", DString "config"); ("bytes", DInt n)].

Definition code_header (md5 filename : string) (is_systemlib : bool) (n : Z)
  : dynamic :=
  DObject [("type", DString "code"); ("md5", DString md5);
           ("file", DString filename); ("is_systemlib", DBool is_systemlib);
           ("bytes", DInt n)].

(** The subprocess identifiers of the running workers found in slots, in
    slot order. *)
Fixpoint running_pids (cs : list (option ExternCompiler)) : list Z :=
  match cs with
  | [] => []
  | Some c :: rest =>
      if isRunning c then m_pid c :: running_pids rest else running_pids rest
  | None :: rest => running_pids rest
  end.

Definition is_CompileException (e : exn) : bool :=
  match e with
  | CompileException _ => true
  | _ => false
  end.

(** *** A concrete process *)

Module SampleProcess.

Definition hackc (enabled fallback : bool) : HackcOption :=
  mkHackcOption enabled fallback false 2 2 false false "hackc".

(** The process before compilers_start(), with one delegate to come. *)
Definition fresh (username : option string) : Process :=
  mkProcess (mkCompilerManager kInvalidPid None false username)
            (mkLightProcess [7] []).

End SampleProcess.

(** *** Shutting down workers whose join may not return *)

Definition slot_can_join (sg : World) (slot : option ExternCompiler) : bool :=
  match slot with
  | Some c => can_join sg c
  | None => true
  end.

(** Whether the join returns for the worker of every slot. *)
Definition all_can_join (sg : World) (cs : list (option ExternCompiler)) : bool :=
  forallb (slot_can_join sg) cs.

(** The slots shutdown() gets to: all of them, or those up to and including
    the first whose worker keeps it in the join. *)
Fixpoint shutdown_reach (sg : World) (cs : list (option ExternCompiler))
  : list (option ExternCompiler) :=
  match cs with
  | [] => []
  | slot :: rest =>
      slot :: (if slot_can_join sg slot then shutdown_reach sg rest else [])
  end.

(** * Properties *)

(** ** Strings *)

Lemma append_assoc : forall s1 s2 s3 : string, (s1 ++ s2) ++ s3 = s1 ++ (s2 ++ s3).
Proof. induction s1 as [|a s1 IH]; simpl; intros; [|rewrite IH]; reflexivity. Qed.

Lemma append_nil_r : forall s : string, s ++ EmptyString = s.
Proof. induction s as [|a s IH]; simpl; [|rewrite IH]; reflexivity. Qed.

(** ** Worlds and traces *)

Lemma add_events_nil : forall sg, add_events [] sg = sg.
Proof. intros []; unfold add_events; simpl; rewrite app_nil_r; reflexivity. Qed.

Lemma add_events_app : forall evs1 evs2 sg,
  add_events evs2 (add_events evs1 sg) = add_events (evs1 ++ evs2)%list sg.
Proof. intros; unfold add_events; simpl; rewrite app_assoc; reflexivity. Qed.

Lemma set_errno_add_events : forall e evs sg,
  add_events evs (set_errno e sg) = set_errno e (add_events evs sg).
Proof. reflexivity. Qed.

Lemma set_errno_twice : forall e1 e2 sg,
  set_errno e2 (set_errno e1 sg) = set_errno e2 sg.
Proof. reflexivity. Qed.

(** ** Stopping a worker *)

Ltac split_ifs :=
  repeat match goal with
         | |- context [if ?b then _ else _] => destruct b; simpl
         end.

Ltac run_prims :=
  unfold bind, this, update, when, fclose, emit, ret, sys_kill, sys_waitpid,
    log_event; simpl.

Lemma teardown_no_kill_or_wait_free : forall evs,
  forallb (fun e => teardown_event e && negb (kill_or_wait e)) evs = true ->
  forallb teardown_event evs = true /\ existsb kill_or_wait evs = false.
Proof.
  induction evs as [|e evs IH]; simpl; [auto|].
  intros H. apply andb_true_iff in H. destruct H as (He & Hevs).
  apply andb_true_iff in He. destruct He as (He1 & He2).
  destruct (IH Hevs) as (IH1 & IH2).
  rewrite He1, IH1, IH2. apply negb_true_iff in He2. rewrite He2. auto.
Qed.

(** stopLogStderrThread when the join returns. *)
Lemma stopLogStderrThread_run : forall pid c sg,
  negb (m_logStderrThread c) || (pid =? kInvalidPid) || w_stderr_hup sg pid = true ->
  exists evs,
    stopLogStderrThread pid c sg
    = (Ret tt, set_m_logStderrThread false (set_m_err None c), add_events evs sg)
    /\ forallb teardown_event evs = true
    /\ existsb kill_or_wait evs = false.
Proof.
  intros pid [p fin fout ver ferr th n opts] sg Hj.
  unfold stopLogStderrThread, join_logStderrThread, scope_exit.
  cbn [m_logStderrThread negb orb] in Hj.
  destruct ferr, th; cbn [negb orb] in Hj; run_prims; unfold world; simpl;
    rewrite ?Hj; simpl; rewrite ?add_events_app.
  - eexists; repeat split; reflexivity.
  - eexists; repeat split; reflexivity.
  - eexists; repeat split; reflexivity.
  - exists []. rewrite add_events_nil. repeat split; reflexivity.
Qed.

(** stopLogStderrThread when the thread never ends: the stream is closed,
    then the call waits in the join. *)
Lemma stopLogStderrThread_blocks : forall pid c sg,
  negb (m_logStderrThread c) || (pid =? kInvalidPid) || w_stderr_hup sg pid = false ->
  exists evs,
    stopLogStderrThread pid c sg = (Halt JoinWait, c, add_events evs sg)
    /\ forallb teardown_event evs = true
    /\ existsb kill_or_wait evs = false.
Proof.
  intros pid [p fin fout ver ferr th n opts] sg Hj.
  unfold stopLogStderrThread, join_logStderrThread, scope_exit.
  cbn [m_logStderrThread negb orb] in Hj.
  destruct th; cbn [negb orb] in Hj; [|discriminate].
  destruct ferr; run_prims; unfold world, stuck; simpl; rewrite ?Hj; simpl.
  - eexists; repeat split; reflexivity.
  - exists []. rewrite add_events_nil. repeat split; reflexivity.
Qed.

Lemma stop_close_pipes_run : forall c sg, exists evs,
  stop_close_pipes c sg
  = (Ret tt, set_m_pid kInvalidPid (set_m_out None (set_m_in None c)),
     add_events evs sg)
  /\ forallb teardown_event evs = true.
Proof.
  intros [pid fin fout ver ferr th n opts] sg.
  unfold stop_close_pipes. run_prims.
  destruct fin, fout; simpl; rewrite ?add_events_app.
  - eexists; split; reflexivity.
  - eexists; split; reflexivity.
  - eexists; split; reflexivity.
  - exists []. rewrite add_events_nil. split; reflexivity.
Qed.

(** The body of stop() on a running worker: one SIGTERM to the worker's
    subprocess, then the bounded wait for it, and warnings. *)
Lemma stop_kill_and_wait_run : forall c sg, exists en evs,
  stop_kill_and_wait c sg
  = (Ret tt, set_m_compilations 0 c,
     set_errno en (add_events (EvKill (m_pid c) SIGTERM :: evs) sg))
  /\ forallb teardown_event evs = true
  /\ In (EvWaitpid (m_pid c)) evs.
Proof.
  intros [pid fin fout ver ferr th n opts] [en sp k wt hup si tr].
  unfold stop_kill_and_wait. run_prims.
  destruct (k pid) as [e|]; simpl.
  all: destruct (wt pid) as [r status] eqn:Ew; simpl.
  all: destruct (r =? pid); simpl.
  all: split_ifs.
  all: unfold add_events, set_errno; simpl; rewrite <- ?app_assoc; simpl.
  all: do 2 eexists; split; [reflexivity|]; split; [reflexivity|]; simpl; auto.
Qed.

(** stop(), whether its join returns or not. *)
Lemma stop_run : forall c sg, exists en evs,
  stop c sg
  = (if can_join sg c then Ret tt else Halt JoinWait,
     if can_join sg c then stopped c else joining c,
     set_errno en (add_events evs sg))
  /\ (m_pid c = kInvalidPid ->
      can_join sg c = true /\ en = w_errno sg
      /\ existsb kill_or_wait evs = false
      /\ forallb teardown_event evs = true)
  /\ (m_pid c <> kInvalidPid ->
      exists evs', evs = EvKill (m_pid c) SIGTERM :: evs'
                   /\ forallb teardown_event evs' = true
                   /\ In (EvWaitpid (m_pid c)) evs').
Proof.
  intros c sg. unfold stop, stopped, bind at 1, this at 1.
  destruct (m_pid c =? kInvalidPid) eqn:Epid.
  - assert (Hj : can_join sg c = true).
    { unfold can_join. rewrite Epid. apply orb_true_iff. left.
      apply orb_true_r. }
    rewrite Hj. unfold scope_exit, ret at 1.
    destruct (stopLogStderrThread_run (m_pid c) c sg) as (evs & -> & Ht & Hk).
    { rewrite Epid. rewrite orb_true_r. reflexivity. }
    exists (w_errno sg), evs. split; [destruct sg; reflexivity|].
    split; [auto|]. apply Z.eqb_eq in Epid. congruence.
  - unfold scope_exit at 1. unfold scope_exit at 1.
    destruct (stop_kill_and_wait_run c sg) as (en & evs1 & -> & Ht1 & Hw).
    destruct (stop_close_pipes_run (set_m_compilations 0 c)
                (set_errno en (add_events (EvKill (m_pid c) SIGTERM :: evs1) sg)))
      as (evs2 & -> & Ht2).
    destruct (can_join sg c) eqn:Hj.
    + match goal with
      | |- context [stopLogStderrThread ?pid ?c' ?sg'] =>
          destruct (stopLogStderrThread_run pid c' sg') as (evs3 & -> & Ht3 & _)
      end.
      { exact Hj. }
      exists en, (EvKill (m_pid c) SIGTERM :: evs1 ++ evs2 ++ evs3)%list.
      split.
      * destruct c; unfold set_errno, add_events; simpl.
        rewrite <- !app_assoc. reflexivity.
      * split; [apply Z.eqb_neq in Epid; congruence|]. intros _.
        exists (evs1 ++ evs2 ++ evs3)%list. split; [reflexivity|].
        rewrite !forallb_app, Ht1, Ht2, Ht3. split; [reflexivity|].
        apply in_or_app. left. exact Hw.
    + match goal with
      | |- context [stopLogStderrThread ?pid ?c' ?sg'] =>
          destruct (stopLogStderrThread_blocks pid c' sg') as (evs3 & -> & Ht3 & _)
      end.
      { exact Hj. }
      exists en, (EvKill (m_pid c) SIGTERM :: evs1 ++ evs2 ++ evs3)%list.
      split.
      * unfold joining. destruct c; unfold set_errno, add_events; simpl.
        rewrite <- !app_assoc. reflexivity.
      * split; [apply Z.eqb_neq in Epid; congruence|]. intros _.
        exists (evs1 ++ evs2 ++ evs3)%list. split; [reflexivity|].
        rewrite !forallb_app, Ht1, Ht2, Ht3. split; [reflexivity|].
        apply in_or_app. left. exact Hw.
Qed.

Lemma stopped_fields : forall c,
  m_pid (stopped c) = kInvalidPid /\ m_err (stopped c) = None
  /\ m_logStderrThread (stopped c) = false.
Proof.
  intros c. unfold stopped. destruct (m_pid c =? kInvalidPid) eqn:E; simpl; auto.
  apply Z.eqb_eq in E. auto.
Qed.

Lemma can_join_stopped : forall c sg, can_join sg (stopped c) = true.
Proof.
  intros c sg. unfold can_join.
  destruct (stopped_fields c) as (_ & _ & ->). reflexivity.
Qed.

Lemma stop_stopped : forall c sg, stop (stopped c) sg = (Ret tt, stopped c, sg).
Proof.
  intros [pid fin fout ver ferr th n opts] sg.
  unfold stopped; simpl.
  destruct (pid =? kInvalidPid) eqn:E;
    unfold stop, stopLogStderrThread, scope_exit; run_prims; [rewrite E|];
    simpl; rewrite ?add_events_nil; reflexivity.
Qed.

(** ** Trace discipline of the monad *)

Lemma quiet_intro {X A} (m : M X A) :
  (forall x sg, exists evs,
      w_trace (snd (m x sg)) = (w_trace sg ++ evs)%list
      /\ forallb io_event evs = true) -> quiet m.
Proof. exact (fun H => H). Qed.

Lemma quiet_ret {X A} (a : A) : quiet (@ret X A a).
Proof. intros x sg; exists []; simpl; rewrite app_nil_r; auto. Qed.

Lemma quiet_throw {X A} (e : exn) : quiet (@throw X A e).
Proof. intros x sg; exists []; simpl; rewrite app_nil_r; auto. Qed.

Lemma quiet_stuck {X A} (h : halt) : quiet (@stuck X A h).
Proof. intros x sg; exists []; simpl; rewrite app_nil_r; auto. Qed.

Lemma quiet_this {X} : quiet (@this X).
Proof. intros x sg; exists []; simpl; rewrite app_nil_r; auto. Qed.

Lemma quiet_world {X} : quiet (@world X).
Proof. intros x sg; exists []; simpl; rewrite app_nil_r; auto. Qed.

Lemma quiet_update {X} (f : X -> X) : quiet (update f).
Proof. intros x sg; exists []; simpl; rewrite app_nil_r; auto. Qed.

Lemma quiet_lift {X A} (r : exn + A) : quiet (@lift X A r).
Proof. destruct r; [apply quiet_throw | apply quiet_ret]. Qed.

Lemma quiet_emit {X} (e : event) : io_event e = true -> quiet (@emit X e).
Proof. intros He x sg; exists [e]; simpl; rewrite He; auto. Qed.

Lemma quiet_bind {X A B} (m : M X A) (k : A -> M X B) :
  quiet m -> (forall a, quiet (k a)) -> quiet (bind m k).
Proof.
  intros Hm Hk x sg. unfold bind.
  destruct (Hm x sg) as (evs1 & E1 & F1).
  destruct (m x sg) as [[[a|e|h] x1] sg1]; simpl in *.
  - destruct (Hk a x1 sg1) as (evs2 & E2 & F2).
    exists (evs1 ++ evs2)%list. rewrite E2, E1, app_assoc, forallb_app, F1, F2. auto.
  - exists evs1; auto.
  - exists evs1; auto.
Qed.

Lemma quiet_try_catch {X A} (m : M X A) (h : exn -> option (M X A)) :
  quiet m -> (forall e k, h e = Some k -> quiet k) -> quiet (try_catch m h).
Proof.
  intros Hm Hh x sg. unfold try_catch.
  destruct (Hm x sg) as (evs1 & E1 & F1).
  destruct (m x sg) as [[[a|e|hh] x1] sg1]; simpl in *.
  - exists evs1; auto.
  - destruct (h e) as [k|] eqn:Ek.
    + destruct (Hh e k Ek x1 sg1) as (evs2 & E2 & F2).
      exists (evs1 ++ evs2)%list. rewrite E2, E1, app_assoc, forallb_app, F1, F2. auto.
    + exists evs1; auto.
  - exists evs1; auto.
Qed.

Lemma quiet_scope_exit {X A} (h : M X unit) (m : M X A) :
  quiet h -> quiet m -> quiet (scope_exit h m).
Proof.
  intros Hh Hm x sg. unfold scope_exit.
  destruct (Hm x sg) as (evs1 & E1 & F1).
  destruct (m x sg) as [[r x1] sg1]; simpl in *.
  destruct (Hh x1 sg1) as (evs2 & E2 & F2).
  destruct r as [a|e|hh].
  1,2: destruct (h x1 sg1) as [[[u|e2|h2] x2] sg2]; simpl in *;
       exists (evs1 ++ evs2)%list;
       rewrite E2, E1, app_assoc, forallb_app, F1, F2; auto.
  exists evs1; auto.
Qed.

Lemma quiet_when {X} (b : bool) (m : M X unit) : quiet m -> quiet (when b m).
Proof. intros Hm. destruct b; [exact Hm | apply quiet_ret]. Qed.

Lemma quiet_fclose {X} (f : option FILE) : quiet (@fclose X f).
Proof. destruct f; [apply quiet_emit; reflexivity | apply quiet_ret]. Qed.

Lemma quiet_write_in (data : string) : quiet (write_in data).
Proof.
  intros c sg. unfold write_in.
  destruct (m_in c) as [f|]; [|exists []; simpl; rewrite app_nil_r; auto].
  destruct (f_wr f) as [|[|e] rest]; simpl; eexists; split; reflexivity.
Qed.

Lemma quiet_fflush_in : quiet fflush_in.
Proof.
  intros c sg. unfold fflush_in.
  destruct (m_in c) as [f|]; [|exists []; simpl; rewrite app_nil_r; auto].
  destruct (f_wr f) as [|[|e] rest]; simpl; eexists; split; reflexivity.
Qed.

Lemma quiet_sys_kill {X} (pid sig : Z) : quiet (@sys_kill X pid sig).
Proof.
  intros x sg. unfold sys_kill.
  destruct (w_kill sg pid); simpl; eexists; split; reflexivity.
Qed.

Lemma quiet_sys_waitpid {X} (pid : Z) : quiet (@sys_waitpid X pid).
Proof. intros x sg. simpl; eexists; split; reflexivity. Qed.

Lemma quiet_pipes_and_proc_open : quiet pipes_and_proc_open.
Proof.
  intros c sg. unfold pipes_and_proc_open.
  destruct (w_spawns sg); exists []; simpl; rewrite app_nil_r; auto.
Qed.

Lemma quiet_throwErrno {UE} (ext : Externals UE) {X A} (w : string) :
  quiet (@throwErrno UE ext X A w).
Proof.
  unfold throwErrno. apply quiet_bind; [apply quiet_world|].
  intros; apply quiet_throw.
Qed.

Lemma quiet_readline_out {UE} (ext : Externals UE) : quiet (readline_out ext).
Proof.
  intros c sg. unfold readline_out.
  destruct (m_out c) as [f|]; [|exists []; simpl; rewrite app_nil_r; auto].
  destruct (getline (f_rd f)) as [[line rest]|]; simpl; eexists; split; reflexivity.
Qed.

Lemma quiet_fread_out (bytes : Z) : quiet (fread_out bytes).
Proof.
  intros c sg. unfold fread_out.
  destruct (m_out c) as [f|]; [|exists []; simpl; rewrite app_nil_r; auto].
  destruct (fread1 bytes (f_rd f)) as [[n buf] rest]; simpl.
  eexists; split; reflexivity.
Qed.

Create HintDb quiet.
#[export] Hint Resolve quiet_ret quiet_throw quiet_stuck quiet_this quiet_world
  quiet_update quiet_lift quiet_fclose quiet_write_in quiet_fflush_in
  quiet_sys_kill quiet_sys_waitpid quiet_pipes_and_proc_open quiet_throwErrno
  quiet_readline_out quiet_fread_out : quiet.

(** One step of a proof of [quiet]: peel a combinator, or split on the
    scrutinee of a conditional. *)
Ltac quiet_step :=
  match goal with
  | |- quiet (bind _ _) => apply quiet_bind; [|intros ?]
  | |- quiet (try_catch _ _) => apply quiet_try_catch
  | |- quiet (scope_exit _ _) => apply quiet_scope_exit
  | |- quiet (when _ _) => apply quiet_when
  | |- quiet (emit _) => apply quiet_emit; reflexivity
  | |- quiet (if ?b then _ else _) => destruct b
  | |- quiet (match ?x with _ => _ end) => destruct x
  | |- quiet (let '(_, _) := ?p in _) => destruct p
  | |- quiet _ => solve [auto with quiet]
  end.

Ltac quiet_auto := repeat quiet_step.

Lemma quiet_stop : quiet stop.
Proof.
  unfold stop, stopLogStderrThread, join_logStderrThread, stop_close_pipes,
    stop_kill_and_wait.
  quiet_auto.
Qed.
#[export] Hint Resolve quiet_stop : quiet.

Section QuietWorker.

Context {UE : Type}.
Variable ext : Externals UE.
Variable ro : RuntimeOption.

Lemma quiet_readVersion : quiet (readVersion ext).
Proof. unfold readVersion. quiet_auto. Qed.

Lemma quiet_readProgram : quiet (readProgram ext).
Proof. unfold readProgram. quiet_auto. Qed.

Lemma quiet_writeMessage header body : quiet (writeMessage ext header body).
Proof. unfold writeMessage. quiet_auto. Qed.
Hint Resolve quiet_readVersion quiet_readProgram quiet_writeMessage : quiet.

Lemma quiet_writeConfigs : quiet (writeConfigs ext ro).
Proof. unfold writeConfigs. quiet_auto. Qed.

Lemma quiet_writeProgram f md5 code : quiet (writeProgram ext f md5 code).
Proof. unfold writeProgram. quiet_auto. Qed.
Hint Resolve quiet_writeConfigs quiet_writeProgram : quiet.

Lemma quiet_start : quiet (start ext ro).
Proof.
  unfold start, Pipe_detach. quiet_auto.
  - intros x sg; exists []; simpl; rewrite app_nil_r; auto.
  - intros e k Hk. destruct e; inversion Hk; subst. apply quiet_throw.
Qed.
Hint Resolve quiet_start : quiet.

Lemma quiet_compile_catch {A} code prog e (k : M ExternCompiler A) :
  compile_catch code prog e = Some k -> quiet k.
Proof.
  unfold compile_catch. destruct e; intros Hk; inversion Hk; subst; quiet_auto.
Qed.

Lemma quiet_compile_prepare : quiet (compile_prepare ext ro).
Proof. unfold compile_prepare. quiet_auto. Qed.

Lemma quiet_compile_request f md5 code : quiet (compile_request ext f md5 code).
Proof. unfold compile_request, compile_send. quiet_auto. Qed.

Lemma quiet_compile_try f md5 code : quiet (compile_try ext f md5 code).
Proof.
  unfold compile_try, compile_request, compile_send, lift_assemble. quiet_auto.
  all: try (intros; eapply quiet_compile_catch; eassumption).
Qed.

End QuietWorker.

(** ** Operations that leave the subprocess identifier alone *)

Lemma keeps_pid_ret {A} (a : A) : keeps_pid (ret a).
Proof. intros c sg; reflexivity. Qed.

Lemma keeps_pid_throw {A} (e : exn) : keeps_pid (@throw _ A e).
Proof. intros c sg; reflexivity. Qed.

Lemma keeps_pid_stuck {A} (h : halt) : keeps_pid (@stuck _ A h).
Proof. intros c sg; reflexivity. Qed.

Lemma keeps_pid_this : keeps_pid this.
Proof. intros c sg; reflexivity. Qed.

Lemma keeps_pid_world : keeps_pid world.
Proof. intros c sg; reflexivity. Qed.

Lemma keeps_pid_emit (e : event) : keeps_pid (emit e).
Proof. intros c sg; reflexivity. Qed.

Lemma keeps_pid_lift {A} (r : exn + A) : keeps_pid (lift r).
Proof. destruct r; intros c sg; reflexivity. Qed.

Lemma keeps_pid_update (f : ExternCompiler -> ExternCompiler) :
  (forall c, m_pid (f c) = m_pid c) -> keeps_pid (update f).
Proof. intros Hf c sg; apply Hf. Qed.

Lemma keeps_pid_bind {A B} (m : M ExternCompiler A) (k : A -> M ExternCompiler B) :
  keeps_pid m -> (forall a, keeps_pid (k a)) -> keeps_pid (bind m k).
Proof.
  intros Hm Hk c sg. unfold bind. specialize (Hm c sg).
  destruct (m c sg) as [[[a|e|h] c1] sg1]; simpl in *; auto.
  rewrite Hk. assumption.
Qed.

Lemma keeps_pid_try_catch {A} (m : M ExternCompiler A) h :
  keeps_pid m -> (forall e k, h e = Some k -> keeps_pid k) ->
  keeps_pid (try_catch m h).
Proof.
  intros Hm Hh c sg. unfold try_catch. specialize (Hm c sg).
  destruct (m c sg) as [[[a|e|hh] c1] sg1]; simpl in *; auto.
  destruct (h e) as [k|] eqn:Ek; simpl; auto.
  rewrite (Hh e k Ek). assumption.
Qed.

Lemma keeps_pid_write_in data : keeps_pid (write_in data).
Proof.
  intros c sg. unfold write_in.
  destruct (m_in c) as [f|]; [|reflexivity].
  destruct (f_wr f) as [|[|e] rest]; reflexivity.
Qed.

Lemma keeps_pid_fflush_in : keeps_pid fflush_in.
Proof.
  intros c sg. unfold fflush_in.
  destruct (m_in c) as [f|]; [|reflexivity].
  destruct (f_wr f) as [|[|e] rest]; reflexivity.
Qed.

Lemma keeps_pid_throwErrno {UE} (ext : Externals UE) {A} w :
  keeps_pid (@throwErrno UE ext _ A w).
Proof. intros c sg; reflexivity. Qed.

Lemma keeps_pid_readline_out {UE} (ext : Externals UE) : keeps_pid (readline_out ext).
Proof.
  intros c sg. unfold readline_out.
  destruct (m_out c) as [f|]; [|reflexivity].
  destruct (getline (f_rd f)) as [[line rest]|]; reflexivity.
Qed.

Lemma keeps_pid_fread_out bytes : keeps_pid (fread_out bytes).
Proof.
  intros c sg. unfold fread_out.
  destruct (m_out c) as [f|]; [|reflexivity].
  destruct (fread1 bytes (f_rd f)) as [[n buf] rest]; reflexivity.
Qed.

Create HintDb keeps_pid.
#[export] Hint Resolve keeps_pid_ret keeps_pid_throw keeps_pid_stuck keeps_pid_this
  keeps_pid_world keeps_pid_emit keeps_pid_lift keeps_pid_write_in
  keeps_pid_fflush_in keeps_pid_throwErrno keeps_pid_readline_out
  keeps_pid_fread_out : keeps_pid.

Ltac keeps_pid_step :=
  match goal with
  | |- keeps_pid (bind _ _) => apply keeps_pid_bind; [|intros ?]
  | |- keeps_pid (try_catch _ _) => apply keeps_pid_try_catch
  | |- keeps_pid (update _) => apply keeps_pid_update; intros []; reflexivity
  | |- keeps_pid (if ?b then _ else _) => destruct b
  | |- keeps_pid (match ?x with _ => _ end) => destruct x
  | |- keeps_pid (let '(_, _) := ?p in _) => destruct p
  | |- keeps_pid _ => solve [auto with keeps_pid]
  end.

Ltac keeps_pid_auto := repeat keeps_pid_step.

Section KeepsPid.

Context {UE : Type}.
Variable ext : Externals UE.
Variable ro : RuntimeOption.

Lemma keeps_pid_readVersion : keeps_pid (readVersion ext).
Proof. unfold readVersion. keeps_pid_auto. Qed.

Lemma keeps_pid_writeMessage header body : keeps_pid (writeMessage ext header body).
Proof. unfold writeMessage. keeps_pid_auto. Qed.
Hint Resolve keeps_pid_readVersion keeps_pid_writeMessage : keeps_pid.

Lemma keeps_pid_writeConfigs : keeps_pid (writeConfigs ext ro).
Proof. unfold writeConfigs. keeps_pid_auto. Qed.

Lemma keeps_pid_compile_send f md5 code : keeps_pid (compile_send ext f md5 code).
Proof. unfold compile_send, writeProgram. keeps_pid_auto. Qed.

Lemma keeps_pid_readProgram : keeps_pid (readProgram ext).
Proof. unfold readProgram. keeps_pid_auto. Qed.

(** Writing the request and reading the reply leave the identifier alone. *)
Lemma keeps_pid_compile_request f md5 code :
  keeps_pid (compile_request ext f md5 code).
Proof.
  unfold compile_request. apply keeps_pid_bind;
    [apply keeps_pid_compile_send | intros; apply keeps_pid_readProgram].
Qed.

End KeepsPid.

(** ** Operations that need no fuel *)

Lemma fuelled_ret {X A} (a : A) : fuelled (@ret X A a).
Proof. intros x sg; discriminate. Qed.

Lemma fuelled_throw {X A} (e : exn) : fuelled (@throw X A e).
Proof. intros x sg; discriminate. Qed.

Lemma fuelled_stuck {X A} (h : halt) : h <> OutOfFuel -> fuelled (@stuck X A h).
Proof. intros Hh x sg; simpl; congruence. Qed.

Lemma fuelled_this {X} : fuelled (@this X).
Proof. intros x sg; discriminate. Qed.

Lemma fuelled_world {X} : fuelled (@world X).
Proof. intros x sg; discriminate. Qed.

Lemma fuelled_update {X} (f : X -> X) : fuelled (update f).
Proof. intros x sg; discriminate. Qed.

Lemma fuelled_emit {X} (e : event) : fuelled (@emit X e).
Proof. intros x sg; discriminate. Qed.

Lemma fuelled_lift {X A} (r : exn + A) : fuelled (@lift X A r).
Proof. destruct r; intros x sg; discriminate. Qed.

Lemma fuelled_bind {X A B} (m : M X A) (k : A -> M X B) :
  fuelled m -> (forall a, fuelled (k a)) -> fuelled (bind m k).
Proof.
  intros Hm Hk x sg. unfold bind. specialize (Hm x sg).
  destruct (m x sg) as [[[a|e|h] x1] sg1]; simpl in *;
    [apply Hk | discriminate | congruence].
Qed.

Lemma fuelled_try_catch {X A} (m : M X A) (h : exn -> option (M X A)) :
  fuelled m -> (forall e k, h e = Some k -> fuelled k) -> fuelled (try_catch m h).
Proof.
  intros Hm Hh x sg. unfold try_catch. specialize (Hm x sg).
  destruct (m x sg) as [[[a|e|hh] x1] sg1]; simpl in *;
    [discriminate | | exact Hm].
  destruct (h e) as [k|] eqn:Ek; [apply (Hh e k Ek)|discriminate].
Qed.

Lemma fuelled_scope_exit {X A} (h : M X unit) (m : M X A) :
  fuelled h -> fuelled m -> fuelled (scope_exit h m).
Proof.
  intros Hh Hm x sg. unfold scope_exit. specialize (Hm x sg).
  destruct (m x sg) as [[r x1] sg1]; simpl in *.
  specialize (Hh x1 sg1).
  destruct r as [a|e|hh]; simpl in *; [| |exact Hm].
  all: destruct (h x1 sg1) as [[[u|e2|h2] x2] sg2]; simpl in *;
    try discriminate; congruence.
Qed.

Lemma fuelled_when {X} (b : bool) (m : M X unit) : fuelled m -> fuelled (when b m).
Proof. intros Hm. destruct b; [exact Hm | apply fuelled_ret]. Qed.

Lemma fuelled_fclose {X} (f : option FILE) : fuelled (@fclose X f).
Proof. destruct f; [apply fuelled_emit | apply fuelled_ret]. Qed.

Lemma fuelled_write_in (data : string) : fuelled (write_in data).
Proof.
  intros c sg. unfold write_in.
  destruct (m_in c) as [f|]; [|discriminate].
  destruct (f_wr f) as [|[|e] rest]; discriminate.
Qed.

Lemma fuelled_fflush_in : fuelled fflush_in.
Proof.
  intros c sg. unfold fflush_in.
  destruct (m_in c) as [f|]; [|discriminate].
  destruct (f_wr f) as [|[|e] rest]; discriminate.
Qed.

Lemma fuelled_sys_kill {X} (pid sig : Z) : fuelled (@sys_kill X pid sig).
Proof. intros x sg. unfold sys_kill. destruct (w_kill sg pid); discriminate. Qed.

Lemma fuelled_sys_waitpid {X} (pid : Z) : fuelled (@sys_waitpid X pid).
Proof. intros x sg. discriminate. Qed.

Lemma fuelled_pipes_and_proc_open : fuelled pipes_and_proc_open.
Proof.
  intros c sg. unfold pipes_and_proc_open. destruct (w_spawns sg); discriminate.
Qed.

Lemma fuelled_throwErrno {UE} (ext : Externals UE) {X A} (w : string) :
  fuelled (@throwErrno UE ext X A w).
Proof. intros x sg. discriminate. Qed.

Lemma fuelled_readline_out {UE} (ext : Externals UE) : fuelled (readline_out ext).
Proof.
  intros c sg. unfold readline_out.
  destruct (m_out c) as [f|]; [|discriminate].
  destruct (getline (f_rd f)) as [[line rest]|]; discriminate.
Qed.

Lemma fuelled_fread_out (bytes : Z) : fuelled (fread_out bytes).
Proof.
  intros c sg. unfold fread_out.
  destruct (m_out c) as [f|]; [|discriminate].
  destruct (fread1 bytes (f_rd f)) as [[n buf] rest]; discriminate.
Qed.

Create HintDb fuelled.
#[export] Hint Resolve fuelled_ret fuelled_throw fuelled_this fuelled_world
  fuelled_update fuelled_emit fuelled_lift fuelled_fclose fuelled_write_in
  fuelled_fflush_in fuelled_sys_kill fuelled_sys_waitpid
  fuelled_pipes_and_proc_open fuelled_throwErrno fuelled_readline_out
  fuelled_fread_out : fuelled.

Ltac fuelled_step :=
  match goal with
  | |- fuelled (bind _ _) => apply fuelled_bind; [|intros ?]
  | |- fuelled (try_catch _ _) => apply fuelled_try_catch
  | |- fuelled (scope_exit _ _) => apply fuelled_scope_exit
  | |- fuelled (when _ _) => apply fuelled_when
  | |- fuelled (stuck _) => apply fuelled_stuck; discriminate
  | |- fuelled (if ?b then _ else _) => destruct b
  | |- fuelled (match ?x with _ => _ end) => destruct x
  | |- fuelled (let '(_, _) := ?p in _) => destruct p
  | |- fuelled _ => solve [auto with fuelled]
  end.

Ltac fuelled_auto := repeat fuelled_step.

Lemma fuelled_stop : fuelled stop.
Proof.
  unfold stop, stopLogStderrThread, join_logStderrThread, stop_close_pipes,
    stop_kill_and_wait.
  fuelled_auto.
Qed.
#[export] Hint Resolve fuelled_stop : fuelled.

Section FuelledWorker.

Context {UE : Type}.
Variable ext : Externals UE.
Variable ro : RuntimeOption.

Lemma fuelled_readVersion : fuelled (readVersion ext).
Proof. unfold readVersion. fuelled_auto. Qed.

Lemma fuelled_readProgram : fuelled (readProgram ext).
Proof. unfold readProgram. fuelled_auto. Qed.

Lemma fuelled_writeMessage header body : fuelled (writeMessage ext header body).
Proof. unfold writeMessage. fuelled_auto. Qed.
Hint Resolve fuelled_readVersion fuelled_readProgram fuelled_writeMessage : fuelled.

Lemma fuelled_writeConfigs : fuelled (writeConfigs ext ro).
Proof. unfold writeConfigs. fuelled_auto. Qed.

Lemma fuelled_writeProgram f md5 code : fuelled (writeProgram ext f md5 code).
Proof. unfold writeProgram. fuelled_auto. Qed.
Hint Resolve fuelled_writeConfigs fuelled_writeProgram : fuelled.

Lemma fuelled_start : fuelled (start ext ro).
Proof.
  unfold start, Pipe_detach. fuelled_auto.
  - intros x sg; discriminate.
  - intros e k Hk. destruct e; inversion Hk; subst. apply fuelled_throw.
Qed.
Hint Resolve fuelled_start : fuelled.

Lemma fuelled_compile_catch {A} code prog e (k : M ExternCompiler A) :
  compile_catch code prog e = Some k -> fuelled k.
Proof.
  unfold compile_catch. destruct e; intros Hk; inversion Hk; subst; fuelled_auto.
Qed.

Lemma fuelled_compile f md5 code : fuelled (compile ext ro f md5 code).
Proof.
  unfold compile, compile_prepare, compile_try, compile_request, compile_send,
    lift_assemble.
  fuelled_auto.
  all: try (intros; eapply fuelled_compile_catch; eassumption).
Qed.

(** With more fuel than the counter leaves tests, the loop never stops for
    lack of it. *)
Lemma fuelled_retry_loop : forall f md5 code verbose fuel max retry err,
  (Z.to_nat (max - retry) < fuel)%nat ->
  fuelled (retry_loop ext ro f md5 code verbose fuel max retry err).
Proof.
  induction fuel as [|fuel IH]; intros max retry err Hfuel; [lia|].
  cbn [retry_loop]. destruct (retry <? max) eqn:Hlt.
  - apply Z.ltb_lt in Hlt. apply fuelled_try_catch.
    + apply fuelled_bind; [apply fuelled_compile|intros; apply fuelled_ret].
    + intros e k Hk. destruct e; inversion Hk; subst.
      * apply IH. lia.
      * apply fuelled_ret.
  - fuelled_auto.
Qed.

End FuelledWorker.

(** ** Messages of the CompileExceptions

    Every CompileException of the file is thrown by throwErrno, with a
    literal followed by the text of errno: no NUL byte. *)

Lemma c_str_app : forall a b, c_str a = a -> c_str (a ++ b) = a ++ c_str b.
Proof.
  induction a as [|x a IH]; intros b Ha; simpl in *; [reflexivity|].
  destruct (Ascii.eqb x NUL); [discriminate|].
  injection Ha as Ha. rewrite (IH b Ha). reflexivity.
Qed.

Lemma c_str_app_clean : forall a b,
  c_str a = a -> c_str b = b -> c_str (a ++ b) = a ++ b.
Proof. intros a b Ha Hb. rewrite (c_str_app a b Ha), Hb. reflexivity. Qed.

Lemma c_str_idempotent : forall s, c_str (c_str s) = c_str s.
Proof.
  induction s as [|a s IH]; simpl; [reflexivity|].
  destruct (Ascii.eqb a NUL) eqn:E; simpl; [reflexivity|].
  rewrite E, IH. reflexivity.
Qed.

Lemma throwErrno_message {UE} (ext : Externals UE) : forall what e,
  c_str what = what ->
  c_str (what ++ ": " ++ errnoStr ext e) = what ++ ": " ++ errnoStr ext e.
Proof.
  intros what e Hw. apply c_str_app_clean; [exact Hw|].
  apply c_str_app_clean; [reflexivity | apply errnoStr_no_nul].
Qed.

Lemma clean_ret {X A} (a : A) : clean (@ret X A a).
Proof. intros x sg w x' sg'; discriminate. Qed.

Lemma clean_throw {X A} (e : exn) : clean_exn e -> clean (@throw X A e).
Proof. intros He x sg w x' sg' H. inversion H; subst. apply He. reflexivity. Qed.

Lemma clean_stuck {X A} (h : halt) : clean (@stuck X A h).
Proof. intros x sg w x' sg'; discriminate. Qed.

Lemma clean_this {X} : clean (@this X).
Proof. intros x sg w x' sg'; discriminate. Qed.

Lemma clean_world {X} : clean (@world X).
Proof. intros x sg w x' sg'; discriminate. Qed.

Lemma clean_update {X} (f : X -> X) : clean (update f).
Proof. intros x sg w x' sg'; discriminate. Qed.

Lemma clean_emit {X} (e : event) : clean (@emit X e).
Proof. intros x sg w x' sg'; discriminate. Qed.

Lemma clean_lift {X A} (r : exn + A) :
  (forall e, r = inl e -> clean_exn e) -> clean (@lift X A r).
Proof.
  intros Hr. destruct r as [e|a]; [|apply clean_ret].
  apply clean_throw. apply Hr. reflexivity.
Qed.

Lemma clean_bind {X A B} (m : M X A) (k : A -> M X B) :
  clean m -> (forall a, clean (k a)) -> clean (bind m k).
Proof.
  intros Hm Hk x sg w x' sg'. unfold bind.
  destruct (m x sg) as [[[a|e|h] x1] sg1] eqn:E.
  - apply Hk.
  - intros H; inversion H; subst. eapply Hm. exact E.
  - discriminate.
Qed.

Lemma clean_try_catch {X A} (m : M X A) (h : exn -> option (M X A)) :
  clean m -> (forall e k, clean_exn e -> h e = Some k -> clean k) ->
  clean (try_catch m h).
Proof.
  intros Hm Hh x sg w x' sg'. unfold try_catch.
  destruct (m x sg) as [[[a|e|hh] x1] sg1] eqn:E; try discriminate.
  assert (He : clean_exn e).
  { intros w0 ->. eapply Hm. exact E. }
  destruct (h e) as [k|] eqn:Ek.
  - apply (Hh e k He Ek).
  - intros H; inversion H; subst. apply He. reflexivity.
Qed.

Lemma clean_scope_exit {X A} (h : M X unit) (m : M X A) :
  clean m -> clean (scope_exit h m).
Proof.
  intros Hm x sg w x' sg'. unfold scope_exit.
  destruct (m x sg) as [[r x1] sg1] eqn:E.
  destruct r as [a|e|hh]; [| |discriminate].
  - destruct (h x1 sg1) as [[[u|e2|h2] x2] sg2]; discriminate.
  - destruct (h x1 sg1) as [[[u|e2|h2] x2] sg2]; try discriminate.
    intros H; inversion H; subst. eapply Hm. exact E.
Qed.

Lemma clean_when {X} (b : bool) (m : M X unit) : clean m -> clean (when b m).
Proof. intros Hm. destruct b; [exact Hm | apply clean_ret]. Qed.

Lemma clean_fclose {X} (f : option FILE) : clean (@fclose X f).
Proof. destruct f; [apply clean_emit | apply clean_ret]. Qed.

Lemma clean_write_in (data : string) : clean (write_in data).
Proof.
  intros c sg w x' sg'. unfold write_in.
  destruct (m_in c) as [f|]; [|discriminate].
  destruct (f_wr f) as [|[|e] rest]; discriminate.
Qed.

Lemma clean_fflush_in : clean fflush_in.
Proof.
  intros c sg w x' sg'. unfold fflush_in.
  destruct (m_in c) as [f|]; [|discriminate].
  destruct (f_wr f) as [|[|e] rest]; discriminate.
Qed.

Lemma clean_sys_kill {X} (pid sig : Z) : clean (@sys_kill X pid sig).
Proof.
  intros x sg w x' sg'. unfold sys_kill. destruct (w_kill sg pid); discriminate.
Qed.

Lemma clean_sys_waitpid {X} (pid : Z) : clean (@sys_waitpid X pid).
Proof. intros x sg w x' sg'. discriminate. Qed.

Lemma clean_pipes_and_proc_open : clean pipes_and_proc_open.
Proof.
  intros c sg w x' sg'. unfold pipes_and_proc_open.
  destruct (w_spawns sg); discriminate.
Qed.

Lemma clean_throwErrno {UE} (ext : Externals UE) {X A} (what : string) :
  c_str what = what -> clean (@throwErrno UE ext X A what).
Proof.
  intros Hw x sg w x' sg'. unfold throwErrno, bind, world, throw.
  intros H; inversion H; subst. apply throwErrno_message. exact Hw.
Qed.

Lemma clean_readline_out {UE} (ext : Externals UE) : clean (readline_out ext).
Proof.
  intros c sg w x' sg'. unfold readline_out.
  destruct (m_out c) as [f|]; [|discriminate].
  destruct (getline (f_rd f)) as [[line rest]|]; [discriminate|].
  apply clean_throwErrno. reflexivity.
Qed.

Lemma clean_fread_out (bytes : Z) : clean (fread_out bytes).
Proof.
  intros c sg w x' sg'. unfold fread_out.
  destruct (m_out c) as [f|]; [|discriminate].
  destruct (fread1 bytes (f_rd f)) as [[n buf] rest]; discriminate.
Qed.

Create HintDb clean.
#[export] Hint Resolve clean_ret clean_stuck clean_this clean_world
  clean_update clean_emit clean_fclose clean_write_in clean_fflush_in
  clean_sys_kill clean_sys_waitpid clean_pipes_and_proc_open
  clean_readline_out clean_fread_out : clean.

Ltac clean_step :=
  match goal with
  | |- clean (bind _ _) => apply clean_bind; [|intros ?]
  | |- clean (scope_exit _ _) => apply clean_scope_exit
  | |- clean (when _ _) => apply clean_when
  | |- clean (throwErrno _ _) => apply clean_throwErrno; reflexivity
  | |- clean (throw _) => apply clean_throw; intros ? ?; discriminate
  | |- clean (if ?b then _ else _) => destruct b
  | |- clean (match ?x with _ => _ end) => destruct x
  | |- clean (let '(_, _) := ?p in _) => destruct p
  | |- clean _ => solve [auto with clean]
  end.

Ltac clean_auto := repeat clean_step.

Lemma clean_stop : clean stop.
Proof.
  unfold stop, stopLogStderrThread, join_logStderrThread, stop_close_pipes,
    stop_kill_and_wait.
  clean_auto.
Qed.
#[export] Hint Resolve clean_stop : clean.

Section CleanWorker.

Context {UE : Type}.
Variable ext : Externals UE.
Variable ro : RuntimeOption.

(** The accessors of folly::dynamic throw no CompileException. *)
Lemma clean_lift_dynamic {X A} (r : exn + A) :
  (forall w, r <> inl (CompileException w)) -> clean (@lift X A r).
Proof.
  intros Hr. apply clean_lift. intros e -> w ->. destruct (Hr w eq_refl).
Qed.

Lemma no_CompileException_and_then {A B} (r : exn + A) (k : A -> exn + B) :
  (forall w, r <> inl (CompileException w)) ->
  (forall a w, k a <> inl (CompileException w)) ->
  forall w, and_then r k <> inl (CompileException w).
Proof.
  intros Hr Hk w. destruct r as [e|a]; simpl; [|apply Hk].
  intros H. inversion H; subst. exact (Hr w eq_refl).
Qed.

Lemma no_CompileException_parse : forall line w,
  parse ext line <> inl (CompileException w).
Proof. intros line w. unfold parse. destruct (parseJson ext line); discriminate. Qed.

Lemma no_CompileException_getDefault : forall d k dflt w,
  getDefault ext d k dflt <> inl (CompileException w).
Proof.
  intros d k dflt w. unfold getDefault.
  destruct d; try discriminate. destruct (assoc_find k kv); discriminate.
Qed.

Lemma no_CompileException_at_key : forall d k w,
  at_key ext d k <> inl (CompileException w).
Proof.
  intros d k w. unfold at_key.
  destruct d; try discriminate. destruct (assoc_find k kv); discriminate.
Qed.

Lemma no_CompileException_asString : forall d w,
  asString ext d <> inl (CompileException w).
Proof. intros d w. unfold asString. destruct d; discriminate. Qed.

Lemma no_CompileException_asInt : forall d w,
  asInt ext d <> inl (CompileException w).
Proof.
  intros d w. unfold asInt. destruct d; try discriminate.
  destruct (to_int_string ext s); discriminate.
Qed.

Lemma no_CompileException_set_item : forall d k v w,
  set_item ext d k v <> inl (CompileException w).
Proof. intros d k v w. unfold set_item. destruct d; discriminate. Qed.

Lemma clean_readVersion : clean (readVersion ext).
Proof.
  unfold readVersion. clean_auto. apply clean_lift_dynamic.
  unfold version_of_line.
  apply no_CompileException_and_then; [apply no_CompileException_parse|].
  intros d. apply no_CompileException_and_then;
    [apply no_CompileException_at_key | intros; apply no_CompileException_asString].
Qed.

Lemma clean_readProgram : clean (readProgram ext).
Proof.
  unfold readProgram. clean_auto.
  - apply clean_lift_dynamic. apply no_CompileException_parse.
  - apply clean_lift_dynamic. unfold reply_type.
    apply no_CompileException_and_then;
      [apply no_CompileException_getDefault
      | intros; apply no_CompileException_asString].
  - apply clean_lift_dynamic. unfold reply_bytes.
    apply no_CompileException_and_then; [apply no_CompileException_getDefault|].
    intros d. apply no_CompileException_and_then;
      [apply no_CompileException_asInt | intros; discriminate].
  - apply clean_lift_dynamic. unfold reply_error.
    apply no_CompileException_and_then;
      [apply no_CompileException_getDefault
      | intros; apply no_CompileException_asString].
Qed.

Lemma clean_writeMessage header body : clean (writeMessage ext header body).
Proof.
  unfold writeMessage. clean_auto.
  apply clean_lift_dynamic. apply no_CompileException_set_item.
Qed.
Hint Resolve clean_readVersion clean_readProgram clean_writeMessage : clean.

Lemma clean_writeConfigs : clean (writeConfigs ext ro).
Proof. unfold writeConfigs. clean_auto. Qed.

Lemma clean_writeProgram f md5 code : clean (writeProgram ext f md5 code).
Proof. unfold writeProgram. clean_auto. Qed.
Hint Resolve clean_writeConfigs clean_writeProgram : clean.

Lemma clean_start : clean (start ext ro).
Proof.
  unfold start, Pipe_detach. clean_auto.
  - intros x sg w x' sg'; discriminate.
  - apply clean_try_catch; [clean_auto|].
    intros e k _ Hk. destruct e; inversion Hk; subst. clean_auto.
Qed.
Hint Resolve clean_start : clean.

Lemma clean_compile_catch {A} code prog e (k : M ExternCompiler A) :
  clean_exn e -> compile_catch code prog e = Some k -> clean k.
Proof.
  unfold compile_catch. intros He.
  destruct e; intros Hk; inversion Hk; subst; clean_auto.
  apply clean_throw. exact He.
Qed.

(** A CompileException that leaves the worker's compile carries a message
    without NUL byte. *)
Lemma clean_compile f md5 code : clean (compile ext ro f md5 code).
Proof.
  unfold compile, compile_prepare, compile_try, compile_request, compile_send,
    lift_assemble.
  clean_auto.
  all: try (apply clean_try_catch; [clean_auto|];
            intros; eapply clean_compile_catch; eassumption).
Qed.

End CleanWorker.

(** C8 (amended).  stop() returns exactly when its join of the stderr
    thread does: when there is no thread to join, when the worker is a
    detached one, or when the stderr pipe of the subprocess hangs up, as it
    does once the subprocess has exited; this is so whatever kill and
    waitpid answer.  It then leaves the subprocess identifier at the
    sentinel, the stderr handle null and the thread joined.  When the worker
    was running, stdin and stdout are null and the compilation counter is 0
    afterwards; when the identifier was already the sentinel (never started,
    already stopped, detached), stdin, stdout and the counter are left as
    they were.  A second stop() changes neither the worker nor the world.
    When the subprocess lives on with its stderr open, stop() has sent
    SIGTERM, waited, closed stdin and stdout and reset the identifier and
    the counter, and then waits in the join: it does not return. *)
Theorem stop_resets_worker : forall c sg,
  exists c' sg',
    stop c sg = (if can_join sg c then Ret tt else Halt JoinWait, c', sg')
    /\ m_pid c' = kInvalidPid
    /\ (if isRunning c
        then m_in c' = None /\ m_out c' = None /\ m_compilations c' = 0
             /\ exists evs,
                  w_trace sg' = (w_trace sg ++ EvKill (m_pid c) SIGTERM :: evs)%list
                  /\ In (EvWaitpid (m_pid c)) evs
        else m_in c' = m_in c /\ m_out c' = m_out c
             /\ m_compilations c' = m_compilations c
             /\ can_join sg c = true
             /\ exists evs,
                  w_trace sg' = (w_trace sg ++ evs)%list
                  /\ existsb kill_or_wait evs = false)
    /\ (if can_join sg c
        then m_err c' = None /\ m_logStderrThread c' = false
             /\ stop c' sg' = (Ret tt, c', sg')
        else m_err c' = m_err c /\ m_logStderrThread c' = true).
Proof.
  intros c sg.
  destruct (stop_run c sg) as (en & evs & Hrun & Hs & Hr).
  exists (if can_join sg c then stopped c else joining c),
         (set_errno en (add_events evs sg)).
  split; [destruct (can_join sg c); exact Hrun|].
  split.
  { destruct (can_join sg c); [apply stopped_fields|].
    unfold joining. destruct c; reflexivity. }
  split.
  - unfold isRunning. destruct (m_pid c =? kInvalidPid) eqn:Ep; cbn [negb].
    + apply Z.eqb_eq in Ep. destruct (Hs Ep) as (Hj & _ & Hk & _).
      rewrite Hj. unfold stopped. apply Z.eqb_eq in Ep. rewrite Ep.
      destruct c; simpl. repeat split; try reflexivity.
      exists evs. split; [reflexivity|exact Hk].
    + assert (Hstate : forall b : bool,
                 let c' := if b then stopped c else joining c in
                 m_in c' = None /\ m_out c' = None /\ m_compilations c' = 0).
      { intros b. unfold stopped, joining. rewrite Ep.
        destruct b, c; simpl; repeat split. }
      destruct (Hstate (can_join sg c)) as (H1 & H2 & H3).
      repeat (split; [assumption|]).
      apply Z.eqb_neq in Ep. destruct (Hr Ep) as (evs' & -> & _ & Hw).
      exists evs'. split; [reflexivity|exact Hw].
  - destruct (can_join sg c) eqn:Hj.
    + destruct (stopped_fields c) as (_ & He & Ht).
      split; [exact He|]. split; [exact Ht|]. apply stop_stopped.
    + unfold can_join in Hj. apply orb_false_iff in Hj. destruct Hj as (Hj & _).
      apply orb_false_iff in Hj. destruct Hj as (Ht & _).
      apply negb_false_iff in Ht.
      unfold joining. destruct c; simpl in *. split; [reflexivity|exact Ht].
Qed.

(** C8, as stated, fails on a detached worker: after detach_from_process()
    on a running worker with three compilations behind it, stop() leaves
    stdin and stdout open and the counter at 3. *)
Lemma stop_detached_keeps_handles :
  let running := set_m_compilations 3 (Sample.running false EmptyString) in
  let '(_, detached, sg) := detach_from_process running (Sample.world0 []) in
  let '(r, c', _) := stop detached sg in
  r = Ret tt /\ m_pid detached = kInvalidPid
  /\ m_in c' <> None /\ m_out c' <> None /\ m_compilations c' = 3.
Proof.
  vm_compute. repeat split; discriminate.
Qed.

(** A stop() that does not return: the subprocess ignores SIGTERM, the
    bounded wait fails and the stderr pipe stays open, so the stderr thread
    stays in poll() and the join waits for it. *)
Lemma stop_waits_in_join :
  let '(r, c', sg') := stop (Sample.running false EmptyString) (Sample.lingering []) in
  r = Halt JoinWait
  /\ w_trace sg'
     = [EvKill 4242 SIGTERM; EvWaitpid 4242;
        EvLogger "ExternCompiler: unable to wait for compiler process";
        EvFclose 10; EvFclose 11; EvFclose 12]
  /\ m_pid c' = kInvalidPid /\ m_logStderrThread c' = true.
Proof. vm_compute. repeat split. Qed.

(** ** Shutdown in detach mode *)

Lemma destroy_sentinel : forall c sg,
  m_pid c = kInvalidPid ->
  exists evs,
    destroy c sg = (Ret tt, stopped c, add_events evs sg)
    /\ existsb kill_or_wait evs = false.
Proof.
  intros c sg Hpid. unfold destroy, bind.
  destruct (stop_run c sg) as (en & evs & -> & Hs & _).
  destruct (Hs Hpid) as (-> & -> & Hevs & _).
  unfold this. destruct (stopped_fields c) as (_ & _ & ->).
  exists evs. split; [|assumption].
  unfold ret. destruct sg; reflexivity.
Qed.

Lemma shutdown_from_detach : forall n i p sg,
  exists r p' evs,
    shutdown_from true i n p sg = (r, p', add_events evs sg)
    /\ existsb kill_or_wait evs = false.
Proof.
  induction n as [|n IH]; intros i p sg; simpl.
  - exists (Ret tt), p, []. rewrite add_events_nil. split; reflexivity.
  - unfold bind at 1, this at 1. unfold bind at 1, update at 1.
    destruct (load i (m_compilers p)) as [c|].
    + unfold bind at 1, ret at 1. unfold bind at 1, delete at 1.
      destruct (destroy_sentinel (set_m_pid kInvalidPid c) sg eq_refl)
        as (evs1 & -> & H1).
      match goal with
      | |- context [shutdown_from true (S i) n ?p' ?sg'] =>
          destruct (IH (S i) p' sg') as (r & p2 & evs2 & -> & H2)
      end.
      exists r, p2, (evs1 ++ evs2)%list.
      rewrite add_events_app, existsb_app, H1, H2. split; reflexivity.
    + unfold bind at 1, stuck.
      eexists _, _, []. rewrite add_events_nil. split; reflexivity.
Qed.

(** C7.  Whatever the manager holds, detach_after_fork() sends no signal and
    waits for no subprocess: every event it adds to the trace is neither a
    kill nor a waitpid.  (Each worker's identifier is set to the sentinel
    before destroy runs stop(), which then returns before both calls.) *)
Theorem detach_after_fork_no_kill_no_wait : forall m sg,
  exists evs,
    w_trace (snd (detach_after_fork m sg)) = (w_trace sg ++ evs)%list
    /\ existsb kill_or_wait evs = false.
Proof.
  intros m sg. unfold detach_after_fork, CompilerManager_stop.
  unfold bind at 1, this at 1. unfold bind at 1.
  destruct (m_hackc_pool m) as [p|].
  - unfold CompilerPool_shutdown, bind at 1, this at 1.
    destruct (shutdown_from_detach (List.length (m_compilers p)) 0 p sg)
      as (r & p' & evs & -> & Hevs).
    destruct r as [[]|e|h]; simpl.
    + exists (evs ++ [EvClose (m_delegate m)])%list.
      rewrite app_assoc, existsb_app, Hevs. split; reflexivity.
    + exists evs. split; [reflexivity|assumption].
    + exists evs. split; [reflexivity|assumption].
  - simpl. exists [EvClose (m_delegate m)]. split; reflexivity.
Qed.

(** ** The framing of a message *)

Lemma assoc_find_set : forall k v kv, assoc_find k (assoc_set k v kv) = Some v.
Proof.
  induction kv as [|[k' v'] kv IH]; simpl.
  - rewrite String.eqb_refl. reflexivity.
  - destruct (String.eqb k k') eqn:E; simpl; rewrite ?String.eqb_refl, ?E; auto.
Qed.

Lemma strlen_pos : forall a s, (0 <? strlen (String a s)) = true.
Proof. intros. unfold strlen. simpl String.length. apply Z.ltb_lt. lia. Qed.

(** C4 (amended).  For a header object [kv] and a body, writeMessage stores
    the body's length under "bytes", writes the JSON text of that header
    followed by one newline, then the body by itself, then flushes; an empty
    body is not written at all.  When the write of the header line or of the
    body is reported as failed, nothing further is written or flushed and a
    CompileException carrying the errno of the failed write is thrown.  The
    result of the flush is not looked at: when the flush fails, writeMessage
    returns as if it had gone through, and only errno tells. *)
Theorem writeMessage_frame : forall {UE} (ext : Externals UE) c sg kv body f,
  m_in c = Some f ->
  let header := DObject (assoc_set "bytes" (DInt (strlen body)) kv) in
  let line := toJson ext header ++ newline in
  let fd := fileno f in
  let failure e :=
    Throw (CompileException ("error writing message: " ++ errnoStr ext e)) in
  let '(r, _, sg') := writeMessage ext (DObject kv) body c sg in
  getDefault ext header "bytes" DNull = inr (DInt (strlen body))
  /\ match next_write (f_wr f) with
     | WrFail e =>
         r = failure e /\ w_trace sg' = (w_trace sg ++ [EvWriteFail fd])%list
     | WrOk =>
         match body with
         | EmptyString =>
             let flush := next_write (tl (f_wr f)) in
             r = Ret header
             /\ w_trace sg'
                = (w_trace sg ++ [EvWrite fd line; flush_event fd flush])%list
             /\ w_errno sg' = errno_after flush sg
         | _ =>
             match next_write (tl (f_wr f)) with
             | WrFail e =>
                 r = failure e
                 /\ w_trace sg' = (w_trace sg ++ [EvWrite fd line; EvWriteFail fd])%list
             | WrOk =>
                 let flush := next_write (tl (tl (f_wr f))) in
                 r = Ret header
                 /\ w_trace sg'
                    = (w_trace sg
                         ++ [EvWrite fd line; EvWrite fd body; flush_event fd flush])%list
                 /\ w_errno sg' = errno_after flush sg
             end
         end
     end.
Proof.
  intros UE ext [pid fin fout ver ferr th n opts] sg kv body [fd rd wr] Hin.
  simpl in Hin; subst fin. cbv zeta.
  unfold writeMessage, set_item, lift, bind, write_in, fflush_in, throwErrno,
    world, throw, ret; simpl.
  rewrite toJson_no_nul, assoc_find_set.
  destruct wr as [|[|e1] [|[|e2] [|[|e3] wr]]]; simpl.
  all: destruct body as [|a body]; simpl; rewrite ?strlen_pos; simpl.
  all: rewrite <- ?app_assoc; simpl; repeat split; reflexivity.
Qed.

(** C4, as stated, fails when the failure shows at the flush, as it does on
    a pipe whose reader has gone while the data sits in the stdio buffer:
    both writes are reported as done, the flush fails with EPIPE (32), and
    writeMessage returns the header without raising anything. *)
Lemma writeMessage_ignores_flush_failure :
  let stdin := mkFILE 10 EmptyString [WrOk; WrOk; WrFail 32] in
  let c := set_m_in (Some stdin) (Sample.running false EmptyString) in
  let header := DObject [("type", DString "code"); ("bytes", DInt 4)] in
  let '(r, _, sg') :=
    writeMessage Sample.ext (DObject [("type", DString "code")]) "<?hh"
                 c (Sample.world0 []) in
  r = Ret header
  /\ w_trace sg'
     = [EvWrite 10 (Sample.toJson header ++ newline); EvWrite 10 "<?hh";
        EvFlushFail 10]
  /\ w_errno sg' = 32.
Proof. vm_compute. repeat split. Qed.

(** ** Running the worker's operations *)

Section WorkerRuns.

Context {UE : Type}.
Variable ext : Externals UE.
Variable ro : RuntimeOption.

Lemma quiet_trace {X A} (m : M X A) x sg r x' sg' :
  quiet m -> m x sg = (r, x', sg') ->
  exists evs, w_trace sg' = (w_trace sg ++ evs)%list /\ forallb io_event evs = true.
Proof. intros Hq Hm. specialize (Hq x sg). rewrite Hm in Hq. exact Hq. Qed.

Lemma start_ret_running : forall c sg c' sg',
  start ext ro c sg = (Ret tt, c', sg') -> isRunning c' = true.
Proof.
  intros c sg c' sg'. unfold start, isRunning. unfold bind at 1, this at 1.
  destruct (m_pid c =? kInvalidPid) eqn:E; simpl.
  - unfold bind at 1, pipes_and_proc_open.
    destruct (w_spawns sg) as [|[e|pid fin fout ferr] rest].
    + simpl. unfold bind, update, emit, throw; simpl. discriminate.
    + unfold bind, throw; simpl. discriminate.
    + unfold bind at 1, update at 1. unfold bind at 1, emit at 1.
      destruct (pid =? kInvalidPid) eqn:Ep.
      * unfold bind, emit, throw; simpl. discriminate.
      * match goal with
        | |- ?tail ?c1 ?sg1 = _ -> _ =>
            assert (K : keeps_pid tail)
        end.
        { unfold Pipe_detach. keeps_pid_auto.
          all: try apply keeps_pid_writeConfigs.
          all: try apply keeps_pid_readVersion.
          intros e k Hk. destruct e; inversion Hk; subst. apply keeps_pid_throw. }
        intros Hrun.
        match type of Hrun with
        | _ ?c1 ?sg1 = _ => specialize (K c1 sg1)
        end.
        rewrite Hrun in K. simpl in K. rewrite K, Ep. reflexivity.
  - unfold ret. intros H; inversion H; subst. rewrite E. reflexivity.
Qed.

Lemma compile_prepare_ret_running : forall c sg c' sg',
  compile_prepare ext ro c sg = (Ret tt, c', sg') -> isRunning c' = true.
Proof.
  intros c sg c' sg'. unfold compile_prepare. unfold bind at 1, this at 1.
  unfold bind at 1.
  match goal with
  | |- context [when ?b stop] => destruct b; unfold when
  end.
  - destruct (stop_run c sg) as (en & evs & -> & _).
    destruct (can_join sg c); [|discriminate].
    unfold bind at 1, this at 1, when.
    destruct (isRunning (stopped c)) eqn:Er; simpl.
    + unfold ret. intros H; inversion H; subst. assumption.
    + apply start_ret_running.
  - unfold ret at 1. unfold bind at 1, this at 1, when.
    destruct (isRunning c) eqn:Er; simpl.
    + unfold ret. intros H; inversion H; subst. assumption.
    + apply start_ret_running.
Qed.

Lemma readline_out_line : forall c sg f line rest,
  m_out c = Some f -> getline (f_rd f) = Some (line, rest) ->
  readline_out ext c sg
  = (Ret (drop_last line),
     set_m_out (Some (mkFILE (fileno f) rest (f_wr f))) c,
     log_event (EvGetline (fileno f)) sg).
Proof. intros c sg f line rest Hf Hl. unfold readline_out. rewrite Hf, Hl. reflexivity. Qed.

Lemma readline_out_eof : forall c sg f,
  m_out c = Some f -> getline (f_rd f) = None ->
  readline_out ext c sg
  = (Throw (CompileException ("error reading line: " ++ errnoStr ext (w_errno sg))),
     c, log_event (EvGetline (fileno f)) sg).
Proof. intros c sg f Hf Hl. unfold readline_out. rewrite Hf, Hl. reflexivity. Qed.

(** readProgram once the header line has been read and parsed. *)
Lemma readProgram_header : forall c sg f line rest header,
  m_out c = Some f -> getline (f_rd f) = Some (line, rest) ->
  parse ext (drop_last line) = inr header ->
  readProgram ext c sg
  = (type <- lift (reply_type ext header) ;;
     bytes <- lift (reply_bytes ext header) ;;
     if String.eqb type "hhas" then
       if string_max_size ext <? bytes
       then throw (other_exception (string_ctor_what ext bytes))
       else
         r <- fread_out bytes ;;
         let '(n, program) := r in
         if negb (n =? 1) then throwErrno ext "reading input program"
         else ret program
     else if String.eqb type "error" then
       msg <- lift (reply_error ext header) ;;
       throw (runtime_error msg)
     else
       throw (runtime_error ("unknown message type, " ++ type)))
      (set_m_out (Some (mkFILE (fileno f) rest (f_wr f))) c)
      (log_event (EvGetline (fileno f)) sg).
Proof.
  intros c sg f line rest header Hf Hl Hp.
  unfold readProgram. unfold bind at 1. rewrite (readline_out_line _ _ _ _ _ Hf Hl).
  unfold bind at 1. rewrite Hp. reflexivity.
Qed.

Lemma version_of_line_exn : forall line e,
  version_of_line ext line = inl e ->
  is_BadCompiler e = false /\ forall w, e <> CompileException w.
Proof.
  intros line e. unfold version_of_line, and_then, parse, at_key, asString.
  destruct (parseJson ext line) as [w|d];
    [intros H; inversion H; split; [reflexivity|discriminate]|].
  destruct d as [| | | | |kv];
    try (intros H; inversion H; split; [reflexivity|discriminate]).
  destruct (assoc_find "version" kv) as [v|];
    [|intros H; inversion H; split; [reflexivity|discriminate]].
  destruct v; intros H; inversion H; split; try reflexivity; discriminate.
Qed.

(** The retry loop, one attempt at a time. *)

Lemma retry_loop_success : forall f md5 code verbose fuel max retry err c sg ue c' sg',
  retry < max ->
  compile ext ro f md5 code c sg = (Ret ue, c', sg') ->
  retry_loop ext ro f md5 code verbose (S fuel) max retry err c sg
  = (Ret (inl ue), c', sg').
Proof.
  intros * Hlt Hc. simpl. apply Z.ltb_lt in Hlt. rewrite Hlt.
  unfold try_catch, bind. rewrite Hc. reflexivity.
Qed.

Lemma retry_loop_transport : forall f md5 code verbose fuel max retry err c sg w c' sg',
  retry < max ->
  compile ext ro f md5 code c sg = (Throw (CompileException w), c', sg') ->
  retry_loop ext ro f md5 code verbose (S fuel) max retry err c sg
  = retry_loop ext ro f md5 code verbose fuel max (retry + 1)
      (if retry + 1 <? max then err ++ w ++ newline else err ++ w) c' sg'.
Proof.
  intros * Hlt Hc. simpl. apply Z.ltb_lt in Hlt. rewrite Hlt.
  unfold try_catch, bind. rewrite Hc.
  rewrite (clean_compile ext ro f md5 code c sg w c' sg' Hc).
  destruct (retry + 1 <? max); [rewrite append_assoc|]; reflexivity.
Qed.

Lemma retry_loop_runtime_error : forall f md5 code verbose fuel max retry err c sg w c' sg',
  retry < max ->
  compile ext ro f md5 code c sg = (Throw (runtime_error w), c', sg') ->
  retry_loop ext ro f md5 code verbose (S fuel) max retry err c sg
  = (Ret (inr (c_str w)), c', sg').
Proof.
  intros * Hlt Hc. simpl. apply Z.ltb_lt in Hlt. rewrite Hlt.
  unfold try_catch, bind. rewrite Hc. reflexivity.
Qed.

(** compile once its preparation has returned. *)
Lemma compile_prepared : forall f md5 code c sg c1 sg1,
  compile_prepare ext ro c (log_event (EvCompile f) sg) = (Ret tt, c1, sg1) ->
  compile ext ro f md5 code c sg = compile_try ext f md5 code c1 sg1.
Proof.
  intros * Hp. unfold compile. unfold bind at 1, emit at 1.
  unfold bind at 1. rewrite Hp. reflexivity.
Qed.

End WorkerRuns.

(** ** The catch clauses of ExternCompiler::compile *)

Section CompileRuns.

Context {UE : Type}.
Variable ext : Externals UE.
Variable ro : RuntimeOption.

Lemma bind_trace_ext {X A B} (m : M X A) (k : A -> M X B) x sg :
  (forall a, quiet (k a)) ->
  exists evs, w_trace (snd (bind m k x sg)) = (w_trace (snd (m x sg)) ++ evs)%list.
Proof.
  intros Hk. unfold bind.
  destruct (m x sg) as [[[a|e|h] x1] sg1]; simpl.
  - destruct (Hk a x1 sg1) as (evs & E & _). exists evs. exact E.
  - exists []. rewrite app_nil_r. reflexivity.
  - exists []. rewrite app_nil_r. reflexivity.
Qed.

(** The handler of CompileException: stop(), log when verbose, rethrow;
    nothing after stop() when stop() waits in its join. *)
Lemma catch_CompileException : forall A code prog w c sg,
  exists k en evs,
    @compile_catch A code prog (CompileException w) = Some k
    /\ k c sg
       = (if can_join sg c then Throw (CompileException w) else Halt JoinWait,
          if can_join sg c then stopped c else joining c,
          set_errno en (add_events evs sg))
    /\ (isRunning c = true ->
        exists evs', evs = EvKill (m_pid c) SIGTERM :: evs'
                     /\ In (EvWaitpid (m_pid c)) evs').
Proof.
  intros A code prog w c sg. simpl. eexists.
  destruct (stop_run c sg) as (en & evs & Hstop & _ & Hkill).
  assert (Hopt : m_options (stopped c) = m_options c).
  { unfold stopped. destruct (m_pid c =? kInvalidPid); destruct c; reflexivity. }
  assert (Hk : isRunning c = true ->
               exists evs', evs = EvKill (m_pid c) SIGTERM :: evs'
                            /\ In (EvWaitpid (m_pid c)) evs').
  { intros Hr. destruct Hkill as (evs' & -> & _ & Hw).
    - unfold isRunning in Hr. intros E. rewrite E in Hr. discriminate.
    - exists evs'. split; [reflexivity|exact Hw]. }
  destruct (can_join sg c) eqn:Hj.
  - destruct (verboseErrors (m_options c)) eqn:Ev.
    + exists en, (evs ++ [EvLogger ("ExternCompiler Error: " ++ c_str w)])%list.
      split; [reflexivity|]. split.
      * unfold bind at 1. rewrite Hstop. unfold bind at 1, this at 1.
        rewrite Hopt, Ev. unfold when, bind, emit, throw, log_event.
        rewrite set_errno_add_events, add_events_app. reflexivity.
      * intros Hr. destruct (Hk Hr) as (evs' & -> & Hw).
        exists (evs' ++ [EvLogger ("ExternCompiler Error: " ++ c_str w)])%list.
        split; [reflexivity|]. apply in_or_app. left. exact Hw.
    + exists en, evs. split; [reflexivity|]. split; [|exact Hk].
      unfold bind at 1. rewrite Hstop. unfold bind at 1, this at 1.
      rewrite Hopt, Ev. reflexivity.
  - exists en, evs. split; [reflexivity|]. split; [|exact Hk].
    unfold bind at 1. rewrite Hstop. reflexivity.
Qed.

Lemma compile_try_transport : forall f md5 code c sg w c1 sg1,
  compile_request ext f md5 code c sg = (Throw (CompileException w), c1, sg1) ->
  exists en evs,
    compile_try ext f md5 code c sg
    = (if can_join sg1 c1 then Throw (CompileException w) else Halt JoinWait,
       if can_join sg1 c1 then stopped c1 else joining c1,
       set_errno en (add_events evs sg1))
    /\ (isRunning c1 = true ->
        exists evs', evs = EvKill (m_pid c1) SIGTERM :: evs'
                     /\ In (EvWaitpid (m_pid c1)) evs').
Proof.
  intros * Hreq.
  destruct (catch_CompileException string code EmptyString w c1 sg1)
    as (k & en & evs & Hk & Hrun & Hkill).
  exists en, evs. split; [|exact Hkill].
  unfold compile_try. unfold bind at 1, try_catch at 1.
  rewrite Hreq, Hk, Hrun. destruct (can_join sg1 c1); reflexivity.
Qed.

Lemma compile_try_runtime_error : forall f md5 code c sg w c1 sg1,
  compile_request ext f md5 code c sg = (Throw (runtime_error w), c1, sg1) ->
  compile_try ext f md5 code c sg
  = if verboseErrors (m_options c1)
    then (Throw (runtime_error (verbose_message (c_str w) code EmptyString)), c1,
          log_event (EvLogger ("ExternCompiler Generated a bad unit: "
                               ++ verbose_message (c_str w) code EmptyString)) sg1)
    else (Throw (runtime_error w), c1, sg1).
Proof.
  intros * Hreq.
  unfold compile_try. unfold bind at 1, try_catch at 1.
  rewrite Hreq. simpl. unfold bind at 1, this at 1.
  destruct (verboseErrors (m_options c1)); reflexivity.
Qed.

(** A CompileException leaves compile_try only through the handler that
    stops the worker, and only once stop() has returned. *)
Lemma compile_try_transport_inv : forall f md5 code c sg w c' sg',
  compile_try ext f md5 code c sg = (Throw (CompileException w), c', sg') ->
  exists c1 sg1 en evs,
    compile_request ext f md5 code c sg = (Throw (CompileException w), c1, sg1)
    /\ can_join sg1 c1 = true
    /\ c' = stopped c1
    /\ sg' = set_errno en (add_events evs sg1)
    /\ (isRunning c1 = true ->
        exists evs', evs = EvKill (m_pid c1) SIGTERM :: evs'
                     /\ In (EvWaitpid (m_pid c1)) evs').
Proof.
  intros f md5 code c sg w c' sg'.
  unfold compile_try. unfold bind at 1, try_catch at 1.
  destruct (compile_request ext f md5 code c sg) as [[[prog|e|h] c1] sg1].
  - unfold try_catch, lift_assemble.
    destruct (assemble_string ext prog f md5) as [ue|w'|w']; simpl.
    + discriminate.
    + unfold bind, this, emit, throw.
      destruct (verboseErrors (m_options c1)); discriminate.
    + discriminate.
  - destruct e as [w0|w0|w0|w0]; try discriminate.
    + destruct (catch_CompileException string code EmptyString w0 c1 sg1)
        as (k & en & evs & Hk & Hrun & Hkill).
      rewrite Hk, Hrun.
      destruct (can_join sg1 c1) eqn:Hj; [|discriminate].
      intros H; inversion H; subst. exists c1, sg1, en, evs.
      split; [reflexivity|]. split; [exact Hj|].
      split; [reflexivity|]. split; [reflexivity|exact Hkill].
    + simpl. unfold bind, this, emit, throw.
      destruct (verboseErrors (m_options c1)); discriminate.
  - discriminate.
Qed.

Lemma start_spawn_trace : forall c sg,
  m_pid c = kInvalidPid ->
  (forall e rest, w_spawns sg <> PipeError e :: rest) ->
  exists pid evs,
    w_trace (snd (start ext ro c sg))
    = (w_trace sg ++ EvProcOpen (command (m_options c)) pid :: evs)%list.
Proof.
  intros c sg Hpid Hpipe. unfold start. unfold bind at 1, this at 1.
  rewrite Hpid, Z.eqb_refl. change (negb true) with false. cbv iota.
  assert (Hsp : exists pid fin fout ferr sg1,
             pipes_and_proc_open c sg = (Ret (ProcOpen pid fin fout ferr), c, sg1)
             /\ w_trace sg1 = w_trace sg).
  { unfold pipes_and_proc_open. destruct (w_spawns sg) as [|[e|pid fin fout ferr] rest] eqn:E.
    - do 5 eexists; split; reflexivity.
    - exfalso. eapply Hpipe. reflexivity.
    - do 5 eexists; split; reflexivity. }
  destruct Hsp as (pid & fin & fout & ferr & sg1 & Hsp & Htr).
  unfold bind at 1. cbv beta. rewrite Hsp.
  unfold bind at 1, update at 1. unfold bind at 1, emit at 1.
  match goal with
  | |- context [snd (?rest ?c1 ?sg2)] =>
      assert (Q : quiet rest);
        [| destruct (Q c1 sg2) as (evs & E & _); exists pid, evs; rewrite E ]
  end.
  - destruct (pid =? kInvalidPid).
    + quiet_auto.
    + pose proof (quiet_start ext ro) as Qs. unfold Pipe_detach. quiet_auto.
      all: try apply quiet_writeConfigs.
      all: try apply quiet_readVersion.
      intros e k Hk. destruct e; inversion Hk; subst. apply quiet_throw.
  - unfold log_event, add_events; simpl. rewrite Htr, <- app_assoc. reflexivity.
Qed.

Lemma compile_on_stopped_spawns : forall c sg f md5 code,
  (forall e rest, w_spawns sg <> PipeError e :: rest) ->
  exists pid evs,
    w_trace (snd (compile ext ro f md5 code (stopped c) sg))
    = (w_trace sg ++ EvCompile f :: EvProcOpen (command (m_options (stopped c))) pid
                 :: evs)%list.
Proof.
  intros c sg f md5 code Hpipe.
  unfold compile. unfold bind at 1, emit at 1.
  destruct (bind_trace_ext (compile_prepare ext ro) (fun _ => compile_try ext f md5 code)
              (stopped c) (log_event (EvCompile f) sg)) as (evs2 & E2).
  { intros _. apply quiet_compile_try. }
  rewrite E2. clear E2.
  assert (Hprep : compile_prepare ext ro (stopped c) (log_event (EvCompile f) sg)
                  = start ext ro (stopped c) (log_event (EvCompile f) sg)).
  { unfold compile_prepare. unfold bind at 1, this at 1. unfold bind at 1.
    assert (Hnr : isRunning (stopped c) = false).
    { unfold isRunning. destruct (stopped_fields c) as (-> & _). reflexivity. }
    match goal with
    | |- context [when ?b stop] => destruct b; unfold when
    end.
    - rewrite stop_stopped. unfold bind at 1, this at 1. rewrite Hnr. reflexivity.
    - unfold ret at 1. unfold bind at 1, this at 1. rewrite Hnr. reflexivity. }
  rewrite Hprep.
  destruct (start_spawn_trace (stopped c) (log_event (EvCompile f) sg))
    as (pid & evs1 & E1).
  - destruct (stopped_fields c) as (-> & _). reflexivity.
  - exact Hpipe.
  - exists pid, (evs1 ++ evs2)%list. rewrite E1.
    unfold log_event, add_events; simpl. rewrite <- !app_assoc. reflexivity.
Qed.

(** start() on a worker without subprocess and without thread, when the
    spawn gives a subprocess and the three pipes: proc_open, then the stderr
    thread is created. *)
Lemma start_spawn_thread : forall c sg pid fin fout ferr spawns,
  m_pid c = kInvalidPid ->
  m_logStderrThread c = false ->
  w_spawns sg = ProcOpen pid (Some fin) (Some fout) (Some ferr) :: spawns ->
  pid <> kInvalidPid ->
  exists evs,
    w_trace (snd (start ext ro c sg))
    = (w_trace sg
         ++ EvProcOpen (command (m_options c)) pid :: EvThreadStart :: evs)%list.
Proof.
  intros c sg pid fin fout ferr spawns Hpid Hth Hsp Hne.
  unfold start. unfold bind at 1, this at 1.
  rewrite Hpid, Z.eqb_refl. change (negb true) with false. cbv iota.
  unfold bind at 1, pipes_and_proc_open. cbv beta. rewrite Hsp.
  unfold bind at 1, update at 1. unfold bind at 1, emit at 1.
  apply Z.eqb_neq in Hne. rewrite Hne. rewrite Hth.
  unfold Pipe_detach.
  repeat (unfold bind at 1; first [unfold ret at 1 | unfold update at 1 | unfold emit at 1]).
  match goal with
  | |- context [try_catch ?m ?h ?c1 ?sg1] =>
      assert (Q1 : quiet (try_catch m h));
        [| destruct (Q1 c1 sg1) as (evs1 & E1 & _);
           destruct (try_catch m h c1 sg1) as [[[u|e|hh] x1] s1] ]
  end.
  - apply quiet_try_catch.
    + apply quiet_bind; [apply quiet_readVersion|].
      intros v. apply (quiet_update (set_m_version v)).
    + intros e k Hk. destruct e; inversion Hk; subst. apply quiet_throw.
  - match goal with
    | |- context [snd (?rest x1 s1)] => assert (Q2 : quiet rest)
    end.
    { quiet_auto. apply quiet_writeConfigs. }
    destruct (Q2 x1 s1) as (evs2 & E2 & _).
    exists (evs1 ++ evs2)%list. rewrite E2. simpl in E1. rewrite E1.
    unfold log_event, add_events, set_spawns; simpl.
    rewrite <- !app_assoc. reflexivity.
  - exists evs1. simpl in *. rewrite E1.
    unfold log_event, add_events, set_spawns; simpl.
    rewrite <- !app_assoc. reflexivity.
  - exists evs1. simpl in *. rewrite E1.
    unfold log_event, add_events, set_spawns; simpl.
    rewrite <- !app_assoc. reflexivity.
Qed.

Lemma compile_prepare_on_stopped : forall c sg,
  compile_prepare ext ro (stopped c) sg = start ext ro (stopped c) sg.
Proof.
  intros c sg.
  unfold compile_prepare. unfold bind at 1, this at 1. unfold bind at 1.
  assert (Hnr : isRunning (stopped c) = false).
  { unfold isRunning. destruct (stopped_fields c) as (-> & _). reflexivity. }
  match goal with
  | |- context [when ?b stop] => destruct b; unfold when
  end.
  - rewrite stop_stopped. unfold bind at 1, this at 1. rewrite Hnr. reflexivity.
  - unfold ret at 1. unfold bind at 1, this at 1. rewrite Hnr. reflexivity.
Qed.

(** The next compile on a stopped worker, when the spawn gives a subprocess
    and the three pipes: the call gets as far as the new stderr thread. *)
Lemma compile_on_stopped_thread : forall c sg f md5 code pid fin fout ferr spawns,
  w_spawns sg = ProcOpen pid (Some fin) (Some fout) (Some ferr) :: spawns ->
  pid <> kInvalidPid ->
  exists evs,
    w_trace (snd (compile ext ro f md5 code (stopped c) sg))
    = (w_trace sg ++ EvCompile f
         :: EvProcOpen (command (m_options (stopped c))) pid
         :: EvThreadStart :: evs)%list.
Proof.
  intros c sg f md5 code pid fin fout ferr spawns Hsp Hne.
  unfold compile. unfold bind at 1, emit at 1.
  destruct (bind_trace_ext (compile_prepare ext ro) (fun _ => compile_try ext f md5 code)
              (stopped c) (log_event (EvCompile f) sg)) as (evs2 & E2).
  { intros _. apply quiet_compile_try. }
  rewrite E2. clear E2. rewrite compile_prepare_on_stopped.
  destruct (stopped_fields c) as (Hp & _ & Ht).
  destruct (start_spawn_thread (stopped c) (log_event (EvCompile f) sg)
              pid fin fout ferr spawns Hp Ht Hsp Hne) as (evs1 & E1).
  exists (evs1 ++ evs2)%list. rewrite E1.
  unfold log_event, add_events; simpl. rewrite <- !app_assoc. reflexivity.
Qed.

End CompileRuns.

(** ** Replies of the subprocess *)

(** C10 (amended).  When the reply header read from stdout has type "error",
    readProgram reads the header line and nothing else: the stream keeps
    every byte after that line, whatever the header says under "bytes".
    When moreover the "bytes" field is absent or converts to an integer, the
    std::runtime_error thrown carries the header's "error" string, and
    exactly "[no 'error' field]" when the header has no such field. *)
Theorem readProgram_error_reply :
  forall {UE} (ext : Externals UE) c sg f line rest header,
  m_out c = Some f ->
  getline (f_rd f) = Some (line, rest) ->
  parse ext (drop_last line) = inr header ->
  reply_type ext header = inr "error" ->
  let '(r, c', sg') := readProgram ext c sg in
  m_out c' = Some (mkFILE (fileno f) rest (f_wr f))
  /\ w_trace sg' = (w_trace sg ++ [EvGetline (fileno f)])%list
  /\ (forall n msg,
        reply_bytes ext header = inr n ->
        reply_error ext header = inr msg ->
        r = Throw (runtime_error msg))
  /\ (forall n kv,
        reply_bytes ext header = inr n ->
        header = DObject kv -> assoc_find "error" kv = None ->
        r = Throw (runtime_error "[no 'error' field]")).
Proof.
  intros UE ext c sg f line rest header Hf Hl Hp Ht.
  rewrite (readProgram_header ext c sg f line rest header Hf Hl Hp).
  unfold bind at 1. rewrite Ht. unfold lift at 1, ret at 1.
  unfold bind at 1.
  destruct (reply_bytes ext header) as [e|n] eqn:Hb; unfold lift at 1.
  - unfold throw. repeat split; try (destruct c; reflexivity); intros; discriminate.
  - unfold ret at 1. simpl String.eqb. cbv iota. unfold bind.
    destruct (reply_error ext header) as [e|msg] eqn:He; unfold lift, throw, ret.
    + repeat split; try (destruct c; reflexivity).
      * intros; discriminate.
      * intros n0 kv _ -> Hnone. revert He.
        unfold reply_error, and_then, getDefault. rewrite Hnone.
        simpl. discriminate.
    + repeat split; try (destruct c; reflexivity).
      * intros n0 msg0 _ H; inversion H; reflexivity.
      * intros n0 kv _ -> Hnone. revert He.
        unfold reply_error, and_then, getDefault. rewrite Hnone.
        simpl. intros H; inversion H; reflexivity.
Qed.

Lemma readProgram_error_reply_witness :
  let c := Sample.running false
             (Sample.frame (Sample.error_no_field 5) "12345") in
  let '(r, c', sg') := readProgram Sample.ext c (Sample.world0 []) in
  m_out c' = Some (mkFILE 11 "12345" [])
  /\ r = Throw (runtime_error "[no 'error' field]").
Proof.
  pose (c := Sample.running false
               (Sample.frame (Sample.error_no_field 5) "12345")).
  pose (f := mkFILE 11 (Sample.frame (Sample.error_no_field 5) "12345") []).
  generalize (readProgram_error_reply Sample.ext c (Sample.world0 []) f
                (Sample.toJson (Sample.error_no_field 5) ++ newline) "12345"
                (Sample.error_no_field 5) eq_refl eq_refl eq_refl eq_refl).
  cbv zeta.
  destruct (readProgram Sample.ext _ _) as [[r c'] sg'].
  intros (H1 & _ & _ & H4). split; [exact H1|].
  exact (H4 5 _ eq_refl eq_refl eq_refl).
Defined.

(** C10, as stated, fails on a frame of type "error" without an "error"
    field whose "bytes" field is not a number: the conversion of "bytes"
    throws first, and the message is the conversion's. *)
Lemma readProgram_error_reply_bad_bytes :
  let c := Sample.running false (Sample.frame Sample.error_bad_bytes EmptyString) in
  reply_type Sample.ext Sample.error_bad_bytes = inr "error"
  /\ getDefault Sample.ext Sample.error_bad_bytes "error" DNull = inr DNull
  /\ fst (fst (readProgram Sample.ext c (Sample.world0 [])))
     = Throw (runtime_error "TypeError")
  /\ fst (fst (readProgram Sample.ext c (Sample.world0 [])))
     <> Throw (runtime_error "[no 'error' field]").
Proof.
  vm_compute. repeat split; discriminate.
Qed.

Section Replies.

Context {UE : Type}.
Variable ext : Externals UE.
Variable ro : RuntimeOption.

(** readProgram on a reply of type "hhas" announcing zero bytes. *)
Lemma readProgram_hhas_zero : forall c sg f line rest header,
  m_out c = Some f -> getline (f_rd f) = Some (line, rest) ->
  parse ext (drop_last line) = inr header ->
  reply_type ext header = inr "hhas" ->
  reply_bytes ext header = inr 0 ->
  readProgram ext c sg
  = (Throw (CompileException
              ("reading input program: " ++ errnoStr ext (w_errno sg))),
     set_m_out (Some (mkFILE (fileno f) rest (f_wr f))) c,
     add_events [EvGetline (fileno f); EvFread (fileno f) 0] sg).
Proof.
  intros c sg f line rest header Hf Hl Hp Ht Hb.
  rewrite (readProgram_header ext c sg f line rest header Hf Hl Hp).
  unfold bind at 1. rewrite Ht. unfold lift at 1, ret at 1.
  unfold bind at 1. rewrite Hb. unfold lift at 1, ret at 1.
  simpl String.eqb. cbv iota.
  assert (Hmax : (string_max_size ext <? 0) = false).
  { pose proof (string_max_size_nonneg ext) as H.
    apply Z.leb_le in H. apply Z.ltb_ge. exact H. }
  rewrite Hmax. unfold bind, fread_out, fread1. simpl.
  unfold throwErrno, bind, world, throw, log_event.
  rewrite add_events_app. destruct c; reflexivity.
Qed.

End Replies.

(** C9.  A compile call whose preparation and request went through and
    whose reply header has type "hhas" and 0 under "bytes" never yields an
    artifact: readProgram throws the CompileException of a failed fread, the
    worker is stopped (SIGTERM is sent to its subprocess and its identifier
    is the sentinel afterwards), and, stop() having returned, the exception
    leaves compile and the retry loop counts the attempt: it goes on from
    [retry + 1] with the message accumulated.  (stop() returns when its join
    of the stderr thread does; otherwise the call stays in stop().) *)
Theorem hhas_zero_bytes_is_transport_error :
  forall {UE} (ext : Externals UE) ro filename md5 code
         c0 sg0 c1 sg1 c2 sg2 f line rest header,
  compile_prepare ext ro c0 (log_event (EvCompile filename) sg0) = (Ret tt, c1, sg1) ->
  compile_send ext filename md5 code c1 sg1 = (Ret tt, c2, sg2) ->
  m_out c2 = Some f ->
  getline (f_rd f) = Some (line, rest) ->
  parse ext (drop_last line) = inr header ->
  reply_type ext header = inr "hhas" ->
  reply_bytes ext header = inr 0 ->
  let failure := "reading input program: " ++ errnoStr ext (w_errno sg2) in
  (exists c' sg',
      readProgram ext c2 sg2 = (Throw (CompileException failure), c', sg'))
  /\ exists c' sg',
      compile ext ro filename md5 code c0 sg0
      = (if can_join sg2 c2 then Throw (CompileException failure)
         else Halt JoinWait, c', sg')
      /\ m_pid c' = kInvalidPid
      /\ In (EvKill (m_pid c2) SIGTERM) (w_trace sg')
      /\ (can_join sg2 c2 = true ->
          forall verbose fuel max retry err,
           retry < max ->
           retry_loop ext ro filename md5 code verbose (S fuel) max retry err c0 sg0
           = retry_loop ext ro filename md5 code verbose fuel max (retry + 1)
               (if retry + 1 <? max then err ++ failure ++ newline
                else err ++ failure) c' sg').
Proof.
  intros UE ext ro filename md5 code c0 sg0 c1 sg1 c2 sg2 f line rest header
         Hprep Hsend Hf Hl Hp Ht Hb failure.
  pose proof (readProgram_hhas_zero ext c2 sg2 f line rest header Hf Hl Hp Ht Hb)
    as Hread.
  fold failure in Hread.
  split; [eauto|].
  set (c2' := set_m_out (Some (mkFILE (fileno f) rest (f_wr f))) c2) in *.
  set (sg2' := add_events [EvGetline (fileno f); EvFread (fileno f) 0] sg2) in *.
  assert (Hreq : compile_request ext filename md5 code c1 sg1
                 = (Throw (CompileException failure), c2', sg2')).
  { unfold compile_request. unfold bind at 1. rewrite Hsend. exact Hread. }
  destruct (compile_try_transport ext filename md5 code c1 sg1 _ _ _ Hreq)
    as (en & evs & Htry & Hkill).
  change (can_join sg2' c2') with (can_join sg2 c2) in Htry.
  assert (Hcompile : compile ext ro filename md5 code c0 sg0
                     = (if can_join sg2 c2 then Throw (CompileException failure)
                        else Halt JoinWait,
                        if can_join sg2 c2 then stopped c2' else joining c2',
                        set_errno en (add_events evs sg2'))).
  { rewrite (compile_prepared ext ro filename md5 code c0 sg0 c1 sg1 Hprep).
    exact Htry. }
  do 2 eexists. split; [exact Hcompile|].
  split.
  { destruct (can_join sg2 c2); [apply stopped_fields|].
    unfold joining. destruct c2'; reflexivity. }
  split.
  - assert (Hrun : isRunning c2 = true).
    { pose proof (compile_prepare_ret_running ext ro _ _ _ _ Hprep) as H1.
      pose proof (keeps_pid_compile_send ext filename md5 code c1 sg1) as K.
      rewrite Hsend in K. simpl in K. unfold isRunning in *. rewrite K. exact H1. }
    destruct Hkill as (evs' & -> & _); [destruct c2; exact Hrun|].
    unfold sg2', set_errno, add_events. cbn [w_trace].
    apply in_or_app. right. left. reflexivity.
  - intros Hj verbose fuel max retry err Hlt.
    rewrite Hj in Hcompile. rewrite Hj.
    apply retry_loop_transport; assumption.
Qed.

Lemma hhas_zero_bytes_witness :
  let c0 := Sample.running false (Sample.frame (Sample.hhas 0) EmptyString) in
  exists c' sg',
    compile Sample.ext Sample.ro "a.hh" "d41d8cd9" "<?hh"
            c0 (Sample.world0 [])
    = (Throw (CompileException "reading input program: errno 0"), c', sg')
    /\ m_pid c' = kInvalidPid
    /\ In (EvKill 4242 SIGTERM) (w_trace sg').
Proof.
  intros c0.
  pose (sg0 := Sample.world0 []).
  pose (p1 := compile_prepare Sample.ext Sample.ro c0 (log_event (EvCompile "a.hh") sg0)).
  pose (p2 := compile_send Sample.ext "a.hh" "d41d8cd9" "<?hh" (snd (fst p1)) (snd p1)).
  destruct (hhas_zero_bytes_is_transport_error Sample.ext Sample.ro
              "a.hh" "d41d8cd9" "<?hh" c0 sg0
              (snd (fst p1)) (snd p1) (snd (fst p2)) (snd p2)
              (mkFILE 11 (Sample.frame (Sample.hhas 0) EmptyString) [])
              (Sample.toJson (Sample.hhas 0) ++ newline) EmptyString
              (Sample.hhas 0))
    as (_ & c' & sg' & H1 & H2 & H3 & _); try (vm_compute; reflexivity).
  change (can_join _ _) with true in H1. cbv iota in H1.
  exists c', sg'. split; [exact H1|]. split; [exact H2|exact H3].
Defined.

(** C2 (amended).  Take a compile call whose preparation and request went
    through and whose reply header has a "bytes" field that is absent or
    converts to an integer.  If the header's type is "error" and [msg] is its
    "error" string, or if its type is none of "hhas" and "error" and [msg] is
    "unknown message type, " followed by the type, then the worker's compile
    throws a std::runtime_error: the one built from [msg] when verbose errors
    is off, and when it is on one built from what() of that exception, which
    is [msg] up to its first NUL byte, followed by the source and the (empty)
    returned text.  The worker is left running.  The retry loop returns
    what() of the exception thrown, its message up to the first NUL byte, at
    once and in the very state that attempt left: no later attempt is
    made. *)
Theorem compile_error_reply_not_retried :
  forall {UE} (ext : Externals UE) ro filename md5 code
         c0 sg0 c1 sg1 c2 sg2 f line rest header n msg,
  compile_prepare ext ro c0 (log_event (EvCompile filename) sg0) = (Ret tt, c1, sg1) ->
  compile_send ext filename md5 code c1 sg1 = (Ret tt, c2, sg2) ->
  m_out c2 = Some f ->
  getline (f_rd f) = Some (line, rest) ->
  parse ext (drop_last line) = inr header ->
  reply_bytes ext header = inr n ->
  (reply_type ext header = inr "error" /\ reply_error ext header = inr msg)
  \/ (exists type,
        reply_type ext header = inr type
        /\ String.eqb type "hhas" = false /\ String.eqb type "error" = false
        /\ msg = "unknown message type, " ++ type) ->
  let thrown :=
    if verboseErrors (m_options c2)
    then verbose_message (c_str msg) code EmptyString else msg in
  exists c' sg',
    compile ext ro filename md5 code c0 sg0
    = (Throw (runtime_error thrown), c', sg')
    /\ isRunning c' = true
    /\ forall verbose fuel max retry err,
         retry < max ->
         retry_loop ext ro filename md5 code verbose (S fuel) max retry err c0 sg0
         = (Ret (inr (c_str thrown)), c', sg').
Proof.
  intros UE ext ro filename md5 code c0 sg0 c1 sg1 c2 sg2 f line rest header n msg
         Hprep Hsend Hf Hl Hp Hb Hcase thrown.
  pose (c3 := set_m_out (Some (mkFILE (fileno f) rest (f_wr f))) c2).
  assert (Hread : readProgram ext c2 sg2
                  = (Throw (runtime_error msg), c3,
                     log_event (EvGetline (fileno f)) sg2)).
  { rewrite (readProgram_header ext c2 sg2 f line rest header Hf Hl Hp).
    destruct Hcase as [(Ht & He) | (type & Ht & Hh & Hr & ->)].
    - unfold bind at 1. rewrite Ht. unfold lift at 1, ret at 1.
      unfold bind at 1. rewrite Hb. unfold lift at 1, ret at 1.
      simpl String.eqb. cbv iota.
      unfold bind. rewrite He. reflexivity.
    - unfold bind at 1. rewrite Ht. unfold lift at 1, ret at 1.
      unfold bind at 1. rewrite Hb. unfold lift at 1, ret at 1.
      rewrite Hh, Hr. reflexivity. }
  assert (Hreq : compile_request ext filename md5 code c1 sg1
                 = (Throw (runtime_error msg), c3,
                    log_event (EvGetline (fileno f)) sg2)).
  { unfold compile_request. unfold bind at 1. rewrite Hsend. exact Hread. }
  pose proof (compile_try_runtime_error ext filename md5 code c1 sg1 _ _ _ Hreq)
    as Htry.
  rewrite <- (compile_prepared ext ro filename md5 code c0 sg0 c1 sg1 Hprep) in Htry.
  assert (Hopt : m_options c3 = m_options c2) by (destruct c2; reflexivity).
  assert (Hrun : isRunning c3 = true).
  { pose proof (compile_prepare_ret_running ext ro _ _ _ _ Hprep) as H1.
    pose proof (keeps_pid_compile_send ext filename md5 code c1 sg1) as K.
    rewrite Hsend in K. simpl in K. unfold isRunning in *.
    replace (m_pid c3) with (m_pid c2) by (destruct c2; reflexivity).
    rewrite K. exact H1. }
  rewrite Hopt in Htry. subst thrown.
  destruct (verboseErrors (m_options c2)).
  - do 2 eexists. split; [exact Htry|]. split; [exact Hrun|].
    intros verbose fuel max retry err Hlt.
    eapply retry_loop_runtime_error; eassumption.
  - do 2 eexists. split; [exact Htry|]. split; [exact Hrun|].
    intros verbose fuel max retry err Hlt.
    eapply retry_loop_runtime_error; eassumption.
Qed.

Lemma compile_error_reply_witness :
  let c0 := Sample.running true (Sample.frame Sample.banana EmptyString) in
  exists c' sg',
    compile Sample.ext Sample.ro "a.hh" "d41d8cd9" "<?hh" c0 (Sample.world0 [])
    = (Throw (runtime_error
                (verbose_message "unknown message type, banana" "<?hh" EmptyString)),
       c', sg')
    /\ isRunning c' = true.
Proof.
  intros c0.
  pose (sg0 := Sample.world0 []).
  pose (p1 := compile_prepare Sample.ext Sample.ro c0 (log_event (EvCompile "a.hh") sg0)).
  pose (p2 := compile_send Sample.ext "a.hh" "d41d8cd9" "<?hh" (snd (fst p1)) (snd p1)).
  destruct (compile_error_reply_not_retried Sample.ext Sample.ro
              "a.hh" "d41d8cd9" "<?hh" c0 sg0
              (snd (fst p1)) (snd p1) (snd (fst p2)) (snd p2)
              (mkFILE 11 (Sample.frame Sample.banana EmptyString) [])
              (Sample.toJson Sample.banana ++ newline) EmptyString
              Sample.banana 0 "unknown message type, banana")
    as (c' & sg' & H1 & H2 & _); try (vm_compute; reflexivity).
  - right. exists "banana". repeat split; vm_compute; reflexivity.
  - exists c', sg'. split; [exact H1|exact H2].
Defined.

(** C2, as stated, fails when verbose errors is on: on a reply of type
    "banana" the worker's compile throws, and the retry loop returns, a
    message that is not "unknown message type, banana" but that text followed
    by the source and the returned text. *)
Lemma compile_error_reply_verbose :
  let c0 := Sample.running true (Sample.frame Sample.banana EmptyString) in
  let r := fst (fst (compile Sample.ext Sample.ro "a.hh" "d41d8cd9" "<?hh"
                       c0 (Sample.world0 []))) in
  let r' := fst (fst (retry_loop Sample.ext Sample.ro "a.hh" "d41d8cd9" "<?hh" true
                        4 3 0 EmptyString c0 (Sample.world0 []))) in
  r <> Throw (runtime_error "unknown message type, banana")
  /\ r = Throw (runtime_error
                  (verbose_message "unknown message type, banana" "<?hh" EmptyString))
  /\ r' = Ret (inr (verbose_message "unknown message type, banana" "<?hh" EmptyString)).
Proof.
  vm_compute. repeat split; discriminate.
Qed.

(** ** The version handshake *)

(** C6 (amended).  In a spawn sequence whose subprocess was started and whose
    three pipes were opened, a failure to read the first stdout line leaves
    start() as BadCompilerException; a first line that does not parse as
    JSON, or whose "version" field is missing or is not convertible to a
    string, leaves start() as the exception the parser or the accessor
    raised, which is never a BadCompilerException. *)
Theorem start_version_handshake :
  forall {UE} (ext : Externals UE) ro c sg pid f_in f_out f_err spawns,
  m_pid c = kInvalidPid ->
  m_logStderrThread c = false ->
  w_spawns sg = ProcOpen pid (Some f_in) (Some f_out) (Some f_err) :: spawns ->
  pid <> kInvalidPid ->
  let r := fst (fst (start ext ro c sg)) in
  (getline (f_rd f_out) = None ->
   r = Throw (BadCompilerException
                "Couldn't read version message from external compiler"))
  /\ (forall line rest e,
        getline (f_rd f_out) = Some (line, rest) ->
        version_of_line ext (drop_last line) = inl e ->
        r = Throw e /\ is_BadCompiler e = false).
Proof.
  intros UE ext ro c sg pid f_in f_out f_err spawns Hpid Hth Hsp Hne r.
  assert (Hstart : forall X,
    (forall c1 sg1, m_out c1 = Some f_out ->
       fst (fst (try_catch
                   (v <- readVersion ext ;; update (set_m_version v))
                   (fun e =>
                      match e with
                      | CompileException _ =>
                          Some (throw (BadCompilerException
                            "Couldn't read version message from external compiler"))
                      | _ => None
                      end) c1 sg1)) = Throw X) ->
    r = Throw X).
  { intros X HX. subst r. unfold start. unfold bind at 1, this at 1.
    rewrite Hpid, Z.eqb_refl. change (negb true) with false. cbv iota.
    unfold bind at 1, pipes_and_proc_open. cbv beta. rewrite Hsp.
    unfold bind at 1, update at 1. unfold bind at 1, emit at 1.
    apply Z.eqb_neq in Hne. rewrite Hne. rewrite Hth.
    unfold Pipe_detach.
    repeat (unfold bind at 1; first [unfold ret at 1 | unfold update at 1 | unfold emit at 1]).
    unfold bind at 1.
    match goal with
    | |- context [try_catch ?m ?h ?c1 ?sg1] =>
        assert (E : fst (fst (try_catch m h c1 sg1)) = Throw X)
          by (apply HX; reflexivity);
          destruct (try_catch m h c1 sg1) as [[rr cc] ss]
    end.
    simpl in E. subst rr. reflexivity. }
  split.
  - intros Heof. apply Hstart. intros c1 sg1 Hout.
    unfold try_catch, bind at 1, readVersion. unfold bind at 1.
    rewrite (readline_out_eof ext c1 sg1 f_out Hout Heof). reflexivity.
  - intros line rest e Hl Hv. split; [|eapply version_of_line_exn; eassumption].
    destruct (version_of_line_exn ext _ _ Hv) as (_ & Hce).
    apply Hstart. intros c1 sg1 Hout.
    unfold try_catch, bind at 1, readVersion. unfold bind at 1.
    rewrite (readline_out_line ext c1 sg1 f_out line rest Hout Hl).
    rewrite Hv. unfold lift, throw.
    destruct e; try reflexivity. exfalso. eapply Hce. reflexivity.
Qed.

Lemma start_version_handshake_witness :
  fst (fst (start Sample.ext Sample.ro
              (new_ExternCompiler (Sample.options false 2 2))
              (Sample.world0 [Sample.proc 100 EmptyString])))
  = Throw (BadCompilerException
             "Couldn't read version message from external compiler").
Proof.
  refine (proj1 (start_version_handshake Sample.ext Sample.ro
                   (new_ExternCompiler (Sample.options false 2 2))
                   (Sample.world0 [Sample.proc 100 EmptyString])
                   100 (mkFILE 10 EmptyString []) (mkFILE 11 EmptyString [])
                   (mkFILE 12 EmptyString []) []
                   eq_refl eq_refl eq_refl _) eq_refl).
  discriminate.
Defined.

(** C6, as stated, fails: a first line that is not JSON leaves start() as the
    parser's std::runtime_error, and a JSON object without "version" leaves
    it as std::out_of_range; neither is a BadCompilerException. *)
Lemma start_handshake_not_BadCompiler :
  let fresh := new_ExternCompiler (Sample.options false 2 2) in
  (exists w,
      fst (fst (start Sample.ext Sample.ro fresh
                  (Sample.world0 [Sample.proc 100 ("oops" ++ newline)])))
      = Throw (runtime_error w))
  /\ (exists w,
      fst (fst (start Sample.ext Sample.ro fresh
                  (Sample.world0
                     [Sample.proc 100 (Sample.frame Sample.no_version_doc EmptyString)])))
      = Throw (other_exception w)).
Proof.
  split; eexists; vm_compute; reflexivity.
Qed.

(** ** Transport errors *)

(** C3.  When a compile call got past its preparation and then fails with a
    CompileException (thrown while the request is written or the reply is
    read), stop() has run on the worker and returned before the exception
    left: after what the request added to the trace, SIGTERM was sent to the
    worker's subprocess and the subprocess was waited for; the worker has the
    sentinel for identifier, no stdin, stdout or stderr handle, its stderr
    thread joined and its compilation counter at 0.  The next compile call
    on that worker, in any world where the pipes can be created, calls
    proc_open with the configured command before anything else is written or
    read; when proc_open gives a subprocess and the three pipes, the call
    goes on with that subprocess to the creation of the new stderr
    thread. *)
Theorem transport_error_stops_worker :
  forall {UE} (ext : Externals UE) ro filename md5 code c sg c1 sg1 w c' sg',
  compile_prepare ext ro c (log_event (EvCompile filename) sg) = (Ret tt, c1, sg1) ->
  compile ext ro filename md5 code c sg = (Throw (CompileException w), c', sg') ->
  (exists evs1 evs2,
      w_trace sg'
      = (w_trace sg1 ++ evs1 ++ EvKill (m_pid c1) SIGTERM :: evs2)%list
      /\ m_pid c1 <> kInvalidPid
      /\ In (EvWaitpid (m_pid c1)) evs2)
  /\ m_pid c' = kInvalidPid
  /\ isRunning c' = false
  /\ (m_in c' = None /\ m_out c' = None /\ m_err c' = None
      /\ m_logStderrThread c' = false /\ m_compilations c' = 0)
  /\ (forall sg2 filename2 md52 code2,
       (forall e rest, w_spawns sg2 <> PipeError e :: rest) ->
       exists pid evs,
         w_trace (snd (compile ext ro filename2 md52 code2 c' sg2))
         = (w_trace sg2 ++ EvCompile filename2
              :: EvProcOpen (command (m_options c')) pid :: evs)%list)
  /\ (forall sg2 filename2 md52 code2 pid fin fout ferr spawns,
       w_spawns sg2 = ProcOpen pid (Some fin) (Some fout) (Some ferr) :: spawns ->
       pid <> kInvalidPid ->
       exists evs,
         w_trace (snd (compile ext ro filename2 md52 code2 c' sg2))
         = (w_trace sg2 ++ EvCompile filename2
              :: EvProcOpen (command (m_options c')) pid
              :: EvThreadStart :: evs)%list).
Proof.
  intros UE ext ro filename md5 code c sg c1 sg1 w c' sg' Hprep Hc.
  rewrite (compile_prepared ext ro filename md5 code c sg c1 sg1 Hprep) in Hc.
  destruct (compile_try_transport_inv ext _ _ _ _ _ _ _ _ Hc)
    as (c2 & sg2 & en & evs & Hreq & Hj & -> & -> & Hkill).
  assert (Hpid : m_pid c2 = m_pid c1).
  { pose proof (keeps_pid_compile_request ext filename md5 code c1 sg1) as K.
    rewrite Hreq in K. exact K. }
  assert (Hrun : isRunning c2 = true).
  { unfold isRunning. rewrite Hpid.
    exact (compile_prepare_ret_running ext ro _ _ _ _ Hprep). }
  assert (Hne : m_pid c2 <> kInvalidPid).
  { unfold isRunning in Hrun. intros E. rewrite E in Hrun. discriminate. }
  destruct (stopped_fields c2) as (Hp & He & Ht).
  split.
  { destruct (Hkill Hrun) as (evs' & -> & Hw).
    destruct (quiet_trace _ _ _ _ _ _ (quiet_compile_request ext filename md5 code) Hreq)
      as (evs1 & E1 & _).
    exists evs1, evs'. rewrite <- Hpid.
    split; [|split; [exact Hne | exact Hw]].
    unfold set_errno, add_events. cbn [w_trace]. rewrite E1, <- app_assoc.
    reflexivity. }
  split; [exact Hp|]. split; [unfold isRunning; rewrite Hp; reflexivity|].
  split.
  { split; [|split; [|split; [exact He | split; [exact Ht|]]]];
      unfold stopped; apply Z.eqb_neq in Hne; rewrite Hne; reflexivity. }
  split.
  - intros sg3 filename2 md52 code2 Hpipe.
    apply compile_on_stopped_spawns. exact Hpipe.
  - intros sg3 filename2 md52 code2 pid fin fout ferr spawns Hsp Hpne.
    eapply compile_on_stopped_thread; eassumption.
Qed.

Lemma transport_error_stops_worker_witness :
  let c := Sample.running false EmptyString in
  let '(_, c', sg') :=
    compile Sample.ext Sample.ro "a.hh" "d41d8cd9" "<?hh" c (Sample.world0 []) in
  m_pid c' = kInvalidPid
  /\ exists pid evs,
       w_trace (snd (compile Sample.ext Sample.ro "b.hh" "d41d8cd9" "<?hh" c'
                       (Sample.world0 [Sample.proc 101 EmptyString])))
       = (EvCompile "b.hh" :: EvProcOpen "hackc" pid :: evs)%list.
Proof.
  intros c.
  pose (sg := Sample.world0 []).
  pose (p1 := compile_prepare Sample.ext Sample.ro c (log_event (EvCompile "a.hh") sg)).
  pose (r := compile Sample.ext Sample.ro "a.hh" "d41d8cd9" "<?hh" c sg).
  destruct (transport_error_stops_worker Sample.ext Sample.ro
              "a.hh" "d41d8cd9" "<?hh" c sg (snd (fst p1)) (snd p1)
              "error reading line: errno 0" (snd (fst r)) (snd r))
    as (_ & H1 & _ & _ & H3 & _); try (vm_compute; reflexivity).
  change (compile Sample.ext Sample.ro "a.hh" "d41d8cd9" "<?hh" c (Sample.world0 []))
    with r.
  destruct r as [[r0 c'] sg'] eqn:Er. simpl in H1, H3.
  split; [exact H1|].
  destruct (H3 (Sample.world0 [Sample.proc 101 EmptyString]) "b.hh" "d41d8cd9" "<?hh")
    as (pid & evs & E).
  - intros e rest; discriminate.
  - exists pid, evs. rewrite E.
    assert (Hopt : command (m_options c') = "hackc").
    { assert (Hc' : c' = snd (fst r)) by (rewrite Er; reflexivity).
      rewrite Hc'. vm_compute. reflexivity. }
    rewrite Hopt. reflexivity.
Defined.

(** ** The pool invariant *)

Lemma load_app {A} (pre : list (option A)) x rest :
  load (List.length pre) (pre ++ x :: rest)%list = x.
Proof. unfold load. rewrite app_nth2, Nat.sub_diag; [reflexivity|lia]. Qed.

Lemma store_app {A} (pre : list A) v x rest :
  store (List.length pre) v (pre ++ x :: rest)%list = (pre ++ v :: rest)%list.
Proof. induction pre as [|a pre IH]; simpl; [|rewrite IH]; reflexivity. Qed.

Lemma store_length {A} id (v : A) l : List.length (store id v l) = List.length l.
Proof.
  revert id; induction l as [|a l IH]; intros [|id]; simpl; auto.
Qed.

Lemma load_store_same {A} id (v : option A) l :
  (id < List.length l)%nat -> load id (store id v l) = v.
Proof.
  unfold load. revert id; induction l as [|a l IH]; intros [|id] H; simpl in *;
    try lia; auto. apply IH. lia.
Qed.

Lemma load_store_other {A} id id' (v : option A) l :
  id <> id' -> load id' (store id v l) = load id' l.
Proof.
  unfold load. revert id id'; induction l as [|a l IH]; intros [|id] [|id'] H;
    simpl; auto; try congruence.
Qed.

Lemma load_out_of_range {A} id (l : list (option A)) :
  (List.length l <= id)%nat -> load id l = None.
Proof. intros H. unfold load. apply nth_overflow. exact H. Qed.

Lemma nonempty_slots_app l1 l2 :
  nonempty_slots (l1 ++ l2) = nonempty_slots l1 + nonempty_slots l2.
Proof. unfold nonempty_slots. rewrite filter_app, length_app. lia. Qed.

Lemma nonempty_slots_bounds cs :
  0 <= nonempty_slots cs <= Z.of_nat (List.length cs).
Proof.
  unfold nonempty_slots. pose proof (filter_length_le occupied cs). lia.
Qed.

(** A slot in range splits the vector around it. *)
Lemma split_at {A} id (l : list (option A)) :
  (id < List.length l)%nat ->
  exists pre rest, l = (pre ++ load id l :: rest)%list /\ List.length pre = id.
Proof.
  revert id; induction l as [|a l IH]; intros [|id] H; simpl in *; try lia.
  - exists [], l. split; reflexivity.
  - destruct (IH id) as (pre & rest & E & Hl); [lia|].
    exists (a :: pre), rest. unfold load in *. simpl.
    split; [f_equal; exact E|rewrite Hl; reflexivity].
Qed.

Lemma nonempty_slots_cons x cs :
  nonempty_slots (x :: cs) = (if occupied x then 1 else 0) + nonempty_slots cs.
Proof.
  unfold nonempty_slots. cbn [filter].
  destruct (occupied x); cbn [List.length]; lia.
Qed.

Lemma nonempty_slots_store id v cs :
  (id < List.length cs)%nat ->
  nonempty_slots (store id v cs)
  = nonempty_slots cs - (if occupied (load id cs) then 1 else 0)
                      + (if occupied v then 1 else 0).
Proof.
  intros H. destruct (split_at id cs H) as (pre & rest & E & Hl).
  remember (load id cs) as x eqn:Hx. clear Hx. subst cs id.
  rewrite store_app, !nonempty_slots_app, !nonempty_slots_cons.
  destruct (occupied v), (occupied x); lia.
Qed.

Lemma store_None_on_empty id (cs : list (option ExternCompiler)) :
  load id cs = None -> store id None cs = cs.
Proof.
  unfold load. revert id; induction cs as [|a cs IH]; intros [|id] H; simpl in *; auto.
  - subst a. reflexivity.
  - rewrite IH; auto.
Qed.

(** The scan of getCompiler stops at the first occupied slot and empties it;
    it falls through only when every slot is empty. *)
Lemma scan_from_spec : forall rest pre,
  nonempty_slots pre = 0 ->
  match scan_from (List.length pre) (List.length rest) (pre ++ rest) with
  | (Some (id, c), cs') =>
      load id (pre ++ rest) = Some c
      /\ (id < List.length (pre ++ rest))%nat
      /\ cs' = store id None (pre ++ rest)
  | (None, cs') => nonempty_slots rest = 0
  end.
Proof.
  induction rest as [|x rest IH]; intros pre Hpre; simpl.
  - reflexivity.
  - rewrite load_app, store_app. destruct x as [c|].
    + rewrite load_app, store_app, length_app. simpl. repeat split. lia.
    + specialize (IH (pre ++ [None])%list).
      rewrite length_app, Nat.add_1_r, <- app_assoc in IH. simpl in IH.
      assert (H0 : nonempty_slots (pre ++ [None]) = 0).
      { rewrite nonempty_slots_app, Hpre. reflexivity. }
      specialize (IH H0).
      destruct (scan_from (S (List.length pre)) (List.length rest)
                          (pre ++ None :: rest)) as [[[id c]|] cs'].
      * exact IH.
      * change (None :: rest)%list with ([None] ++ rest)%list.
        rewrite nonempty_slots_app, IH. reflexivity.
Qed.

Lemma getCompiler_locked_spec : forall p,
  match getCompiler_locked p with
  | (Some (id, c), p') =>
      load id (m_compilers p) = Some c
      /\ (id < List.length (m_compilers p))%nat
      /\ p' = set_m_compilers (store id None (m_compilers p))
                (set_m_freeCount (size_t (m_freeCount p - 1)) p)
  | (None, _) => nonempty_slots (m_compilers p) = 0
  end.
Proof.
  intros p. unfold getCompiler_locked. simpl.
  pose proof (scan_from_spec (m_compilers p) [] eq_refl) as H. simpl in H.
  destruct (scan_from 0 (List.length (m_compilers p)) (m_compilers p))
    as [[[id c]|] cs'].
  - destruct H as (H1 & H2 & ->). repeat split; assumption.
  - exact H.
Qed.

Lemma fill_from_spec : forall options n pre rest,
  List.length rest = n ->
  fill_from options (List.length pre) n (pre ++ rest)
  = (pre ++ repeat (Some (new_ExternCompiler options)) n)%list.
Proof.
  induction n as [|n IH]; intros pre rest Hlen; simpl.
  - destruct rest; [reflexivity|discriminate].
  - destruct rest as [|x rest]; [discriminate|].
    rewrite store_app.
    specialize (IH (pre ++ [Some (new_ExternCompiler options)])%list rest).
    rewrite length_app, Nat.add_1_r, <- !app_assoc in IH. simpl in IH.
    apply IH. simpl in Hlen. lia.
Qed.

Lemma nonempty_slots_repeat_Some c n :
  nonempty_slots (repeat (Some c) n) = Z.of_nat n.
Proof.
  induction n as [|n IH]; [reflexivity|].
  cbn [repeat]. rewrite nonempty_slots_cons, IH. simpl occupied. lia.
Qed.

Lemma nonempty_slots_repeat_None n : nonempty_slots (repeat None n) = 0.
Proof. unfold nonempty_slots. induction n as [|n IH]; simpl; auto. Qed.

Section PoolInvariant.

Variable options : CompilerOptions.
Hypothesis workers_range : 0 <= workers options < 2 ^ 64.

Lemma pool_inv_new : pool_inv options (mkPoolState (new_CompilerPool options) []).
Proof.
  unfold pool_inv, new_CompilerPool; simpl.
  rewrite repeat_length, nonempty_slots_repeat_None.
  repeat split; try lia.
  all: try match goal with H : In _ [] |- _ => destruct H end.
  constructor.
Qed.

Lemma pool_inv_start :
  pool_inv options (mkPoolState (start_slots (new_CompilerPool options)) []).
Proof.
  pose proof (fill_from_spec options (Z.to_nat (workers options)) []
                (repeat None (Z.to_nat (workers options)))
                (repeat_length _ _)) as Hfill.
  cbn [List.length app] in Hfill.
  unfold pool_inv, start_slots, new_CompilerPool.
  cbn [ps_pool ps_leases m_compilers m_freeCount pool_options
       set_m_compilers set_m_freeCount].
  rewrite Hfill, repeat_length, nonempty_slots_repeat_Some.
  repeat split; try lia.
  all: try match goal with H : In _ [] |- _ => destruct H end.
  constructor.
Qed.

Lemma pool_inv_step : forall s s',
  pool_inv options s -> pool_step s s' -> pool_inv options s'.
Proof.
  intros s s' (Hlen & Hfree & Hrange & Hleases & Hnodup) Hstep.
  destruct Hstep as [p leases id c p' Hne Hget | p l1 l2 id c c' | p leases v];
    simpl in *.
  - pose proof (getCompiler_locked_spec p) as Hspec. rewrite Hget in Hspec.
    destruct Hspec as (Hload & Hid & ->).
    unfold pool_inv; simpl.
    assert (Hcount : nonempty_slots (store id None (m_compilers p))
                     = m_freeCount p - 1).
    { rewrite nonempty_slots_store by assumption. rewrite Hload. simpl. lia. }
    assert (Hwrap : size_t (m_freeCount p - 1) = m_freeCount p - 1).
    { unfold size_t. apply Z.mod_small. lia. }
    rewrite store_length, Hwrap, Hcount.
    repeat split; try lia.
    + destruct H as [H|H]; [inversion H; subst; assumption|].
      apply (Hleases _ _ H).
    + destruct H as [H|H].
      * inversion H; subst. apply load_store_same. assumption.
      * destruct (Nat.eq_dec id id0) as [->|Hneq].
        -- apply load_store_same. assumption.
        -- rewrite load_store_other by assumption. apply (Hleases _ _ H).
    + constructor; [|assumption].
      intros Hin. apply in_map_iff in Hin. destruct Hin as ([id' c'] & Hfst & Hin).
      simpl in Hfst; subst id'. destruct (Hleases _ _ Hin) as (_ & Hnone).
      congruence.
  - unfold pool_inv; simpl.
    assert (Hin : In (id, c) (l1 ++ (id, c) :: l2)).
    { apply in_or_app. right. left. reflexivity. }
    destruct (Hleases _ _ Hin) as (Hid & Hnone).
    assert (Hcount : nonempty_slots (store id (Some c') (m_compilers p))
                     = m_freeCount p + 1).
    { rewrite nonempty_slots_store by assumption. rewrite Hnone. simpl. lia. }
    assert (Hup : m_freeCount p + 1 <= workers options).
    { rewrite <- Hcount, <- Hlen, <- (store_length id (Some c') (m_compilers p)).
      apply nonempty_slots_bounds. }
    assert (Hwrap : size_t (m_freeCount p + 1) = m_freeCount p + 1).
    { unfold size_t. apply Z.mod_small. lia. }
    rewrite store_length, Hwrap, Hcount.
    rewrite map_app in Hnodup. simpl in Hnodup.
    pose proof (NoDup_remove_1 _ _ _ Hnodup) as Hnd1.
    pose proof (NoDup_remove_2 _ _ _ Hnodup) as Hnd2.
    repeat split; try lia.
    + apply (Hleases id0 c0). apply in_app_or in H.
      apply in_or_app. destruct H; [left|right; right]; assumption.
    + assert (Hneq : id <> id0).
      { intros ->. apply Hnd2. rewrite <- map_app.
        apply in_map_iff. exists (id0, c0). split; [reflexivity|assumption]. }
      rewrite load_store_other by assumption.
      apply (Hleases id0 c0). apply in_app_or in H.
      apply in_or_app. destruct H; [left|right; right]; assumption.
    + rewrite map_app. exact Hnd1.
  - unfold pool_inv; simpl. auto.
Qed.

Lemma reachable_pool_inv : forall s, reachable options s -> pool_inv options s.
Proof.
  induction 1 as [| |s s' Hr IH Hstep].
  - apply pool_inv_new.
  - apply pool_inv_start.
  - eapply pool_inv_step; eassumption.
Qed.

End PoolInvariant.

(** C5 (amended).  From its construction up to its shutdown, in every state
    a pool reaches between the critical sections of its threads
    (constructed, started, leases taken and given back), the free count is
    the number of non-empty slots and lies between 0 and the worker count,
    and the slot of every outstanding lease is empty.  Hence, when
    getCompiler finds the free count different from 0, its scan meets a
    non-empty slot: it returns that slot's worker and never falls through to
    not_reached(). *)
Theorem pool_invariant_and_scan : forall options s,
  0 <= workers options < 2 ^ 64 ->
  reachable options s ->
  let p := ps_pool s in
  m_freeCount p = nonempty_slots (m_compilers p)
  /\ 0 <= m_freeCount p <= workers options
  /\ (forall id c, In (id, c) (ps_leases s) -> load id (m_compilers p) = None)
  /\ (m_freeCount p <> 0 ->
      (exists id c p',
          getCompiler_locked p = (Some (id, c), p')
          /\ load id (m_compilers p) = Some c)
      /\ forall sg, exists id c p' sg',
          getCompiler p sg = (Ret (id, c), p', sg')).
Proof.
  intros options s Hw Hr p.
  destruct (reachable_pool_inv options Hw s Hr)
    as (Hlen & Hfree & Hrange & Hleases & Hnodup).
  fold p in Hlen, Hfree, Hrange, Hleases.
  split; [exact Hfree|]. split; [exact Hrange|].
  split; [intros id c Hin; apply (Hleases id c Hin)|].
  intros Hne.
  pose proof (getCompiler_locked_spec p) as Hspec.
  destruct (getCompiler_locked p) as [[[id c]|] p'] eqn:Hget.
  - destruct Hspec as (Hload & _ & _). split.
    + exists id, c, p'. split; [reflexivity|exact Hload].
    + intros sg. unfold getCompiler. unfold bind at 1, this at 1.
      apply Z.eqb_neq in Hne. rewrite Hne, Hget.
      do 4 eexists. reflexivity.
  - exfalso. apply Hne. rewrite Hfree. exact Hspec.
Qed.

(** C5, as stated, fails once shutdown has run: it empties every slot and
    leaves the free count as it was, so a started pool of one worker ends
    with free count 1 and no occupied slot, and a getCompiler arriving then
    passes the wait and falls through its scan to not_reached(). *)
Lemma shutdown_leaves_free_count :
  let p0 := start_slots (new_CompilerPool (Sample.options false 0 1)) in
  let '(r, p, sg) := CompilerPool_shutdown false p0 (Sample.world0 []) in
  r = Ret tt
  /\ m_freeCount p = 1
  /\ nonempty_slots (m_compilers p) = 0
  /\ fst (fst (getCompiler p sg)) = Halt NotReached.
Proof.
  vm_compute. repeat split.
Qed.

(** ** The states the pool's own functions reach *)

Section Reached.

Context {UE : Type}.
Variable ext : Externals UE.
Variable ro : RuntimeOption.
Variable options : CompilerOptions.
Hypothesis workers_range : 0 <= workers options < 2 ^ 64.

(** A CompilerGuard around any body, on a reachable pool with a free
    worker: a lease is taken and given back, or kept if the body never
    returns. *)
Lemma guard_reachable :
  forall {A} (body : M ExternCompiler A) p leases sg r p' sg',
  reachable options (mkPoolState p leases) ->
  m_freeCount p <> 0 ->
  with_CompilerGuard body p sg = (r, p', sg') ->
  match r with
  | Halt _ => exists id c, reachable options (mkPoolState p' ((id, c) :: leases))
  | _ => reachable options (mkPoolState p' leases)
  end.
Proof.
  intros A body p leases sg r p' sg' Hr Hne.
  destruct (reachable_pool_inv options workers_range _ Hr)
    as (_ & Hfree & _ & _ & _).
  cbn [ps_pool] in Hfree.
  pose proof (getCompiler_locked_spec p) as Hspec.
  destruct (getCompiler_locked p) as [[[id c]|] p1] eqn:Hget;
    [|exfalso; apply Hne; rewrite Hfree; exact Hspec].
  assert (Hstep1 : reachable options (mkPoolState p1 ((id, c) :: leases))).
  { eapply reach_step; [exact Hr|]. apply step_getCompiler; assumption. }
  unfold with_CompilerGuard. unfold bind at 1.
  unfold getCompiler. unfold bind at 1, this at 1.
  pose proof Hne as Hne'. apply Z.eqb_neq in Hne'. rewrite Hne', Hget.
  unfold bind, update, emit, ret. cbv beta iota.
  destruct (body c (log_event (EvGetCompiler id) sg)) as [[rb c'] sgb].
  assert (Hstep2 : reachable options
                     (mkPoolState (releaseCompiler_locked id c' p1) leases)).
  { eapply reach_step; [exact Hstep1|].
    exact (step_releaseCompiler p1 [] leases id c c'). }
  unfold releaseCompiler, bind, update, emit.
  destruct rb as [a|e|h]; intros H; inversion H; subst; eauto.
Qed.

(** CompilerPool::start on the pool as constructed. *)
Lemma CompilerPool_start_reachable : forall sg r p' sg',
  workers options <> 0 ->
  CompilerPool_start ext ro (new_CompilerPool options) sg = (r, p', sg') ->
  match r with
  | Halt _ => exists id c, reachable options (mkPoolState p' [(id, c)])
  | _ => reachable options (mkPoolState p' [])
  end.
Proof.
  intros sg r p' sg' Hw0.
  unfold CompilerPool_start. unfold bind at 1, update at 1. unfold bind at 1.
  destruct (with_CompilerGuard (getVersionString ext ro)
              (start_slots (new_CompilerPool options)) sg)
    as [[rv p1] sg1] eqn:Hg.
  pose proof (guard_reachable (getVersionString ext ro)
                (start_slots (new_CompilerPool options)) [] sg rv p1 sg1
                (reach_start options) Hw0 Hg) as Hr.
  destruct rv as [v|e|h]; intros H; inversion H; subst; try exact Hr.
  eapply reach_step; [exact Hr|]. apply step_setVersion.
Qed.

(** CompilerPool::compile on a reachable pool with a free worker. *)
Lemma CompilerPool_compile_reachable :
  forall code filename md5 p leases sg r p' sg',
  reachable options (mkPoolState p leases) ->
  m_freeCount p <> 0 ->
  CompilerPool_compile ext ro code filename md5 p sg = (r, p', sg') ->
  match r with
  | Halt _ => exists id c, reachable options (mkPoolState p' ((id, c) :: leases))
  | _ => reachable options (mkPoolState p' leases)
  end.
Proof.
  intros code filename md5 p leases sg r p' sg' Hr Hne.
  unfold CompilerPool_compile. unfold bind at 1, this at 1.
  apply guard_reachable; assumption.
Qed.

End Reached.

(** ** The retry loop *)

Lemma io_events_attempts : forall evs,
  forallb io_event evs = true -> attempts evs = 0 /\ lease_free evs = true.
Proof.
  unfold attempts, lease_free.
  induction evs as [|e evs IH]; simpl; [auto|].
  intros H. apply andb_true_iff in H. destruct H as (He & Hevs).
  destruct (IH Hevs) as (IH1 & IH2).
  destruct e; simpl in *; try discriminate; auto.
Qed.

Lemma attempts_app : forall evs1 evs2,
  attempts (evs1 ++ evs2) = attempts evs1 + attempts evs2.
Proof. intros. unfold attempts. rewrite filter_app, length_app. lia. Qed.

Lemma attempts_nonneg : forall evs, 0 <= attempts evs.
Proof. intros. unfold attempts. lia. Qed.

Lemma attempts_cons_compile : forall f evs,
  attempts (EvCompile f :: evs) = 1 + attempts evs.
Proof. intros. unfold attempts. cbn [filter is_compile_event List.length]. lia. Qed.

Lemma lease_free_app : forall evs1 evs2,
  lease_free (evs1 ++ evs2) = lease_free evs1 && lease_free evs2.
Proof. intros. unfold lease_free. apply forallb_app. Qed.

Lemma accumulated_all : forall max ws retry,
  retry + Z.of_nat (List.length ws) = max ->
  accumulated max retry ws = String.concat newline ws.
Proof.
  induction ws as [|w ws IH]; intros retry Hlen; [reflexivity|].
  cbn [accumulated]. cbn [List.length] in Hlen.
  destruct ws as [|w2 ws].
  - simpl in Hlen. assert (E : (retry + 1 <? max) = false) by (apply Z.ltb_ge; lia).
    rewrite E. simpl. apply append_nil_r.
  - assert (E : (retry + 1 <? max) = true).
    { apply Z.ltb_lt. cbn [List.length] in Hlen. lia. }
    rewrite E, IH by lia.
    cbn [String.concat]. rewrite append_assoc. reflexivity.
Qed.

Section RetryLoop.

Context {UE : Type}.
Variable ext : Externals UE.
Variable ro : RuntimeOption.
Variables filename md5 code : string.
Variable verbose : bool.

Lemma compile_trace : forall c sg, exists evs,
  w_trace (snd (compile ext ro filename md5 code c sg))
  = (w_trace sg ++ EvCompile filename :: evs)%list
  /\ forallb io_event evs = true.
Proof.
  intros c sg. unfold compile. unfold bind at 1, emit at 1.
  assert (Q : quiet (compile_prepare ext ro ;;; compile_try ext filename md5 code)).
  { apply quiet_bind; [apply quiet_compile_prepare|].
    intros _. apply quiet_compile_try. }
  destruct (Q c (log_event (EvCompile filename) sg)) as (evs & E & F).
  exists evs. rewrite E. unfold log_event, add_events; simpl.
  rewrite <- app_assoc. auto.
Qed.

(** After the failures [ws] the loop stands at counter [retry + length ws]
    with their messages accumulated. *)
Lemma retry_loop_failures : forall c sg ws c2 sg2,
  transport_failures ext ro filename md5 code c sg ws c2 sg2 ->
  forall fuel max retry err,
  retry + Z.of_nat (List.length ws) <= max ->
  retry_loop ext ro filename md5 code verbose (List.length ws + fuel) max retry err c sg
  = retry_loop ext ro filename md5 code verbose fuel max
      (retry + Z.of_nat (List.length ws)) (err ++ accumulated max retry ws) c2 sg2.
Proof.
  induction 1 as [c sg | c sg w c1 sg1 ws c2 sg2 Hc Hf IH];
    intros fuel max retry err Hle.
  - simpl. rewrite Z.add_0_r, append_nil_r. reflexivity.
  - cbn [List.length] in *. rewrite Nat.add_succ_l.
    rewrite (retry_loop_transport ext ro filename md5 code verbose _ max retry err
               c sg w c1 sg1) by (assumption || lia).
    rewrite IH by lia.
    f_equal; [lia|].
    cbn [accumulated].
    destruct (retry + 1 <? max); rewrite !append_assoc; reflexivity.
Qed.

(** Fuel beyond the number of tests the counter allows changes nothing. *)
Lemma retry_loop_fuel : forall fuel1 fuel2 max retry err c sg,
  (Z.to_nat (max - retry) < fuel1)%nat ->
  (Z.to_nat (max - retry) < fuel2)%nat ->
  retry_loop ext ro filename md5 code verbose fuel1 max retry err c sg
  = retry_loop ext ro filename md5 code verbose fuel2 max retry err c sg.
Proof.
  induction fuel1 as [|fuel1 IH]; intros fuel2 max retry err c sg H1 H2; [lia|].
  destruct fuel2 as [|fuel2]; [lia|].
  cbn [retry_loop]. destruct (retry <? max) eqn:Hlt; [|reflexivity].
  apply Z.ltb_lt in Hlt.
  unfold try_catch.
  destruct (bind _ _ c sg) as [[[a|e|h] c1] sg1]; try reflexivity.
  destruct e; try reflexivity.
  apply IH; lia.
Qed.

(** The loop's trace: no lease event, and no more calls into the worker's
    compile than the counter leaves room for. *)
Lemma retry_loop_trace : forall fuel max retry err c sg, exists evs,
  w_trace (snd (retry_loop ext ro filename md5 code verbose fuel max retry err c sg))
  = (w_trace sg ++ evs)%list
  /\ lease_free evs = true
  /\ attempts evs <= Z.max 0 (max - retry)
  /\ (retry < max -> (0 < fuel)%nat -> 1 <= attempts evs).
Proof.
  induction fuel as [|fuel IH]; intros max retry err c sg.
  - exists []. simpl. rewrite app_nil_r. repeat split; try lia.
    unfold attempts; simpl; lia.
  - cbn [retry_loop]. destruct (retry <? max) eqn:Hlt.
    + apply Z.ltb_lt in Hlt.
      destruct (compile_trace c sg) as (evs1 & E1 & F1).
      destruct (io_events_attempts evs1 F1) as (A1 & L1).
      unfold try_catch, bind at 1.
      destruct (compile ext ro filename md5 code c sg) as [[[ue|e|h] c1] sg1];
        simpl in E1.
      * exists (EvCompile filename :: evs1). simpl snd. split; [exact E1|].
        rewrite attempts_cons_compile, A1. cbn [lease_free forallb is_lease_event negb].
        fold (lease_free evs1). rewrite L1. repeat split; try reflexivity; lia.
      * destruct e as [w|w|w|w].
        -- match goal with
           | |- context [retry_loop _ _ _ _ _ _ fuel max ?r ?e c1 sg1] =>
               destruct (IH max r e c1 sg1) as (evs2 & E2 & L2 & A2 & _)
           end.
           exists ((EvCompile filename :: evs1) ++ evs2)%list.
           rewrite E2, E1, <- app_assoc. split; [reflexivity|].
           rewrite lease_free_app, attempts_app, attempts_cons_compile, A1, L2.
           cbn [lease_free forallb is_lease_event negb]. fold (lease_free evs1).
           rewrite L1. pose proof (attempts_nonneg evs2).
           repeat split; try reflexivity; lia.
        -- exists (EvCompile filename :: evs1). simpl snd. split; [exact E1|].
           rewrite attempts_cons_compile, A1. cbn [lease_free forallb is_lease_event negb].
           fold (lease_free evs1). rewrite L1. repeat split; try reflexivity; lia.
        -- exists (EvCompile filename :: evs1). simpl snd. split; [exact E1|].
           rewrite attempts_cons_compile, A1. cbn [lease_free forallb is_lease_event negb].
           fold (lease_free evs1). rewrite L1. repeat split; try reflexivity; lia.
        -- exists (EvCompile filename :: evs1). simpl snd. split; [exact E1|].
           rewrite attempts_cons_compile, A1. cbn [lease_free forallb is_lease_event negb].
           fold (lease_free evs1). rewrite L1. repeat split; try reflexivity; lia.
      * exists (EvCompile filename :: evs1). simpl snd. split; [exact E1|].
        rewrite attempts_cons_compile, A1. cbn [lease_free forallb is_lease_event negb].
        fold (lease_free evs1). rewrite L1. repeat split; try reflexivity; lia.
    + apply Z.ltb_ge in Hlt. destruct verbose; simpl.
      * eexists [_]. split; [reflexivity|]. unfold attempts; simpl.
        repeat split; lia.
      * exists []. rewrite app_nil_r. unfold attempts; simpl.
        repeat split; lia.
Qed.

End RetryLoop.

Section PoolCompile.

Context {UE : Type}.
Variable ext : Externals UE.
Variable ro : RuntimeOption.

Lemma getCompiler_run : forall p sg id c p1,
  m_freeCount p <> 0 ->
  getCompiler_locked p = (Some (id, c), p1) ->
  getCompiler p sg = (Ret (id, c), p1, log_event (EvGetCompiler id) sg).
Proof.
  intros p sg id c p1 Hne Hget. unfold getCompiler. unfold bind at 1, this at 1.
  apply Z.eqb_neq in Hne. rewrite Hne, Hget. reflexivity.
Qed.

(** CompilerPool::compile once the lease is taken: the loop runs on the
    leased worker, and the guard gives the worker back unless the process
    died inside the loop. *)
Lemma CompilerPool_compile_run : forall code filename md5 p sg id c p1,
  m_freeCount p <> 0 ->
  getCompiler_locked p = (Some (id, c), p1) ->
  CompilerPool_compile ext ro code filename md5 p sg
  = match retry_loop ext ro filename md5 code (verboseErrors (pool_options p))
            (S (Z.to_nat (max_attempts (pool_options p))))
            (max_attempts (pool_options p)) 0 EmptyString
            c (log_event (EvGetCompiler id) sg) with
    | (Halt h, _, sg') => (Halt h, p1, sg')
    | (r, c', sg') =>
        (r, releaseCompiler_locked id c' p1, log_event (EvReleaseCompiler id) sg')
    end.
Proof.
  intros code filename md5 p sg id c p1 Hne Hget.
  unfold CompilerPool_compile. unfold bind at 1, this at 1.
  unfold with_CompilerGuard. unfold bind at 1.
  rewrite (getCompiler_run p sg id c p1 Hne Hget). cbv zeta.
  destruct (retry_loop _ _ _ _ _ _ _ _ _ _ _ _) as [[[a|e|h] c'] sg']; reflexivity.
Qed.

Lemma max_attempts_bounds : forall options,
  0 <= maxRetries options ->
  1 <= max_attempts options <= Z.max 1 (maxRetries options + 1)
  /\ (maxRetries options + 1 < 2 ^ 64 ->
      max_attempts options = maxRetries options + 1).
Proof.
  intros options H0. unfold max_attempts, size_t. split.
  - pose proof (Z.mod_le (maxRetries options + 1) (2 ^ 64)).
    pose proof (Z.mod_pos_bound (maxRetries options + 1) (2 ^ 64)). lia.
  - intros Hlt. rewrite Z.mod_small by lia. lia.
Qed.

End PoolCompile.

(** C1.  A call of the pool's compile that gets a lease on slot [id], where
    the configured maximum of retries is [N], takes that one lease, makes
    every attempt on the leased worker and returns the lease when the loop
    ends: the trace it adds starts with the lease, ends with its return, and
    holds no other lease event and between 1 and max(1, N + 1) calls of the
    worker's compile (the loop's bound is N + 1, taken modulo 2^64, and at
    least 1; with N = 0 it is 1).  The loop always ends by itself.  If the first attempts fail with
    CompileExceptions and the next one, not beyond the bound, succeeds, its
    artifact is returned; if as many attempts as the bound allows all fail
    with CompileExceptions, the result is their messages separated by
    newlines. *)
Theorem pool_compile_retries :
  forall {UE} (ext : Externals UE) ro code filename md5 p sg id c p1,
  0 <= maxRetries (pool_options p) ->
  m_freeCount p <> 0 ->
  getCompiler_locked p = (Some (id, c), p1) ->
  let N := maxRetries (pool_options p) in
  let max := max_attempts (pool_options p) in
  let sg1 := log_event (EvGetCompiler id) sg in
  let '(r, p', sg') := CompilerPool_compile ext ro code filename md5 p sg in
  (1 <= max <= Z.max 1 (N + 1)
   /\ (N + 1 < 2 ^ 64 -> max = N + 1)
   /\ (N = 0 -> max = 1))
  /\ r <> Halt OutOfFuel
  /\ (exists evs,
        w_trace sg'
        = (w_trace sg ++ EvGetCompiler id :: evs
             ++ match r with Halt _ => [] | _ => [EvReleaseCompiler id] end)%list
        /\ lease_free evs = true
        /\ 1 <= attempts evs <= max)
  /\ (forall ws c2 sg2 ue c3 sg3,
        transport_failures ext ro filename md5 code c sg1 ws c2 sg2 ->
        Z.of_nat (List.length ws) < max ->
        compile ext ro filename md5 code c2 sg2 = (Ret ue, c3, sg3) ->
        r = Ret (inl ue)
        /\ p' = releaseCompiler_locked id c3 p1
        /\ sg' = log_event (EvReleaseCompiler id) sg3)
  /\ (forall ws c2 sg2,
        transport_failures ext ro filename md5 code c sg1 ws c2 sg2 ->
        Z.of_nat (List.length ws) = max ->
        r = Ret (inr (String.concat newline ws))
        /\ p' = releaseCompiler_locked id c2 p1).
Proof.
  intros UE ext ro code filename md5 p sg id c p1 HN Hne Hget N max sg1.
  rewrite (CompilerPool_compile_run ext ro code filename md5 p sg id c p1 Hne Hget).
  fold max. fold sg1.
  destruct (max_attempts_bounds (pool_options p) HN) as (Hb1 & Hb2).
  fold max in Hb1, Hb2. fold N in Hb1, Hb2.
  set (verbose := verboseErrors (pool_options p)).
  destruct (retry_loop_trace ext ro filename md5 code verbose
              (S (Z.to_nat max)) max 0 EmptyString c sg1)
    as (evs & Etr & Hlf & Hatt & Hatt1).
  assert (Hsucc : forall ws c2 sg2 ue c3 sg3,
    transport_failures ext ro filename md5 code c sg1 ws c2 sg2 ->
    Z.of_nat (List.length ws) < max ->
    compile ext ro filename md5 code c2 sg2 = (Ret ue, c3, sg3) ->
    retry_loop ext ro filename md5 code verbose (S (Z.to_nat max)) max 0
      EmptyString c sg1 = (Ret (inl ue), c3, sg3)).
  { intros ws c2 sg2 ue c3 sg3 Hf Hlen Hc.
    replace (S (Z.to_nat max))
      with (List.length ws + S (Z.to_nat max - List.length ws))%nat by lia.
    rewrite (retry_loop_failures ext ro filename md5 code verbose c sg1 ws c2 sg2 Hf)
      by lia.
    apply retry_loop_success; [lia|exact Hc]. }
  assert (Hexh : forall ws c2 sg2,
    transport_failures ext ro filename md5 code c sg1 ws c2 sg2 ->
    Z.of_nat (List.length ws) = max ->
    exists sg3,
      retry_loop ext ro filename md5 code verbose (S (Z.to_nat max)) max 0
        EmptyString c sg1 = (Ret (inr (String.concat newline ws)), c2, sg3)).
  { intros ws c2 sg2 Hf Hlen.
    replace (S (Z.to_nat max)) with (List.length ws + 1)%nat by lia.
    rewrite (retry_loop_failures ext ro filename md5 code verbose c sg1 ws c2 sg2 Hf)
      by lia.
    rewrite (accumulated_all max ws 0) by lia.
    cbn [retry_loop append].
    assert (E : (0 + Z.of_nat (List.length ws) <? max) = false)
      by (apply Z.ltb_ge; lia).
    rewrite E. destruct verbose; eexists; reflexivity. }
  pose proof (fuelled_retry_loop ext ro filename md5 code verbose
                (S (Z.to_nat max)) max 0 EmptyString
                ltac:(rewrite Z.sub_0_r; lia) c sg1) as Hfuel.
  destruct (retry_loop ext ro filename md5 code verbose (S (Z.to_nat max)) max 0
              EmptyString c sg1) as [[r c'] sg'] eqn:Hloop.
  simpl in Etr, Hfuel.
  assert (Hcount : 1 <= attempts evs <= max).
  { split; [apply Hatt1; lia|]. lia. }
  destruct r as [a|e|h].
  - split; [repeat split; lia|]. split; [exact Hfuel || discriminate|]. split.
    + exists evs. unfold log_event, add_events, sg1 in *; simpl in *.
      rewrite Etr, <- !app_assoc. simpl. auto.
    + split.
      * intros ws c2 sg2 ue c3 sg3 Hf Hlen Hc.
        pose proof (Hsucc ws c2 sg2 ue c3 sg3 Hf Hlen Hc) as H.
        inversion H; subst. auto.
      * intros ws c2 sg2 Hf Hlen.
        destruct (Hexh ws c2 sg2 Hf Hlen) as (sg3 & H).
        inversion H; subst. auto.
  - split; [repeat split; lia|]. split; [exact Hfuel || discriminate|]. split.
    + exists evs. unfold log_event, add_events, sg1 in *; simpl in *.
      rewrite Etr, <- !app_assoc. simpl. auto.
    + split.
      * intros ws c2 sg2 ue c3 sg3 Hf Hlen Hc.
        pose proof (Hsucc ws c2 sg2 ue c3 sg3 Hf Hlen Hc) as H. discriminate.
      * intros ws c2 sg2 Hf Hlen.
        destruct (Hexh ws c2 sg2 Hf Hlen) as (sg3 & H). discriminate.
  - split; [repeat split; lia|]. split; [exact Hfuel || discriminate|]. split.
    + exists evs. unfold sg1, log_event, add_events in *; simpl in *.
      rewrite Etr, app_nil_r, <- !app_assoc. simpl. auto.
    + split.
      * intros ws c2 sg2 ue c3 sg3 Hf Hlen Hc.
        pose proof (Hsucc ws c2 sg2 ue c3 sg3 Hf Hlen Hc) as H. discriminate.
      * intros ws c2 sg2 Hf Hlen.
        destruct (Hexh ws c2 sg2 Hf Hlen) as (sg3 & H). discriminate.
Qed.

(** ** The theorems at concrete inputs *)

Lemma pool_invariant_witness :
  let options := Sample.options false 2 2 in
  let sg := Sample.world0
              [Sample.proc 100 (Sample.frame Sample.version_doc EmptyString)] in
  let '(r, p, _) := CompilerPool_start Sample.ext Sample.ro
                      (new_CompilerPool options) sg in
  r = Ret tt
  /\ pool_version p = "1.0"
  /\ m_freeCount p = nonempty_slots (m_compilers p)
  /\ 0 <= m_freeCount p <= 2
  /\ exists id c p', getCompiler_locked p = (Some (id, c), p').
Proof.
  intros options sg.
  assert (Hw : 0 <= workers options < 2 ^ 64)
    by (split; [discriminate|reflexivity]).
  assert (Hw0 : workers options <> 0) by discriminate.
  destruct (CompilerPool_start Sample.ext Sample.ro (new_CompilerPool options) sg)
    as [[r p] sg'] eqn:E.
  pose proof (CompilerPool_start_reachable Sample.ext Sample.ro options Hw
                sg r p sg' Hw0 E) as Hr.
  assert (E1 : r = Ret tt).
  { change r with (fst (fst (r, p, sg'))). rewrite <- E. reflexivity. }
  assert (E2 : pool_version p = "1.0").
  { change p with (snd (fst (r, p, sg'))). rewrite <- E. reflexivity. }
  assert (E3 : m_freeCount p <> 0).
  { change p with (snd (fst (r, p, sg'))). rewrite <- E. discriminate. }
  subst r.
  destruct (pool_invariant_and_scan options (mkPoolState p []) Hw Hr)
    as (H1 & H2 & _ & H4).
  split; [reflexivity|]. split; [exact E2|].
  split; [exact H1|]. split; [exact H2|].
  destruct (H4 E3) as ((id & c & p' & Hget & _) & _).
  exists id, c, p'. exact Hget.
Defined.

Lemma writeMessage_frame_witness :
  let c := Sample.running false EmptyString in
  let header := DObject [("type", DString "config"); ("bytes", DInt 4)] in
  let '(r, _, sg') :=
    writeMessage Sample.ext (DObject [("type", DString "config")]) "<?hh"
                 c (Sample.world0 []) in
  r = Ret header
  /\ w_trace sg'
     = [EvWrite 10 (Sample.toJson header ++ newline); EvWrite 10 "<?hh"; EvFlush 10].
Proof.
  intros c header.
  generalize (writeMessage_frame Sample.ext c (Sample.world0 [])
                [("type", DString "config")] "<?hh"
                (mkFILE 10 EmptyString []) eq_refl).
  cbv zeta.
  destruct (writeMessage Sample.ext _ _ _ _) as [[r c'] sg'].
  intros (_ & H). cbn in H. destruct H as (H1 & H2 & _).
  split; [exact H1 | exact H2].
Defined.

Lemma pool_compile_retries_witness :
  let options := Sample.options false 2 2 in
  let p := start_slots (new_CompilerPool options) in
  let sg := Sample.world0
              [Sample.proc 100 (Sample.frame Sample.version_doc EmptyString);
               Sample.proc 101 (Sample.frame Sample.version_doc
                                  (Sample.frame (Sample.hhas 3) "abc"))] in
  fst (fst (CompilerPool_compile Sample.ext Sample.ro "<?hh" "a.hh" "d41d8cd9" p sg))
  = Ret (inl "abc").
Proof.
  intros options p sg.
  pose (c := new_ExternCompiler options).
  pose (p1 := snd (getCompiler_locked p)).
  pose (sg1 := log_event (EvGetCompiler 0) sg).
  pose (r1 := compile Sample.ext Sample.ro "a.hh" "d41d8cd9" "<?hh" c sg1).
  pose (r2 := compile Sample.ext Sample.ro "a.hh" "d41d8cd9" "<?hh"
                (snd (fst r1)) (snd r1)).
  assert (H0 : 0 <= maxRetries (pool_options p)) by discriminate.
  assert (H1 : m_freeCount p <> 0) by discriminate.
  assert (H2 : getCompiler_locked p = (Some (0%nat, c), p1)) by reflexivity.
  generalize (pool_compile_retries Sample.ext Sample.ro "<?hh" "a.hh" "d41d8cd9"
                p sg 0%nat c p1 H0 H1 H2).
  cbv zeta.
  destruct (CompilerPool_compile Sample.ext Sample.ro "<?hh" "a.hh" "d41d8cd9" p sg)
    as [[r p'] sg'].
  intros (_ & _ & _ & Hs & _). simpl.
  refine (proj1 (Hs ["error reading line: errno 0"] (snd (fst r1)) (snd r1)
                    "abc" (snd (fst r2)) (snd r2) _ _ _)).
  - eapply failures_cons; [|apply failures_nil]. vm_compute. reflexivity.
  - vm_compute. reflexivity.
  - vm_compute. reflexivity.
Defined.

(** * Further properties of the code *)

(** ** What stop() does, event by event *)

Lemma teardown_no_kill : forall evs,
  forallb teardown_event evs = true -> kills evs = [] /\ spawn_count evs = O.
Proof.
  induction evs as [|e evs IH]; simpl; [auto|].
  intros H. apply andb_true_iff in H. destruct H as (He & Hevs).
  destruct (IH Hevs) as (IH1 & IH2).
  destruct e; simpl in *; try discriminate; auto.
Qed.

(** stop() on a running worker sends one SIGTERM, to the worker's own
    subprocess, and otherwise only waits, closes, joins and logs; on a
    worker that is not running it sends none.  It returns when its join
    does. *)
Lemma stop_events : forall c sg, exists en evs,
  stop c sg
  = (if can_join sg c then Ret tt else Halt JoinWait,
     if can_join sg c then stopped c else joining c,
     set_errno en (add_events evs sg))
  /\ kills evs = (if isRunning c then [m_pid c] else [])
  /\ spawn_count evs = O.
Proof.
  intros c sg.
  destruct (stop_run c sg) as (en & evs & Hrun & Hs & Hr).
  exists en, evs. split; [exact Hrun|].
  unfold isRunning. destruct (m_pid c =? kInvalidPid) eqn:Ep; cbn [negb].
  - apply Z.eqb_eq in Ep. destruct (Hs Ep) as (_ & _ & _ & Ht).
    apply teardown_no_kill. exact Ht.
  - apply Z.eqb_neq in Ep. destruct (Hr Ep) as (evs' & -> & Ht & _).
    destruct (teardown_no_kill evs' Ht) as (Hk & Hsp).
    simpl. rewrite Hk, Hsp. split; reflexivity.
Qed.

(** X22.  stop() returns exactly when its join of the stderr thread does,
    and waits in the join otherwise.  Either way it has sent SIGTERM to the
    worker's subprocess when the worker was running and to nothing
    otherwise, so never to the sentinel identifier, and it has spawned
    nothing.  On the worker a stop() that returned has left, a second
    stop(), as the destructor's after the one of a failed compile, does
    nothing at all. *)
Theorem stop_kills_once : forall c sg,
  exists en evs,
    stop c sg
    = (if can_join sg c then Ret tt else Halt JoinWait,
       if can_join sg c then stopped c else joining c,
       set_errno en (add_events evs sg))
    /\ kills evs = (if isRunning c then [m_pid c] else [])
    /\ ~ In kInvalidPid (kills evs)
    /\ spawn_count evs = O
    /\ forall sg2, stop (stopped c) sg2 = (Ret tt, stopped c, sg2).
Proof.
  intros c sg.
  destruct (stop_events c sg) as (en & evs & Hrun & Hk & Hs).
  exists en, evs. split; [exact Hrun|]. rewrite Hk.
  split; [reflexivity|]. split; [|split; [exact Hs | apply stop_stopped]].
  unfold isRunning. destruct (m_pid c =? kInvalidPid) eqn:E; cbn [negb].
  - intros [].
  - apply Z.eqb_neq in E. intros [H|[]]. congruence.
Qed.

(** ** Lines and frames read from the subprocess *)

Lemma getline_terminated : forall l rest,
  has_LF l = false ->
  getline (l ++ String LF rest) = Some (l ++ newline, rest).
Proof.
  induction l as [|a l IH]; intros rest H; simpl in *.
  - reflexivity.
  - apply orb_false_iff in H. destruct H as (Ha & Hl).
    rewrite Ha, (IH rest Hl). reflexivity.
Qed.

Lemma getline_unterminated : forall a l,
  has_LF (String a l) = false ->
  getline (String a l) = Some (String a l, EmptyString).
Proof.
  intros a l; revert a. induction l as [|b l IH]; intros a H; simpl in *.
  - apply orb_false_iff in H. destruct H as (Ha & _). rewrite Ha. reflexivity.
  - apply orb_false_iff in H. destruct H as (Ha & Hl). rewrite Ha.
    specialize (IH b Hl). simpl in IH. rewrite IH. reflexivity.
Qed.

Lemma drop_last_newline : forall l, drop_last (l ++ newline) = l.
Proof.
  induction l as [|a l IH]; [reflexivity|].
  simpl. rewrite IH. destruct l; reflexivity.
Qed.

(** X1.  readline on the worker's stdout returns the first line without its
    newline and leaves the stream right after it; a last line that no
    newline ends is returned without its final byte; at end of file it
    throws the CompileException of a failed read. *)
Theorem readline_out_cases :
  forall {UE} (ext : Externals UE) c sg f l,
  m_out c = Some f ->
  has_LF l = false ->
  (forall rest,
      f_rd f = l ++ String LF rest ->
      readline_out ext c sg
      = (Ret l, set_m_out (Some (mkFILE (fileno f) rest (f_wr f))) c,
         log_event (EvGetline (fileno f)) sg))
  /\ (f_rd f = l -> l <> EmptyString ->
      readline_out ext c sg
      = (Ret (drop_last l),
         set_m_out (Some (mkFILE (fileno f) EmptyString (f_wr f))) c,
         log_event (EvGetline (fileno f)) sg))
  /\ (f_rd f = EmptyString ->
      readline_out ext c sg
      = (Throw (CompileException
                  ("error reading line: " ++ errnoStr ext (w_errno sg))),
         c, log_event (EvGetline (fileno f)) sg)).
Proof.
  intros UE ext c sg f l Hf Hl. repeat split.
  - intros rest Hrd.
    rewrite (readline_out_line ext c sg f (l ++ newline) rest Hf).
    + rewrite drop_last_newline. reflexivity.
    + rewrite Hrd. apply getline_terminated. exact Hl.
  - intros Hrd Hne. destruct l as [|a l]; [congruence|].
    apply (readline_out_line ext c sg f (String a l) EmptyString Hf).
    rewrite Hrd. apply getline_unterminated. exact Hl.
  - intros Hrd. apply (readline_out_eof ext c sg f Hf). rewrite Hrd. reflexivity.
Qed.

Lemma readline_out_cases_witness :
  fst (fst (readline_out Sample.ext (Sample.running false "abc") (Sample.world0 [])))
  = Ret "ab".
Proof.
  destruct (readline_out_cases Sample.ext (Sample.running false "abc")
              (Sample.world0 []) (mkFILE 11 "abc" []) "abc" eq_refl eq_refl)
    as (_ & H & _).
  rewrite (H eq_refl); [reflexivity|discriminate].
Defined.

Lemma substring_prefix : forall body rest,
  substring 0 (String.length body) (body ++ rest) = body.
Proof.
  induction body as [|a body IH]; intros rest; simpl.
  - destruct rest; reflexivity.
  - rewrite IH. reflexivity.
Qed.

Lemma substring_all : forall s, substring 0 (String.length s) s = s.
Proof.
  induction s as [|a s IH]; simpl; [reflexivity|rewrite IH; reflexivity].
Qed.

Lemma substring_suffix : forall body rest,
  substring (String.length body) (String.length rest) (body ++ rest) = rest.
Proof.
  induction body as [|a body IH]; intros rest; simpl.
  - apply substring_all.
  - apply IH.
Qed.

Lemma length_append : forall s1 s2 : string,
  String.length (s1 ++ s2) = (String.length s1 + String.length s2)%nat.
Proof. induction s1 as [|a s1 IH]; intros; simpl; [|rewrite IH]; reflexivity. Qed.

Lemma fread1_exact : forall body rest,
  body <> EmptyString ->
  fread1 (strlen body) (body ++ rest) = (1, body, rest).
Proof.
  intros body rest Hne. unfold fread1, strlen.
  assert (Hpos : (0 < String.length body)%nat).
  { destruct body; [congruence|simpl; lia]. }
  assert (E0 : (Z.of_nat (String.length body) =? 0) = false)
    by (apply Z.eqb_neq; lia).
  assert (E1 : (Z.of_nat (String.length body)
                <=? Z.of_nat (String.length (body ++ rest))) = true).
  { apply Z.leb_le. rewrite length_append. lia. }
  rewrite E0, E1, Nat2Z.id, substring_prefix, length_append.
  replace (String.length body + String.length rest - String.length body)%nat
    with (String.length rest) by lia.
  rewrite substring_suffix. reflexivity.
Qed.

Lemma fread1_short : forall size s,
  strlen s < size -> fread1 size s = (0, s, EmptyString).
Proof.
  intros size s H. unfold fread1, strlen in *.
  assert (E0 : (size =? 0) = false) by (apply Z.eqb_neq; lia).
  assert (E1 : (size <=? Z.of_nat (String.length s)) = false)
    by (apply Z.leb_gt; lia).
  rewrite E0, E1. reflexivity.
Qed.

(** readProgram on a header of type "hhas", up to the fread. *)
Lemma readProgram_hhas : forall {UE} (ext : Externals UE) c sg f hline tail header n,
  m_out c = Some f ->
  has_LF hline = false ->
  f_rd f = hline ++ String LF tail ->
  parse ext hline = inr header ->
  reply_type ext header = inr "hhas" ->
  reply_bytes ext header = inr n ->
  n <= string_max_size ext ->
  readProgram ext c sg
  = (let '(k, program, rest) := fread1 n tail in
     (if negb (k =? 1)
      then Throw (CompileException
                    ("reading input program: " ++ errnoStr ext (w_errno sg)))
      else Ret program,
      set_m_out (Some (mkFILE (fileno f) rest (f_wr f))) c,
      add_events [EvGetline (fileno f); EvFread (fileno f) n] sg)).
Proof.
  intros UE ext c sg f hline tail header n Hf Hl Hrd Hp Ht Hb Hmax.
  assert (Hg : getline (f_rd f) = Some (hline ++ newline, tail)).
  { rewrite Hrd. apply getline_terminated. exact Hl. }
  rewrite (readProgram_header ext c sg f (hline ++ newline) tail header Hf Hg)
    by (rewrite drop_last_newline; exact Hp).
  unfold bind at 1. rewrite Ht. unfold lift at 1, ret at 1.
  unfold bind at 1. rewrite Hb. unfold lift at 1, ret at 1.
  change (String.eqb "hhas" "hhas") with true. cbv iota.
  assert (E : (string_max_size ext <? n) = false) by (apply Z.ltb_ge; lia).
  rewrite E. unfold bind at 1. unfold fread_out.
  cbn [m_out set_m_out f_rd fileno f_wr].
  destruct (fread1 n tail) as [[k program] rest]. cbv beta iota.
  unfold log_event. rewrite add_events_app. cbn [app].
  destruct (negb (k =? 1)); unfold throwErrno, bind, world, throw, ret;
    destruct c; reflexivity.
Qed.

(** X2.  When the reply header has type "hhas" and announces [n > 0] bytes
    and at least that many follow the header line, readProgram returns
    exactly the [n] bytes after the newline and leaves the stream right
    after them. *)
Theorem readProgram_hhas_body :
  forall {UE} (ext : Externals UE) c sg f hline body rest header,
  m_out c = Some f ->
  has_LF hline = false ->
  f_rd f = hline ++ String LF (body ++ rest) ->
  parse ext hline = inr header ->
  reply_type ext header = inr "hhas" ->
  reply_bytes ext header = inr (strlen body) ->
  body <> EmptyString ->
  strlen body <= string_max_size ext ->
  readProgram ext c sg
  = (Ret body,
     set_m_out (Some (mkFILE (fileno f) rest (f_wr f))) c,
     add_events [EvGetline (fileno f); EvFread (fileno f) (strlen body)] sg).
Proof.
  intros UE ext c sg f hline body rest header Hf Hl Hrd Hp Ht Hb Hne Hmax.
  rewrite (readProgram_hhas ext c sg f hline (body ++ rest) header (strlen body)
             Hf Hl Hrd Hp Ht Hb Hmax).
  rewrite (fread1_exact body rest Hne). reflexivity.
Qed.

Lemma readProgram_hhas_body_witness :
  fst (fst (readProgram Sample.ext
              (Sample.running false (Sample.frame (Sample.hhas 3) "abcdef"))
              (Sample.world0 [])))
  = Ret "abc".
Proof.
  rewrite (readProgram_hhas_body Sample.ext
             (Sample.running false (Sample.frame (Sample.hhas 3) "abcdef"))
             (Sample.world0 [])
             (mkFILE 11 (Sample.frame (Sample.hhas 3) "abcdef") [])
             (Sample.toJson (Sample.hhas 3)) "abc" "def" (Sample.hhas 3));
    try reflexivity; discriminate.
Defined.




(** X23.  A reply whose type is neither "hhas" nor "error" makes readProgram
    throw the std::runtime_error "unknown message type, " followed by the
    type.  Only the header line has been read: the bytes the header
    announces, if any follow, are still on the stream. *)
Theorem readProgram_unknown_type :
  forall {UE} (ext : Externals UE) c sg f hline rest header type n,
  m_out c = Some f ->
  has_LF hline = false ->
  f_rd f = hline ++ String LF rest ->
  parse ext hline = inr header ->
  reply_type ext header = inr type ->
  reply_bytes ext header = inr n ->
  type <> "hhas" ->
  type <> "error" ->
  readProgram ext c sg
  = (Throw (runtime_error ("unknown message type, " ++ type)),
     set_m_out (Some (mkFILE (fileno f) rest (f_wr f))) c,
     log_event (EvGetline (fileno f)) sg).
Proof.
  intros UE ext c sg f hline rest header type n Hf Hl Hrd Hp Ht Hb Hh He.
  assert (Hg : getline (f_rd f) = Some (hline ++ newline, rest)).
  { rewrite Hrd. apply getline_terminated. exact Hl. }
  rewrite (readProgram_header ext c sg f (hline ++ newline) rest header Hf Hg)
    by (rewrite drop_last_newline; exact Hp).
  unfold bind at 1. rewrite Ht. unfold lift at 1, ret at 1.
  unfold bind at 1. rewrite Hb. unfold lift at 1, ret at 1.
  apply String.eqb_neq in Hh, He. rewrite Hh, He. reflexivity.
Qed.

Lemma readProgram_unknown_type_witness :
  readProgram Sample.ext
    (Sample.running false (Sample.frame Sample.banana "junk"))
    (Sample.world0 [])
  = (Throw (runtime_error "unknown message type, banana"),
     set_m_out (Some (mkFILE 11 "junk" []))
       (Sample.running false (Sample.frame Sample.banana "junk")),
     log_event (EvGetline 11) (Sample.world0 [])).
Proof.
  apply (readProgram_unknown_type Sample.ext
           (Sample.running false (Sample.frame Sample.banana "junk"))
           (Sample.world0 [])
           (mkFILE 11 (Sample.frame Sample.banana "junk") [])
           (Sample.toJson Sample.banana) "junk" Sample.banana "banana" 0);
    try reflexivity; discriminate.
Defined.

(** ** A frame written and read back *)

Lemma skipn_app_length {A} (l1 l2 : list A) :
  skipn (List.length l1) (l1 ++ l2) = l2.
Proof. induction l1 as [|a l1 IH]; simpl; auto. Qed.

Lemma events_of_add {X A} (m : M X A) x sg r x' sg' evs :
  m x sg = (r, x', sg') -> w_trace sg' = (w_trace sg ++ evs)%list ->
  events_of m x sg = evs.
Proof.
  intros Hm Htr. unfold events_of. rewrite Hm. simpl. rewrite Htr.
  apply skipn_app_length.
Qed.

(** writeMessage when both writes succeed and the body is not empty: the
    flush that follows may fail, and the frame is written all the same. *)
Lemma writeMessage_written : forall {UE} (ext : Externals UE) c sg kv body f,
  m_in c = Some f ->
  next_write (f_wr f) = WrOk ->
  next_write (tl (f_wr f)) = WrOk ->
  body <> EmptyString ->
  let header := DObject (assoc_set "bytes" (DInt (strlen body)) kv) in
  exists c' sg',
    writeMessage ext (DObject kv) body c sg = (Ret header, c', sg')
    /\ w_trace sg'
       = (w_trace sg
          ++ [EvWrite (fileno f) (toJson ext header ++ newline);
              EvWrite (fileno f) body;
              flush_event (fileno f) (next_write (tl (tl (f_wr f))))])%list
    /\ m_in c' = Some (mkFILE (fileno f) (f_rd f) (tl (tl (tl (f_wr f)))))
    /\ m_pid c' = m_pid c /\ m_out c' = m_out c.
Proof.
  intros UE ext [pid fin fout ver ferr th n opts] sg kv body [fd rd wr] Hin H1 H2 Hne.
  simpl in Hin; subst fin. cbv zeta.
  destruct body as [|a body]; [congruence|].
  unfold writeMessage, set_item, lift, bind, write_in, fflush_in, throwErrno,
    world, throw, ret; simpl.
  rewrite toJson_no_nul.
  destruct wr as [|[|e1] [|[|e2] [|[|e3] wr]]]; simpl in *; try discriminate.
  all: rewrite ?strlen_pos; simpl.
  all: unfold log_event, add_events, set_errno; simpl; rewrite <- ?app_assoc; simpl.
  all: do 2 eexists; repeat split; reflexivity.
Qed.

Lemma reply_bytes_set : forall {UE} (ext : Externals UE) kv n,
  0 <= n < 2 ^ 64 ->
  reply_bytes ext (DObject (assoc_set "bytes" (DInt n) kv)) = inr n.
Proof.
  intros UE ext kv n Hn. unfold reply_bytes, and_then, getDefault, asInt.
  rewrite assoc_find_set. unfold size_t. rewrite Z.mod_small by exact Hn.
  reflexivity.
Qed.

(** X4.  The framing round trip.  Take what writeMessage writes for a
    header object and a non-empty body when its two writes succeed, followed
    by any further bytes, as the stdout of a worker.  If the header, with
    "bytes" set, has type "hhas", if its JSON text parses back to it and
    holds no newline, then readProgram returns the body byte for byte and
    leaves the stream at the further bytes. *)
Theorem frame_round_trip :
  forall {UE} (ext : Externals UE) kv body cw sgw fw cr sgr fr rest,
  m_in cw = Some fw ->
  next_write (f_wr fw) = WrOk ->
  next_write (tl (f_wr fw)) = WrOk ->
  body <> EmptyString ->
  strlen body <= string_max_size ext ->
  strlen body < 2 ^ 64 ->
  let header := DObject (assoc_set "bytes" (DInt (strlen body)) kv) in
  parseJson ext (toJson ext header) = inr header ->
  has_LF (toJson ext header) = false ->
  reply_type ext header = inr "hhas" ->
  m_out cr = Some fr ->
  f_rd fr
  = written_on (fileno fw) (events_of (writeMessage ext (DObject kv) body) cw sgw)
      ++ rest ->
  readProgram ext cr sgr
  = (Ret body,
     set_m_out (Some (mkFILE (fileno fr) rest (f_wr fr))) cr,
     add_events [EvGetline (fileno fr); EvFread (fileno fr) (strlen body)] sgr).
Proof.
  intros UE ext kv body cw sgw fw cr sgr fr rest Hin Hw1 Hw2 Hne Hmax Hsz header
         Hparse Hlf Htype Hout Hrd.
  destruct (writeMessage_written ext cw sgw kv body fw Hin Hw1 Hw2 Hne)
    as (cw' & sgw' & Hwrite & Htrace & _).
  fold header in Hwrite, Htrace.
  rewrite (events_of_add _ _ _ _ _ _ _ Hwrite Htrace) in Hrd.
  destruct (next_write (tl (tl (f_wr fw)))) as [|e3].
  all: unfold flush_event in Hrd.
  all: simpl written_on in Hrd; rewrite Z.eqb_refl in Hrd.
  all: rewrite append_nil_r, !append_assoc in Hrd; simpl in Hrd.
  all: assert (Hb : reply_bytes ext header = inr (strlen body))
         by (apply reply_bytes_set; unfold strlen in *; lia).
  all: assert (Hp : parse ext (toJson ext header) = inr header)
         by (unfold parse; rewrite Hparse; reflexivity).
  all: rewrite (readProgram_hhas ext cr sgr fr (toJson ext header) (body ++ rest)
             header (strlen body) Hout Hlf Hrd Hp Htype Hb Hmax).
  all: rewrite (fread1_exact body rest Hne); reflexivity.
Qed.

Lemma frame_round_trip_witness :
  fst (fst (readProgram Sample.ext
              (Sample.running false (Sample.frame (Sample.hhas 3) "abc" ++ "xyz"))
              (Sample.world0 [])))
  = Ret "abc".
Proof.
  rewrite (frame_round_trip Sample.ext [("type", DString "hhas")] "abc"
             (Sample.running false EmptyString) (Sample.world0 [])
             (mkFILE 10 EmptyString [])
             (Sample.running false (Sample.frame (Sample.hhas 3) "abc" ++ "xyz"))
             (Sample.world0 [])
             (mkFILE 11 (Sample.frame (Sample.hhas 3) "abc" ++ "xyz") []) "xyz");
    try reflexivity; try discriminate.
Defined.

(** ** The worker's handshake and compile, step by step *)

Section WorkerSteps.

Context {UE : Type}.
Variable ext : Externals UE.
Variable ro : RuntimeOption.

(** writeMessage on a stream whose writes all succeed. *)
Lemma writeMessage_ok : forall c sg kv body f,
  m_in c = Some f -> f_wr f = [] ->
  writeMessage ext (DObject kv) body c sg
  = (Ret (DObject (assoc_set "bytes" (DInt (strlen body)) kv)), c,
     add_events
       (frame_events ext (fileno f)
          (DObject (assoc_set "bytes" (DInt (strlen body)) kv)) body) sg).
Proof.
  intros [pid fin fout ver ferr th n opts] sg kv body [fd rd wr] Hin Hwr.
  simpl in Hin, Hwr; subst fin wr.
  unfold writeMessage, set_item, lift, bind, write_in, fflush_in, throwErrno,
    world, throw, ret, frame_events; simpl.
  rewrite toJson_no_nul.
  destruct body as [|a body]; simpl; rewrite ?strlen_pos; simpl.
  all: unfold log_event, add_events; simpl; rewrite <- ?app_assoc; reflexivity.
Qed.

Lemma writeConfigs_ok : forall c sg f,
  m_in c = Some f -> f_wr f = [] ->
  writeConfigs ext ro c sg
  = (Ret tt, c,
     add_events
       (frame_events ext (fileno f)
          (config_header (strlen (boundConfig ro (m_options c))))
          (boundConfig ro (m_options c))
        ++ frame_events ext (fileno f)
             (config_header (strlen (miscConfig ext ro (m_options c))))
             (miscConfig ext ro (m_options c))) sg).
Proof.
  intros c sg f Hin Hwr. unfold writeConfigs. unfold bind at 1, this at 1.
  unfold bind at 1. rewrite (writeMessage_ok c sg _ _ f Hin Hwr).
  unfold bind at 1. rewrite (writeMessage_ok c _ _ _ f Hin Hwr).
  unfold ret. rewrite add_events_app. reflexivity.
Qed.

Lemma compile_send_ok : forall filename md5 code c sg f,
  m_in c = Some f -> f_wr f = [] ->
  compile_send ext filename md5 code c sg
  = (Ret tt, set_m_compilations (unsigned (m_compilations c + 1)) c,
     add_events
       (frame_events ext (fileno f)
          (code_header md5 filename (negb (w_s_inited sg)) (strlen code)) code) sg).
Proof.
  intros filename md5 code c sg f Hin Hwr.
  unfold compile_send. unfold bind at 1, this at 1.
  unfold bind at 1, update at 1.
  unfold writeProgram. unfold bind at 1, world at 1. unfold bind at 1.
  rewrite (writeMessage_ok _ sg _ _ f) by (destruct c; assumption).
  reflexivity.
Qed.

End WorkerSteps.

(** X5.  A spawn that goes through: the subprocess starts, the three pipes
    open, the first stdout line holds a version, and the writes on stdin
    succeed.  Then start() returns with the worker running under the new
    identifier and the version stored, and it has done, in this order:
    proc_open, start of the stderr thread, one line read, a lone newline
    written and flushed, then the two "config" frames, each announcing the
    length of its own body. *)
Theorem start_handshake_sequence :
  forall {UE} (ext : Externals UE) ro c sg pid f_in f_out f_err spawns
         vline rest version,
  m_pid c = kInvalidPid ->
  m_logStderrThread c = false ->
  w_spawns sg = ProcOpen pid (Some f_in) (Some f_out) (Some f_err) :: spawns ->
  pid <> kInvalidPid ->
  f_wr f_in = [] ->
  has_LF vline = false ->
  f_rd f_out = vline ++ String LF rest ->
  version_of_line ext vline = inr version ->
  let bound := boundConfig ro (m_options c) in
  let misc := miscConfig ext ro (m_options c) in
  start ext ro c sg
  = (Ret tt,
     mkExternCompiler pid (Some f_in)
       (Some (mkFILE (fileno f_out) rest (f_wr f_out)))
       version (Some f_err) true (m_compilations c) (m_options c),
     add_events
       ([EvProcOpen (command (m_options c)) pid; EvThreadStart;
         EvGetline (fileno f_out);
         EvWrite (fileno f_in) newline; EvFlush (fileno f_in)]
        ++ frame_events ext (fileno f_in) (config_header (strlen bound)) bound
        ++ frame_events ext (fileno f_in) (config_header (strlen misc)) misc)
       (set_spawns spawns sg)).
Proof.
  intros UE ext ro c sg pid f_in f_out f_err spawns vline rest version
         Hpid Hth Hsp Hne Hwr Hlf Hrd Hv bound misc.
  unfold start. unfold bind at 1, this at 1.
  rewrite Hpid, Z.eqb_refl. change (negb true) with false. cbv iota.
  unfold bind at 1, pipes_and_proc_open. cbv beta. rewrite Hsp.
  unfold bind at 1, update at 1. unfold bind at 1, emit at 1.
  apply Z.eqb_neq in Hne. rewrite Hne, Hth.
  unfold Pipe_detach.
  repeat (unfold bind at 1; first [unfold ret at 1 | unfold update at 1 | unfold emit at 1]).
  unfold bind at 1. unfold try_catch at 1. unfold bind at 1.
  unfold readVersion. unfold bind at 1.
  assert (Hg : getline (f_rd f_out) = Some (vline ++ newline, rest)).
  { rewrite Hrd. apply getline_terminated. exact Hlf. }
  rewrite (readline_out_line ext _ _ f_out (vline ++ newline) rest)
    by (exact Hg || reflexivity).
  rewrite drop_last_newline, Hv. unfold lift, ret. cbv beta iota.
  unfold write_in. cbn [m_in set_m_in set_m_out set_m_version
    set_m_err set_m_logStderrThread set_m_pid]. rewrite Hwr.
  cbv beta iota. cbn [negb]. cbv iota.
  unfold bind at 1, fflush_in. cbn [m_in set_m_in set_m_out set_m_version
    set_m_err set_m_logStderrThread set_m_pid]. cbv beta iota.
  rewrite Hwr. cbv beta iota.
  match goal with
  | |- writeConfigs ext ro ?c1 ?sg1 = _ =>
      rewrite (writeConfigs_ok ext ro c1 sg1 f_in eq_refl Hwr)
  end.
  cbn [m_options]. fold bound misc.
  unfold log_event. rewrite !add_events_app.
  destruct c, sg; reflexivity.
Qed.

Lemma start_handshake_sequence_witness :
  let '(r, c', _) :=
    start Sample.ext Sample.ro (new_ExternCompiler (Sample.options false 2 2))
          (Sample.world0
             [Sample.proc 100 (Sample.frame Sample.version_doc "tail")]) in
  r = Ret tt /\ m_pid c' = 100 /\ m_version c' = "1.0"
  /\ m_out c' = Some (mkFILE 11 "tail" []).
Proof.
  rewrite (start_handshake_sequence Sample.ext Sample.ro
             (new_ExternCompiler (Sample.options false 2 2))
             (Sample.world0
                [Sample.proc 100 (Sample.frame Sample.version_doc "tail")])
             100 (mkFILE 10 EmptyString [])
             (mkFILE 11 (Sample.frame Sample.version_doc "tail") [])
             (mkFILE 12 EmptyString []) []
             (Sample.toJson Sample.version_doc) "tail" "1.0");
    try reflexivity; try discriminate.
  repeat split.
Defined.

(** X6.  A compile call whose preparation and request went through and
    whose reply is a "hhas" frame with a non-empty body hands exactly that
    body to the assembler.  The assembler's unit is the result; a
    std::runtime_error of the assembler is rethrown as it is when verbose
    errors is off, and replaced, when it is on, by one whose message is
    what() of the caught one, that is its message up to the first NUL byte,
    extended with the source and the body; any other exception of the
    assembler passes through.  In every case the worker is left
    running, its stdout right after the body. *)
Theorem compile_reply_assembled :
  forall {UE} (ext : Externals UE) ro filename md5 code
         c0 sg0 c1 sg1 c2 sg2 f hline body rest header,
  compile_prepare ext ro c0 (log_event (EvCompile filename) sg0) = (Ret tt, c1, sg1) ->
  compile_send ext filename md5 code c1 sg1 = (Ret tt, c2, sg2) ->
  m_out c2 = Some f ->
  has_LF hline = false ->
  f_rd f = hline ++ String LF (body ++ rest) ->
  parse ext hline = inr header ->
  reply_type ext header = inr "hhas" ->
  reply_bytes ext header = inr (strlen body) ->
  body <> EmptyString ->
  strlen body <= string_max_size ext ->
  let c3 := set_m_out (Some (mkFILE (fileno f) rest (f_wr f))) c2 in
  let sg3 :=
    add_events [EvGetline (fileno f); EvFread (fileno f) (strlen body)] sg2 in
  isRunning c3 = true
  /\ compile ext ro filename md5 code c0 sg0
     = match assemble_string ext body filename md5 with
       | AsmUnit ue => (Ret ue, c3, sg3)
       | AsmRuntimeError w =>
           if verboseErrors (m_options c2)
           then (Throw (runtime_error (verbose_message (c_str w) code body)), c3,
                 log_event
                   (EvLogger ("ExternCompiler Generated a bad unit: "
                              ++ verbose_message (c_str w) code body)) sg3)
           else (Throw (runtime_error w), c3, sg3)
       | AsmOtherError w => (Throw (other_exception w), c3, sg3)
       end.
Proof.
  intros UE ext ro filename md5 code c0 sg0 c1 sg1 c2 sg2 f hline body rest header
         Hprep Hsend Hf Hlf Hrd Hp Ht Hb Hne Hmax c3 sg3.
  split.
  - pose proof (compile_prepare_ret_running ext ro _ _ _ _ Hprep) as H1.
    pose proof (keeps_pid_compile_send ext filename md5 code c1 sg1) as K.
    rewrite Hsend in K. simpl in K. unfold isRunning in *.
    replace (m_pid c3) with (m_pid c2) by (destruct c2; reflexivity).
    rewrite K. exact H1.
  - rewrite (compile_prepared ext ro filename md5 code c0 sg0 c1 sg1 Hprep).
    assert (Hreq : compile_request ext filename md5 code c1 sg1
                   = (Ret body, c3, sg3)).
    { unfold compile_request. unfold bind at 1. rewrite Hsend.
      rewrite (readProgram_hhas ext c2 sg2 f hline (body ++ rest) header
                 (strlen body) Hf Hlf Hrd Hp Ht Hb Hmax).
      rewrite (fread1_exact body rest Hne). reflexivity. }
    unfold compile_try. unfold bind at 1, try_catch at 1. rewrite Hreq.
    unfold try_catch, lift_assemble.
    assert (Hopt : m_options c3 = m_options c2) by (destruct c2; reflexivity).
    destruct (assemble_string ext body filename md5) as [ue|w|w]; simpl.
    + reflexivity.
    + unfold bind at 1, this at 1. rewrite Hopt.
      destruct (verboseErrors (m_options c2)); reflexivity.
    + reflexivity.
Qed.

Lemma compile_reply_assembled_witness :
  let c0 := Sample.running false (Sample.frame (Sample.hhas 3) "abcdef") in
  let '(r, c', _) :=
    compile Sample.ext Sample.ro "a.hh" "d41d8cd9" "<?hh" c0 (Sample.world0 []) in
  r = Ret "abc" /\ m_out c' = Some (mkFILE 11 "def" []).
Proof.
  intros c0.
  pose (sg0 := Sample.world0 []).
  pose (p1 := compile_prepare Sample.ext Sample.ro c0 (log_event (EvCompile "a.hh") sg0)).
  pose (p2 := compile_send Sample.ext "a.hh" "d41d8cd9" "<?hh" (snd (fst p1)) (snd p1)).
  destruct (compile_reply_assembled Sample.ext Sample.ro "a.hh" "d41d8cd9" "<?hh"
              c0 sg0 (snd (fst p1)) (snd p1) (snd (fst p2)) (snd p2)
              (mkFILE 11 (Sample.frame (Sample.hhas 3) "abcdef") [])
              (Sample.toJson (Sample.hhas 3)) "abc" "def" (Sample.hhas 3))
    as (_ & H); try (vm_compute; reflexivity); try discriminate.
  unfold sg0 in H. rewrite H. vm_compute. split; reflexivity.
Defined.

(** X7.  The restart threshold.  On a running worker, compile's preparation
    does nothing while EvalHackCompilerReset is 0 or the compilation counter
    does not exceed it.  Once the counter exceeds a non-zero threshold, the
    preparation first stops the worker: SIGTERM goes to the old subprocess
    and nothing is spawned during the stop.  Where the stop's join of the
    stderr thread returns and the pipes can be created, proc_open for a new
    subprocess follows; where the join does not return, the preparation
    waits there, the worker's fields reset and its thread still recorded. *)
Theorem compile_prepare_restart :
  forall {UE} (ext : Externals UE) ro c sg,
  isRunning c = true ->
  (EvalHackCompilerReset ro = 0 \/ m_compilations c <= EvalHackCompilerReset ro ->
   compile_prepare ext ro c sg = (Ret tt, c, sg))
  /\ (EvalHackCompilerReset ro <> 0 ->
      EvalHackCompilerReset ro < m_compilations c ->
      (forall e rest, w_spawns sg <> PipeError e :: rest) ->
      exists evs1,
        spawn_count evs1 = O
        /\ if can_join sg c
           then exists pid evs2,
                  w_trace (snd (compile_prepare ext ro c sg))
                  = (w_trace sg ++ EvKill (m_pid c) SIGTERM :: evs1
                       ++ EvProcOpen (command (m_options c)) pid :: evs2)%list
           else exists sg',
                  compile_prepare ext ro c sg = (Halt JoinWait, joining c, sg')
                  /\ w_trace sg'
                     = (w_trace sg ++ EvKill (m_pid c) SIGTERM :: evs1)%list).
Proof.
  intros UE ext ro c sg Hrun. split.
  - intros Hno. unfold compile_prepare. unfold bind at 1, this at 1.
    assert (E : negb (EvalHackCompilerReset ro =? 0)
                && (EvalHackCompilerReset ro <? m_compilations c) = false).
    { destruct Hno as [H0|Hle].
      - rewrite H0. reflexivity.
      - apply andb_false_iff. right. apply Z.ltb_ge. exact Hle. }
    rewrite E. unfold when at 1. unfold bind at 1, ret at 1.
    unfold bind at 1, this at 1. rewrite Hrun. reflexivity.
  - intros Hnz Hlt Hpipe.
    assert (E : negb (EvalHackCompilerReset ro =? 0)
                && (EvalHackCompilerReset ro <? m_compilations c) = true).
    { apply andb_true_iff. split.
      - apply negb_true_iff. apply Z.eqb_neq. exact Hnz.
      - apply Z.ltb_lt. exact Hlt. }
    destruct (stop_run c sg) as (en & evs & Hstop & _ & Hr).
    assert (Hp : m_pid c <> kInvalidPid).
    { unfold isRunning in Hrun. apply negb_true_iff in Hrun.
      apply Z.eqb_neq. exact Hrun. }
    destruct (Hr Hp) as (evs1 & -> & Ht & _).
    exists evs1.
    split; [apply teardown_no_kill; exact Ht|].
    assert (Hprep : compile_prepare ext ro c sg
                    = (r <- stop ;; (fun _ => c0 <- this ;;
                                     when (negb (isRunning c0)) (start ext ro)) r)
                        c sg).
    { unfold compile_prepare. unfold bind at 1, this at 1. rewrite E.
      reflexivity. }
    rewrite Hprep. clear Hprep.
    destruct (can_join sg c); unfold bind at 1; rewrite Hstop.
    + unfold bind at 1, this at 1.
      assert (Hnr : isRunning (stopped c) = false).
      { unfold isRunning. destruct (stopped_fields c) as (-> & _). reflexivity. }
      rewrite Hnr. unfold when. cbn [negb].
      destruct (start_spawn_trace ext ro (stopped c)
                  (set_errno en (add_events (EvKill (m_pid c) SIGTERM :: evs1) sg)))
        as (pid & evs2 & E2).
      * apply stopped_fields.
      * exact Hpipe.
      * assert (Hopt : m_options (stopped c) = m_options c).
        { unfold stopped. destruct (m_pid c =? kInvalidPid); destruct c; reflexivity. }
        rewrite Hopt in E2.
        exists pid, evs2. rewrite E2. simpl.
        rewrite <- app_assoc. reflexivity.
    + eexists. split; reflexivity.
Qed.

Lemma compile_prepare_restart_witness :
  let c := set_m_compilations 7 (Sample.running false EmptyString) in
  let ro := mkRuntimeOption 5 EmptyString (DArray []) in
  exists evs1 pid evs2,
    w_trace (snd (compile_prepare Sample.ext ro c
                    (Sample.world0 [Sample.proc 101 EmptyString])))
    = (EvKill 4242 SIGTERM :: evs1 ++ EvProcOpen "hackc" pid :: evs2)%list.
Proof.
  intros c ro.
  destruct (compile_prepare_restart Sample.ext ro c
              (Sample.world0 [Sample.proc 101 EmptyString]) eq_refl)
    as (_ & H).
  destruct H as (evs1 & _ & H).
  - discriminate.
  - reflexivity.
  - intros e rest; discriminate.
  - change (can_join _ _) with true in H. cbv iota in H.
    destruct H as (pid & evs2 & E).
    exists evs1, pid, evs2. exact E.
Defined.

(** ** Leases *)

Lemma store_store {A} id (v1 v2 : A) l :
  store id v2 (store id v1 l) = store id v2 l.
Proof.
  revert id; induction l as [|a l IH]; intros [|id]; simpl; auto.
  rewrite IH. reflexivity.
Qed.

Lemma release_after_get : forall p id c p1 c',
  0 < m_freeCount p < 2 ^ 64 ->
  getCompiler_locked p = (Some (id, c), p1) ->
  releaseCompiler_locked id c' p1
  = set_m_compilers (store id (Some c') (m_compilers p)) p.
Proof.
  intros p id c p1 c' Hfc Hget.
  pose proof (getCompiler_locked_spec p) as Hspec. rewrite Hget in Hspec.
  destruct Hspec as (_ & _ & ->).
  unfold releaseCompiler_locked, set_m_compilers, set_m_freeCount; simpl.
  rewrite store_store. unfold size_t.
  rewrite (Z.mod_small (m_freeCount p - 1)) by lia.
  replace (m_freeCount p - 1 + 1) with (m_freeCount p) by lia.
  rewrite Z.mod_small by lia. reflexivity.
Qed.

Lemma guard_lemma :
  forall {A} (body : M ExternCompiler A) p sg id c p1,
  0 < m_freeCount p < 2 ^ 64 ->
  getCompiler_locked p = (Some (id, c), p1) ->
  with_CompilerGuard body p sg
  = match body c (log_event (EvGetCompiler id) sg) with
    | (Halt h, _, sgb) => (Halt h, p1, sgb)
    | (rb, c', sgb) =>
        (rb, set_m_compilers (store id (Some c') (m_compilers p)) p,
         log_event (EvReleaseCompiler id) sgb)
    end.
Proof.
  intros A body p sg id c p1 Hfc Hget.
  destruct (body c (log_event (EvGetCompiler id) sg)) as [[rb c'] sgb] eqn:Hb.
  unfold with_CompilerGuard. unfold bind at 1.
  assert (Hne : m_freeCount p <> 0) by lia.
  unfold getCompiler. unfold bind at 1, this at 1.
  apply Z.eqb_neq in Hne. rewrite Hne, Hget.
  unfold bind, update, emit, ret. cbv beta iota. rewrite Hb.
  unfold releaseCompiler, bind, update, emit.
  rewrite (release_after_get p id c p1 c' Hfc Hget).
  destruct rb; reflexivity.
Qed.

(** X8.  The lease guard.  Whatever is run under a CompilerGuard on a pool
    with a free worker, when it returns or throws the pool is as before the
    call (same free count, same other slots) with the worker, as the body
    left it, back in the slot it was taken from; the body's result or
    exception is the call's.  Only a body that never returns keeps the
    lease. *)
Theorem guard_returns_worker :
  forall {A} (body : M ExternCompiler A) p sg id c p1,
  0 < m_freeCount p < 2 ^ 64 ->
  getCompiler_locked p = (Some (id, c), p1) ->
  let '(rb, c', sgb) := body c (log_event (EvGetCompiler id) sg) in
  with_CompilerGuard body p sg
  = match rb with
    | Halt h => (Halt h, p1, sgb)
    | _ => (rb, set_m_compilers (store id (Some c') (m_compilers p)) p,
            log_event (EvReleaseCompiler id) sgb)
    end.
Proof.
  intros A body p sg id c p1 Hfc Hget.
  rewrite (guard_lemma body p sg id c p1 Hfc Hget).
  destruct (body c (log_event (EvGetCompiler id) sg)) as [[[a|e|h] c'] sgb];
    reflexivity.
Qed.

Lemma guard_returns_worker_witness :
  let p := start_slots (new_CompilerPool (Sample.options false 2 2)) in
  let '(r, p', _) :=
    with_CompilerGuard (throw (other_exception "boom") : M ExternCompiler unit)
                       p (Sample.world0 []) in
  r = Throw (other_exception "boom") /\ p' = p.
Proof.
  intros p.
  generalize (guard_returns_worker
                (throw (other_exception "boom") : M ExternCompiler unit)
                p (Sample.world0 []) 0%nat
                (new_ExternCompiler (Sample.options false 2 2))
                (snd (getCompiler_locked p))).
  cbv zeta. simpl throw.
  intros H. rewrite H; [split; reflexivity| |reflexivity].
  split; reflexivity.
Defined.

Lemma scan_from_first : forall rest pre,
  (forall j, (j < List.length pre)%nat -> load j (pre ++ rest) = None) ->
  match scan_from (List.length pre) (List.length rest) (pre ++ rest) with
  | (Some (id, _), _) =>
      forall j, (j < id)%nat -> load j (pre ++ rest) = None
  | (None, _) => True
  end.
Proof.
  induction rest as [|x rest IH]; intros pre Hpre; simpl.
  - exact I.
  - rewrite load_app, store_app. destruct x as [c|].
    + exact Hpre.
    + specialize (IH (pre ++ [None])%list).
      rewrite length_app, Nat.add_1_r, <- app_assoc in IH. simpl in IH.
      apply IH. intros j Hj.
      destruct (Nat.eq_dec j (List.length pre)) as [->|Hneq].
      * apply load_app.
      * apply Hpre. lia.
Qed.

(** X9.  getCompiler leases the non-empty slot of lowest index: the slot it
    returns held the worker it returns, every slot before it was empty, and
    the only change to the slots is that this one is emptied. *)
Theorem getCompiler_first_fit : forall p id c p',
  getCompiler_locked p = (Some (id, c), p') ->
  load id (m_compilers p) = Some c
  /\ (forall j, (j < id)%nat -> load j (m_compilers p) = None)
  /\ m_compilers p' = store id None (m_compilers p).
Proof.
  intros p id c p' Hget.
  pose proof (getCompiler_locked_spec p) as Hspec. rewrite Hget in Hspec.
  destruct Hspec as (Hload & _ & Hp').
  split; [exact Hload|]. split; [|rewrite Hp'; reflexivity].
  pose proof (scan_from_first (m_compilers p) []) as Hfirst. simpl in Hfirst.
  unfold getCompiler_locked in Hget. simpl in Hget.
  destruct (scan_from 0 (List.length (m_compilers p)) (m_compilers p))
    as [[[id0 c0]|] cs'].
  - inversion Hget; subst. apply Hfirst. intros j Hj. lia.
  - discriminate.
Qed.

Lemma getCompiler_first_fit_witness :
  let c := new_ExternCompiler (Sample.options false 2 3) in
  let p := mkCompilerPool (Sample.options false 2 3) 2 [None; Some c; Some c]
                          EmptyString in
  fst (getCompiler_locked p) = Some (1%nat, c)
  /\ load 0 (m_compilers p) = None.
Proof.
  intros c p.
  destruct (getCompiler_first_fit p 1%nat c (snd (getCompiler_locked p)) eq_refl)
    as (_ & H & _).
  split; [reflexivity|]. apply H. constructor.
Defined.

(** ** Starting the pool *)

Lemma start_slots_new : forall options,
  1 <= workers options ->
  start_slots (new_CompilerPool options)
  = mkCompilerPool options (workers options)
      (Some (new_ExternCompiler options)
         :: repeat (Some (new_ExternCompiler options))
                   (Z.to_nat (workers options) - 1))
      EmptyString.
Proof.
  intros options Hw.
  pose proof (fill_from_spec options (Z.to_nat (workers options)) []
                (repeat None (Z.to_nat (workers options)))
                (repeat_length _ _)) as Hfill.
  cbn [List.length app] in Hfill.
  unfold start_slots, new_CompilerPool.
  cbn [m_compilers m_freeCount pool_options set_m_compilers set_m_freeCount
       pool_version].
  rewrite Hfill. unfold set_m_compilers, set_m_freeCount; simpl.
  destruct (Z.to_nat (workers options)) as [|n] eqn:En; [lia|].
  simpl. rewrite Nat.sub_0_r. reflexivity.
Qed.

Lemma CompilerPool_start_new_run :
  forall {UE} (ext : Externals UE) ro options sg r c' sg',
  1 <= workers options < 2 ^ 64 ->
  start ext ro (new_ExternCompiler options) (log_event (EvGetCompiler 0) sg)
  = (r, c', sg') ->
  let others :=
    repeat (Some (new_ExternCompiler options)) (Z.to_nat (workers options) - 1) in
  CompilerPool_start ext ro (new_CompilerPool options) sg
  = match r with
    | Ret _ =>
        (Ret tt,
         mkCompilerPool options (workers options) (Some c' :: others) (m_version c'),
         log_event (EvReleaseCompiler 0) sg')
    | Throw e =>
        (Throw e,
         mkCompilerPool options (workers options) (Some c' :: others) EmptyString,
         log_event (EvReleaseCompiler 0) sg')
    | Halt h =>
        (Halt h,
         mkCompilerPool options (workers options - 1) (None :: others) EmptyString,
         sg')
    end.
Proof.
  intros UE ext ro options sg r c' sg' Hw Hstart others.
  set (fresh := new_ExternCompiler options) in *.
  unfold CompilerPool_start. unfold bind at 1, update at 1.
  rewrite (start_slots_new options) by lia. fold fresh. fold others.
  set (p := mkCompilerPool options (workers options) (Some fresh :: others)
                           EmptyString).
  assert (Hget : getCompiler_locked p
                 = (Some (0%nat, fresh),
                    mkCompilerPool options (workers options - 1) (None :: others)
                                   EmptyString)).
  { unfold getCompiler_locked, p; simpl.
    unfold set_m_compilers, set_m_freeCount, size_t; simpl.
    rewrite Z.mod_small by lia. reflexivity. }
  assert (Hfc : 0 < m_freeCount p < 2 ^ 64) by (simpl; lia).
  pose proof (guard_lemma (getVersionString ext ro) p sg 0%nat fresh _ Hfc Hget)
    as Hguard.
  assert (Hgv : getVersionString ext ro fresh (log_event (EvGetCompiler 0) sg)
                = match r with
                  | Ret _ => (Ret (m_version c'), c', sg')
                  | Throw e => (Throw e, c', sg')
                  | Halt h => (Halt h, c', sg')
                  end).
  { unfold getVersionString. unfold bind at 1, this at 1.
    unfold bind at 1. change (isRunning fresh) with false. unfold when.
    cbn [negb]. rewrite Hstart. destruct r as [[]|e|h]; reflexivity. }
  rewrite Hgv in Hguard. unfold bind at 1.
  destruct r as [[]|e|h]; rewrite Hguard; reflexivity.
Qed.

(** X10.  CompilerPool::start on a new pool of at least one worker creates
    every worker, then starts the worker of slot 0 and no other.  If that
    start returns, the pool's version is that worker's and all workers are in
    their slots with the free count at the worker count; if it throws, the
    exception leaves start with all workers in their slots too and the
    version empty; the other workers are as constructed, not started. *)
Theorem CompilerPool_start_first_worker :
  forall {UE} (ext : Externals UE) ro options sg,
  1 <= workers options < 2 ^ 64 ->
  let fresh := new_ExternCompiler options in
  let others := repeat (Some fresh) (Z.to_nat (workers options) - 1) in
  let '(r, c', sg') := start ext ro fresh (log_event (EvGetCompiler 0) sg) in
  CompilerPool_start ext ro (new_CompilerPool options) sg
  = match r with
    | Ret _ =>
        (Ret tt,
         mkCompilerPool options (workers options) (Some c' :: others) (m_version c'),
         log_event (EvReleaseCompiler 0) sg')
    | Throw e =>
        (Throw e,
         mkCompilerPool options (workers options) (Some c' :: others) EmptyString,
         log_event (EvReleaseCompiler 0) sg')
    | Halt h =>
        (Halt h,
         mkCompilerPool options (workers options - 1) (None :: others) EmptyString,
         sg')
    end.
Proof.
  intros UE ext ro options sg Hw fresh others.
  destruct (start ext ro fresh (log_event (EvGetCompiler 0) sg))
    as [[r c'] sg'] eqn:Hstart.
  exact (CompilerPool_start_new_run ext ro options sg r c' sg' Hw Hstart).
Qed.

Lemma CompilerPool_start_first_worker_witness :
  let '(r, p', sg') :=
    CompilerPool_start Sample.ext Sample.ro
      (new_CompilerPool (Sample.options false 2 2))
      (Sample.world0 [Sample.proc 100 (Sample.frame Sample.version_doc EmptyString)]) in
  r = Ret tt /\ pool_version p' = "1.0" /\ m_freeCount p' = 2
  /\ spawn_count (w_trace sg') = 1%nat.
Proof.
  assert (Hw : 1 <= workers (Sample.options false 2 2) < 2 ^ 64)
    by (split; [discriminate|reflexivity]).
  pose proof (CompilerPool_start_first_worker Sample.ext Sample.ro
                (Sample.options false 2 2)
                (Sample.world0
                   [Sample.proc 100 (Sample.frame Sample.version_doc EmptyString)])
                Hw) as T.
  cbv zeta in T.
  destruct (start Sample.ext Sample.ro _ _) as [[r c'] sg'] eqn:E in T.
  vm_compute in E. inversion E; subst. rewrite T.
  vm_compute. repeat split.
Defined.

(** ** The retry loop and exceptions that are not transport errors *)

Section RetryOther.

Context {UE : Type}.
Variable ext : Externals UE.
Variable ro : RuntimeOption.

Lemma retry_loop_other : forall f md5 code verbose fuel max retry err c sg e c' sg',
  retry < max ->
  is_CompileException e = false ->
  compile ext ro f md5 code c sg = (Throw e, c', sg') ->
  retry_loop ext ro f md5 code verbose (S fuel) max retry err c sg
  = match e with
    | runtime_error w => (Ret (inr (c_str w)), c', sg')
    | _ => (Throw e, c', sg')
    end.
Proof.
  intros * Hlt He Hc. simpl. apply Z.ltb_lt in Hlt. rewrite Hlt.
  unfold try_catch, bind. rewrite Hc.
  destruct e; try reflexivity. discriminate.
Qed.

End RetryOther.

(** X11.  In the pool's compile, when some attempts (fewer than the bound)
    have failed with CompileExceptions and the next one throws something
    else, the call ends there: a std::runtime_error becomes the error result,
    by what() of it alone, that is its message up to the first NUL byte (the
    transport messages gathered so far are dropped), and any other exception, such as the BadCompilerException of a
    failed respawn, leaves the call.  Either way the worker goes back to its
    slot. *)
Theorem pool_compile_non_transport :
  forall {UE} (ext : Externals UE) ro code filename md5 p sg id c p1
         ws c2 sg2 e c3 sg3,
  0 < m_freeCount p < 2 ^ 64 ->
  getCompiler_locked p = (Some (id, c), p1) ->
  transport_failures ext ro filename md5 code c (log_event (EvGetCompiler id) sg)
                     ws c2 sg2 ->
  Z.of_nat (List.length ws) < max_attempts (pool_options p) ->
  is_CompileException e = false ->
  compile ext ro filename md5 code c2 sg2 = (Throw e, c3, sg3) ->
  CompilerPool_compile ext ro code filename md5 p sg
  = (match e with
     | runtime_error w => Ret (inr (c_str w))
     | _ => Throw e
     end,
     set_m_compilers (store id (Some c3) (m_compilers p)) p,
     log_event (EvReleaseCompiler id) sg3).
Proof.
  intros UE ext ro code filename md5 p sg id c p1 ws c2 sg2 e c3 sg3
         Hfc Hget Hf Hlen He Hc.
  assert (Hne : m_freeCount p <> 0) by lia.
  rewrite (CompilerPool_compile_run ext ro code filename md5 p sg id c p1 Hne Hget).
  set (max := max_attempts (pool_options p)) in *.
  replace (S (Z.to_nat max))
    with (List.length ws + S (Z.to_nat max - List.length ws))%nat by lia.
  rewrite (retry_loop_failures ext ro filename md5 code _ c _ ws c2 sg2 Hf) by lia.
  rewrite (retry_loop_other ext ro filename md5 code _ _ max _ _ c2 sg2 e c3 sg3)
    by (assumption || lia).
  destruct e; try discriminate; cbv beta iota;
    rewrite (release_after_get p id c p1 c3 Hfc Hget); reflexivity.
Qed.

Lemma pool_compile_non_transport_witness :
  let p := start_slots (new_CompilerPool (Sample.options false 2 2)) in
  let sg := Sample.world0
              [Sample.proc 100 (Sample.frame Sample.version_doc EmptyString)] in
  let '(r, p', _) :=
    CompilerPool_compile Sample.ext Sample.ro "<?hh" "a.hh" "d41d8cd9" p sg in
  r = Throw (BadCompilerException
               "Unable to start external compiler with command: hackc")
  /\ m_freeCount p' = 2.
Proof.
  intros p sg.
  pose (c := new_ExternCompiler (Sample.options false 2 2)).
  pose (sg1 := log_event (EvGetCompiler 0) sg).
  pose (r1 := compile Sample.ext Sample.ro "a.hh" "d41d8cd9" "<?hh" c sg1).
  pose (r2 := compile Sample.ext Sample.ro "a.hh" "d41d8cd9" "<?hh"
                (snd (fst r1)) (snd r1)).
  rewrite (pool_compile_non_transport Sample.ext Sample.ro "<?hh" "a.hh" "d41d8cd9"
             p sg 0%nat c (snd (getCompiler_locked p))
             ["error reading line: errno 0"] (snd (fst r1)) (snd r1)
             (BadCompilerException
                "Unable to start external compiler with command: hackc")
             (snd (fst r2)) (snd r2)).
  - split; reflexivity.
  - split; reflexivity.
  - reflexivity.
  - eapply failures_cons; [|apply failures_nil]. vm_compute. reflexivity.
  - reflexivity.
  - reflexivity.
  - vm_compute. reflexivity.
Defined.

(** ** Shutting the pool down *)

Lemma kills_app : forall evs1 evs2, kills (evs1 ++ evs2) = (kills evs1 ++ kills evs2)%list.
Proof.
  induction evs1 as [|e evs1 IH]; intros; simpl; [reflexivity|].
  destruct e; simpl; rewrite ?IH; reflexivity.
Qed.

Lemma spawn_count_app : forall evs1 evs2,
  spawn_count (evs1 ++ evs2) = (spawn_count evs1 + spawn_count evs2)%nat.
Proof.
  induction evs1 as [|e evs1 IH]; intros; simpl; [reflexivity|].
  destruct e; simpl; rewrite ?IH; reflexivity.
Qed.

Lemma world_after_two : forall en1 evs1 en2 evs2 sg,
  set_errno en2 (add_events evs2 (set_errno en1 (add_events evs1 sg)))
  = set_errno en2 (add_events (evs1 ++ evs2) sg).
Proof.
  intros. unfold set_errno, add_events; simpl. rewrite app_assoc. reflexivity.
Qed.

Lemma slot_can_join_frame : forall en evs sg slot,
  slot_can_join (set_errno en (add_events evs sg)) slot = slot_can_join sg slot.
Proof. intros en evs sg [c|]; reflexivity. Qed.

Lemma all_can_join_frame : forall en evs sg cs,
  all_can_join (set_errno en (add_events evs sg)) cs = all_can_join sg cs.
Proof.
  intros en evs sg cs. unfold all_can_join.
  induction cs as [|slot cs IH]; simpl; [reflexivity|].
  rewrite IH, slot_can_join_frame. reflexivity.
Qed.

Lemma shutdown_reach_frame : forall en evs sg cs,
  shutdown_reach (set_errno en (add_events evs sg)) cs = shutdown_reach sg cs.
Proof.
  intros en evs sg cs.
  induction cs as [|slot cs IH]; simpl; [reflexivity|].
  rewrite IH, slot_can_join_frame. reflexivity.
Qed.

Lemma shutdown_reach_all : forall sg cs,
  all_can_join sg cs = true -> shutdown_reach sg cs = cs.
Proof.
  intros sg cs. unfold all_can_join.
  induction cs as [|slot cs IH]; simpl; [reflexivity|].
  intros H. apply andb_true_iff in H. destruct H as (H1 & H2).
  rewrite H1, (IH H2). reflexivity.
Qed.

(** [delete c] in normal mode: the worker's destructor returns when the
    join of its stop() does, having sent SIGTERM to its subprocess if it was
    running and spawned nothing. *)
Lemma delete_events : forall {X} (slot : option ExternCompiler) (x : X) sg,
  exists en evs,
    delete slot x sg
    = (if slot_can_join sg slot then Ret tt else Halt JoinWait, x,
       set_errno en (add_events evs sg))
    /\ kills evs = running_pids [slot]
    /\ spawn_count evs = O.
Proof.
  intros X [c|] x sg.
  - unfold delete, destroy, bind.
    destruct (stop_events c sg) as (en & evs & -> & Hk & Hs).
    exists en, evs. cbn [slot_can_join].
    split; [|split; [|exact Hs]].
    + destruct (can_join sg c); [|reflexivity].
      unfold this. destruct (stopped_fields c) as (_ & _ & ->). reflexivity.
    + rewrite Hk. simpl. destruct (isRunning c); reflexivity.
  - exists (w_errno sg), []. simpl. rewrite add_events_nil.
    destruct sg; repeat split.
Qed.

Lemma running_pids_cons : forall slot rest,
  running_pids (slot :: rest) = (running_pids [slot] ++ running_pids rest)%list.
Proof.
  intros [c|] rest; simpl; [|reflexivity].
  destruct (isRunning c); reflexivity.
Qed.

(** The loop of shutdown in normal mode: it empties the slots it gets to and
    stops their workers, and it gets to every slot unless the join of some
    worker's stop() does not return. *)
Lemma shutdown_from_normal : forall rest pre p sg,
  m_compilers p = (pre ++ rest)%list ->
  let reach := shutdown_reach sg rest in
  exists en evs,
    shutdown_from false (List.length pre) (List.length rest) p sg
    = (if all_can_join sg rest then Ret tt else Halt JoinWait,
       set_m_compilers
         (pre ++ repeat None (List.length reach)
              ++ skipn (List.length reach) rest) p,
       set_errno en (add_events evs sg))
    /\ kills evs = running_pids reach
    /\ spawn_count evs = O.
Proof.
  induction rest as [|slot rest IH]; intros pre p sg Hcs; cbv zeta.
  - exists (w_errno sg), []. simpl. rewrite add_events_nil.
    rewrite app_nil_r in *. destruct p, sg; simpl in *; subst. repeat split.
  - cbn [List.length shutdown_from].
    unfold bind at 1, this at 1. unfold bind at 1, update at 1.
    rewrite Hcs, load_app, store_app.
    unfold bind at 1, ret at 1. unfold bind at 1.
    destruct (delete_events slot
                (set_m_compilers (pre ++ None :: rest) p) sg)
      as (en1 & evs1 & -> & Hk1 & Hs1).
    unfold all_can_join. cbn [forallb shutdown_reach].
    destruct (slot_can_join sg slot); cbn [andb].
    + specialize (IH (pre ++ [None])%list
                     (set_m_compilers (pre ++ None :: rest) p)
                     (set_errno en1 (add_events evs1 sg))).
      rewrite length_app, Nat.add_1_r, <- app_assoc in IH. simpl in IH.
      destruct (IH eq_refl) as (en2 & evs2 & -> & Hk2 & Hs2).
      rewrite all_can_join_frame, shutdown_reach_frame in *.
      exists en2, (evs1 ++ evs2)%list.
      rewrite world_after_two, kills_app, spawn_count_app, Hk1, Hk2, Hs1, Hs2.
      rewrite (running_pids_cons slot (shutdown_reach sg rest)).
      split; [|split; reflexivity].
      destruct p; unfold set_m_compilers, all_can_join;
        cbn [List.length repeat skipn app];
        rewrite <- app_assoc; reflexivity.
    + exists en1, evs1. split; [|split; [|exact Hs1]].
      * destruct p; reflexivity.
      * rewrite Hk1. reflexivity.
Qed.

(** X12.  shutdown in normal mode goes through the slots in order; for each
    it empties the slot and stops the worker found there, and it moves on
    when that stop's join of the stderr thread returns.  So it returns
    exactly when the join returns for every worker in a slot, and then every
    slot is empty and SIGTERM has gone to the subprocess of each running
    worker found in a slot, once, in slot order.  Otherwise it waits in the
    join of the first worker whose join does not return: the slots up to
    that one are empty, the later ones untouched, and SIGTERM has gone to
    the running workers of the slots reached.  Either way the other fields
    of the pool, the free count among them, are as they were, no other
    process is signalled and nothing is spawned. *)
Theorem shutdown_normal_mode : forall p sg,
  let cs := m_compilers p in
  let reach := shutdown_reach sg cs in
  exists en evs,
    spawn_count evs = O
    /\ kills evs = running_pids reach
    /\ if all_can_join sg cs
       then CompilerPool_shutdown false p sg
            = (Ret tt,
               set_m_compilers (repeat None (List.length cs)) p,
               set_errno en (add_events evs sg))
            /\ reach = cs
       else CompilerPool_shutdown false p sg
            = (Halt JoinWait,
               set_m_compilers
                 (repeat None (List.length reach)
                    ++ skipn (List.length reach) cs) p,
               set_errno en (add_events evs sg)).
Proof.
  intros p sg cs reach.
  assert (Hsh : CompilerPool_shutdown false p sg
                = shutdown_from false 0 (List.length cs) p sg) by reflexivity.
  rewrite Hsh. clear Hsh.
  destruct (shutdown_from_normal (m_compilers p) [] p sg eq_refl)
    as (en & evs & Hrun & Hk & Hs).
  fold cs in Hrun, Hk. fold reach in Hrun, Hk.
  exists en, evs. split; [exact Hs|]. split; [exact Hk|].
  cbn [List.length app] in Hrun. rewrite Hrun.
  destruct (all_can_join sg cs) eqn:Hall; [|reflexivity].
  assert (Hreach : reach = cs) by (apply shutdown_reach_all; exact Hall).
  split; [|exact Hreach].
  rewrite Hreach, skipn_all, app_nil_r. reflexivity.
Qed.

Lemma shutdown_from_detach_result : forall rest pre p sg,
  m_compilers p = (pre ++ rest)%list ->
  fst (fst (shutdown_from true (List.length pre) (List.length rest) p sg))
  = if forallb occupied rest then Ret tt else Halt NullDeref.
Proof.
  induction rest as [|slot rest IH]; intros pre p sg Hcs.
  - reflexivity.
  - cbn [List.length shutdown_from forallb].
    unfold bind at 1, this at 1. unfold bind at 1, update at 1.
    rewrite Hcs, load_app, store_app.
    destruct slot as [c|]; cbn [occupied andb].
    + unfold bind at 1, ret at 1. unfold bind at 1, delete at 1.
      destruct (destroy_sentinel (set_m_pid kInvalidPid c) sg eq_refl)
        as (evs1 & -> & _).
      specialize (IH (pre ++ [None])%list
                     (set_m_compilers (pre ++ None :: rest) p)
                     (add_events evs1 sg)).
      rewrite length_app, Nat.add_1_r, <- app_assoc in IH. simpl in IH.
      apply IH. reflexivity.
    + reflexivity.
Qed.

(** X13.  shutdown in detach mode returns when every slot holds its worker.
    When some slot is empty, because its worker is leased, it calls
    detach_from_process() through the null pointer taken from that slot. *)
Theorem shutdown_detach_mode_needs_all_workers : forall p sg,
  fst (fst (CompilerPool_shutdown true p sg))
  = if forallb occupied (m_compilers p) then Ret tt else Halt NullDeref.
Proof.
  intros p sg. unfold CompilerPool_shutdown. unfold bind at 1, this at 1.
  exact (shutdown_from_detach_result (m_compilers p) [] p sg eq_refl).
Qed.

(** ** Recognising Hack files *)

Local Ltac found := repeat eexists; first [reflexivity | eassumption | exact I].

Lemma strncmp_eq0_in_bounds : forall n big small,
  (n <= String.length big)%nat ->
  exists b, strncmp_eq0 big small n = Some b.
Proof.
  induction n as [|n IH]; intros big small Hn; simpl; [found|].
  destruct big as [|b big]; simpl in Hn; [lia|].
  destruct small as [|s small]; [found|].
  destruct (Ascii.eqb b s); [|found].
  destruct (Ascii.eqb b NUL); [found|].
  apply IH. lia.
Qed.

Lemma strncmp_eq0_prefix : forall n big small rest,
  (n <= String.length big)%nat ->
  strncmp_eq0 (big ++ rest) small n = strncmp_eq0 big small n.
Proof.
  induction n as [|n IH]; intros big small rest Hn; simpl; [reflexivity|].
  destruct big as [|b big]; simpl in Hn; [lia|]. simpl.
  destruct small as [|s small]; [reflexivity|].
  destruct (Ascii.eqb b s); [|reflexivity].
  destruct (Ascii.eqb b NUL); [reflexivity|].
  apply IH. lia.
Qed.

Lemma memchr_in_bounds : forall n s c,
  (n <= String.length s)%nat ->
  exists r, memchr s c n = Some r
            /\ match r with Some i => (i < n)%nat | None => True end.
Proof.
  induction n as [|n IH]; intros s c Hn; simpl; [found|].
  destruct s as [|b s]; simpl in Hn; [lia|].
  destruct (Ascii.eqb b c); [exists (Some O); split; [reflexivity|lia]|].
  destruct (IH s c ltac:(lia)) as ([i|] & -> & Hi);
    [exists (Some (S i)); split; [reflexivity|lia] | found].
Qed.

Lemma memchr_prefix : forall n s c rest,
  (n <= String.length s)%nat ->
  memchr (s ++ rest) c n = memchr s c n.
Proof.
  induction n as [|n IH]; intros s c rest Hn; simpl; [reflexivity|].
  destruct s as [|b s]; simpl in Hn; [lia|]. simpl.
  destruct (Ascii.eqb b c); [reflexivity|].
  rewrite IH by lia. reflexivity.
Qed.

Lemma advance_length : forall n s,
  (n <= String.length s)%nat ->
  String.length (advance n s) = (String.length s - n)%nat.
Proof.
  induction n as [|n IH]; intros s Hn; simpl; [lia|].
  destruct s as [|b s]; simpl in *; [lia|]. apply IH. lia.
Qed.

Lemma advance_append : forall n s rest,
  (n <= String.length s)%nat ->
  advance n (s ++ rest) = advance n s ++ rest.
Proof.
  induction n as [|n IH]; intros s rest Hn; simpl; [reflexivity|].
  destruct s as [|b s]; simpl in *; [lia|]. apply IH. lia.
Qed.

Lemma isFileHack_tail_in_bounds : forall code codeLen,
  codeLen <= strlen code ->
  exists b, isFileHack_tail code codeLen = Some b.
Proof.
  intros code codeLen Hlen. unfold isFileHack_tail.
  destruct (strlen "<?hh" <? codeLen) eqn:E; [|found].
  apply Z.ltb_lt in E. unfold startsWith.
  apply strncmp_eq0_in_bounds. unfold strlen in *. simpl in *. lia.
Qed.

Lemma isFileHack_tail_prefix : forall code rest codeLen,
  codeLen <= strlen code ->
  isFileHack_tail (code ++ rest) codeLen = isFileHack_tail code codeLen.
Proof.
  intros code rest codeLen Hlen. unfold isFileHack_tail.
  destruct (strlen "<?hh" <? codeLen) eqn:E; [|reflexivity].
  apply Z.ltb_lt in E. unfold startsWith.
  apply strncmp_eq0_prefix. unfold strlen in *. simpl in *. lia.
Qed.

(** X14.  isFileHack reads none of the bytes beyond the first codeLen: when
    that many bytes are readable it returns a result, and the result is the
    same whatever follows them in memory. *)
Theorem isFileHack_reads_within_codeLen : forall code beyond,
  strlen code < 2 ^ 64 ->
  exists b,
    isFileHack code (strlen code) = Some b
    /\ isFileHack (code ++ beyond) (strlen code) = Some b.
Proof.
  intros code beyond Hmax.
  assert (Hlen : 0 <= strlen code) by (unfold strlen; lia).
  unfold isFileHack.
  destruct (2 <? strlen code) eqn:E2.
  - apply Z.ltb_lt in E2.
    assert (H2 : (2 <= String.length code)%nat) by (unfold strlen in *; lia).
    rewrite (strncmp_eq0_prefix 2 code "#!" beyond H2).
    destruct (strncmp_eq0_in_bounds 2 code "#!" H2) as ([|] & ->).
    + assert (Hn : (Z.to_nat (strlen code) <= String.length code)%nat)
        by (unfold strlen; lia).
      rewrite (memchr_prefix _ code LF beyond Hn).
      destruct (memchr_in_bounds _ code LF Hn) as ([loc|] & -> & Hloc);
        [|found].
      assert (Hl : (S loc <= String.length code)%nat) by (unfold strlen in *; lia).
      rewrite (advance_append (S loc) code beyond Hl).
      assert (Hfit : size_t (strlen code - (Z.of_nat loc + 1))
                     <= strlen (advance (S loc) code)).
      { unfold size_t, strlen in *. rewrite (advance_length _ _ Hl).
        rewrite Z.mod_small by lia. lia. }
      rewrite (isFileHack_tail_prefix _ beyond _ Hfit).
      destruct (isFileHack_tail_in_bounds _ _ Hfit) as (b & ->). exists b; split; reflexivity.
    + rewrite (isFileHack_tail_prefix code beyond _ (Z.le_refl _)).
      destruct (isFileHack_tail_in_bounds code _ (Z.le_refl _)) as (b & ->).
      exists b; split; reflexivity.
  - rewrite (isFileHack_tail_prefix code beyond _ (Z.le_refl _)).
    destruct (isFileHack_tail_in_bounds code _ (Z.le_refl _)) as (b & ->).
      exists b; split; reflexivity.
Qed.

Lemma isFileHack_reads_within_codeLen_witness :
  exists b,
    isFileHack "<?hh echo 1;" (strlen "<?hh echo 1;") = Some b
    /\ isFileHack ("<?hh echo 1;" ++ "garbage") (strlen "<?hh echo 1;") = Some b.
Proof.
  apply (isFileHack_reads_within_codeLen "<?hh echo 1;" "garbage").
  vm_compute. reflexivity.
Defined.

Lemma strncmp_eq0_is_prefix : forall small big,
  c_str small = small ->
  (String.length small <= String.length big)%nat ->
  strncmp_eq0 big small (String.length small) = Some (prefix small big).
Proof.
  induction small as [|s small IH]; intros big Hnul Hlen;
    [destruct big; reflexivity|].
  destruct big as [|b big]; simpl in Hlen; [lia|].
  simpl in Hnul. destruct (Ascii.eqb s NUL) eqn:Es; [discriminate|].
  injection Hnul as Hnul. simpl.
  destruct (Ascii.eqb_spec b s) as [->|Hne].
  - rewrite Es. destruct (ascii_dec s s) as [_|Hn]; [|congruence].
    apply IH; [exact Hnul | lia].
  - destruct (ascii_dec s b) as [Heq|_]; [congruence|reflexivity].
Qed.

(** Past the shebang line, a file is Hack when it is longer than the marker
    and begins with it. *)
Lemma isFileHack_tail_spec : forall code,
  isFileHack_tail code (strlen code)
  = Some ((4 <? strlen code) && prefix "<?hh" code).
Proof.
  intros code. unfold isFileHack_tail.
  change (strlen "<?hh") with 4.
  destruct (4 <? strlen code) eqn:E; [|reflexivity].
  apply Z.ltb_lt in E. unfold startsWith.
  apply strncmp_eq0_is_prefix; [reflexivity|].
  unfold strlen in E. simpl. lia.
Qed.

Lemma memchr_first : forall l rest n,
  has_LF l = false ->
  (String.length l < n)%nat ->
  memchr (l ++ String LF rest) LF n = Some (Some (String.length l)).
Proof.
  induction l as [|c l IH]; intros rest n Hl Hn.
  - destruct n as [|n]; [lia|]. reflexivity.
  - destruct n as [|n]; [simpl in Hn; lia|].
    simpl in Hl. apply orb_false_iff in Hl. destruct Hl as [Hc Hl].
    simpl. rewrite Hc. rewrite IH; [reflexivity | exact Hl | simpl in Hn; lia].
Qed.

Lemma memchr_none : forall s n,
  has_LF s = false ->
  (n <= String.length s)%nat ->
  memchr s LF n = Some None.
Proof.
  induction s as [|c s IH]; intros n Hs Hn.
  - destruct n as [|n]; [reflexivity | simpl in Hn; lia].
  - destruct n as [|n]; [reflexivity|].
    simpl in Hs. apply orb_false_iff in Hs. destruct Hs as [Hc Hs].
    simpl. rewrite Hc. rewrite IH; [reflexivity | exact Hs | simpl in Hn; lia].
Qed.

Lemma advance_past : forall l c rest,
  advance (S (String.length l)) (l ++ String c rest) = rest.
Proof. induction l as [|a l IH]; intros; [reflexivity | exact (IH c rest)]. Qed.

(** X15.  A first line that begins with #! is skipped, up to and including
    its newline, whatever bytes it holds; what follows it is Hack when it is
    longer than four bytes and begins with <?hh.  The skip happens once: a
    second #! line is part of what follows. *)
Theorem isFileHack_skips_shebang_line : forall l rest,
  has_LF l = false ->
  strlen ("#!" ++ l ++ newline ++ rest) < 2 ^ 64 ->
  isFileHack ("#!" ++ l ++ newline ++ rest)
             (strlen ("#!" ++ l ++ newline ++ rest))
  = Some ((4 <? strlen rest) && prefix "<?hh" rest).
Proof.
  intros l rest Hl Hmax.
  assert (Hcode : "#!" ++ l ++ newline ++ rest = ("#!" ++ l) ++ String LF rest)
    by reflexivity.
  assert (Hlen : strlen ("#!" ++ l ++ newline ++ rest)
                 = Z.of_nat (String.length ("#!" ++ l)) + 1 + strlen rest).
  { rewrite Hcode. unfold strlen. rewrite length_append. simpl String.length. lia. }
  unfold isFileHack.
  assert (E2 : (2 <? strlen ("#!" ++ l ++ newline ++ rest)) = true).
  { apply Z.ltb_lt. rewrite Hlen. unfold strlen. simpl String.length. lia. }
  rewrite E2.
  change (strncmp_eq0 ("#!" ++ l ++ newline ++ rest) "#!" 2) with (Some true).
  cbv iota.
  rewrite Hcode at 1.
  rewrite memchr_first;
    [| simpl; exact Hl | rewrite Hlen; unfold strlen; lia].
  rewrite Hcode at 1. rewrite advance_past.
  replace (size_t _) with (strlen rest).
  - apply isFileHack_tail_spec.
  - unfold size_t. rewrite Hlen in *.
    rewrite Z.mod_small; unfold strlen in *; lia.
Qed.

Lemma isFileHack_skips_shebang_line_witness :
  isFileHack ("#!" ++ "/usr/bin/hhvm" ++ newline ++ "<?hh echo 1;")
             (strlen ("#!" ++ "/usr/bin/hhvm" ++ newline ++ "<?hh echo 1;"))
  = Some ((4 <? strlen "<?hh echo 1;") && prefix "<?hh" "<?hh echo 1;").
Proof.
  apply (isFileHack_skips_shebang_line "/usr/bin/hhvm" "<?hh echo 1;").
  - reflexivity.
  - vm_compute. reflexivity.
Defined.

(** X16.  A file that does not begin with #! is Hack exactly when it is
    longer than four bytes and begins with <?hh; a file of the four bytes
    <?hh alone is not. *)
Theorem isFileHack_without_shebang : forall code,
  prefix "#!" code = false ->
  isFileHack code (strlen code)
  = Some ((4 <? strlen code) && prefix "<?hh" code).
Proof.
  intros code Hp. unfold isFileHack.
  destruct (2 <? strlen code) eqn:E2; [|apply isFileHack_tail_spec].
  apply Z.ltb_lt in E2.
  change 2%nat with (String.length "#!").
  rewrite strncmp_eq0_is_prefix;
    [| reflexivity | unfold strlen in E2; simpl; lia].
  rewrite Hp. apply isFileHack_tail_spec.
Qed.

Lemma isFileHack_without_shebang_witness :
  isFileHack "<?hh" (strlen "<?hh")
  = Some ((4 <? strlen "<?hh") && prefix "<?hh" "<?hh").
Proof. apply (isFileHack_without_shebang "<?hh"). reflexivity. Defined.

(** X17.  A file that begins with #! and holds no newline is not Hack. *)
Theorem isFileHack_unterminated_shebang : forall code,
  prefix "#!" code = true ->
  has_LF code = false ->
  isFileHack code (strlen code) = Some false.
Proof.
  intros code Hp Hlf. unfold isFileHack.
  destruct (2 <? strlen code) eqn:E2.
  - apply Z.ltb_lt in E2.
    change 2%nat with (String.length "#!").
    rewrite strncmp_eq0_is_prefix;
      [| reflexivity | unfold strlen in E2; simpl; lia].
    rewrite Hp. rewrite memchr_none; [reflexivity | exact Hlf |].
    unfold strlen. lia.
  - rewrite isFileHack_tail_spec.
    apply Z.ltb_ge in E2.
    replace (4 <? strlen code) with false by (symmetry; apply Z.ltb_ge; lia).
    reflexivity.
Qed.

Lemma isFileHack_unterminated_shebang_witness :
  isFileHack "#!/usr/bin/hhvm <?hh" (strlen "#!/usr/bin/hhvm <?hh") = Some false.
Proof.
  apply (isFileHack_unterminated_shebang "#!/usr/bin/hhvm <?hh"); reflexivity.
Defined.

(** ** The manager and the entry points *)

Section ManagerProperties.

Context {UE : Type}.
Variable ext : Externals UE.
Variable ro : RuntimeOption.
Variable ho : HackcOption.

Local Ltac run_manager :=
  cbv beta iota zeta delta
    [bind ret this when ChangeUser update on_manager hackc_enabled on_hackc_pool
     createDelegate set_m_delegate set_m_hackc_pool set_m_started world
     s_manager light_process m_delegate m_hackc_pool m_started m_username
     lp_delegates lp_users hd tl].

Lemma hackcConfiguration_some : forall options,
  hackcConfiguration ho = Some options ->
  hackc_mode ho <> kNever
  /\ workers options = EvalHackCompilerWorkers ho
  /\ workers options <> 0
  /\ command options <> EmptyString.
Proof.
  intros options. unfold hackcConfiguration, hackc_mode.
  destruct (EvalHackCompilerDefault ho); cbn [negb]; [|discriminate].
  destruct (String.eqb_spec (hackcCommand ho) EmptyString) as [|Hc];
    cbn [orb]; [discriminate|].
  destruct (Z.eqb_spec (EvalHackCompilerWorkers ho) 0) as [|Hw]; [discriminate|].
  destruct (EvalHackCompilerFallback ho); cbv beta iota delta [HackcMode_eqb];
    intros [= <-]; cbn [workers command];
    (split; [discriminate|]); auto.
Qed.

Lemma hackcConfiguration_none :
  hackc_mode ho = kNever -> hackcConfiguration ho = None.
Proof. intros H. unfold hackcConfiguration. rewrite H. reflexivity. Qed.

Lemma ensure_started_started : forall s sg,
  m_started (s_manager s) = true ->
  ensure_started ext ro ho s sg = (Ret tt, s, sg).
Proof.
  intros s sg H. unfold ensure_started, bind at 1, this at 1.
  rewrite H. reflexivity.
Qed.

(** ensure_started with hackc disabled: nothing is created or started; the
    manager is marked started. *)
Lemma ensure_started_disabled : forall s sg,
  hackc_mode ho = kNever ->
  m_hackc_pool (s_manager s) = None ->
  exists s',
    ensure_started ext ro ho s sg = (Ret tt, s', sg)
    /\ m_hackc_pool (s_manager s') = None.
Proof.
  intros [m lp] sg Hmode Hpool. cbn [s_manager] in Hpool.
  destruct (m_started m) eqn:Hs.
  - exists (mkProcess m lp). split; [|exact Hpool].
    apply ensure_started_started. exact Hs.
  - unfold ensure_started, bind at 1, this at 1. cbn [s_manager]. rewrite Hs.
    rewrite (hackcConfiguration_none Hmode).
    destruct m as [d pool started username]. cbn in Hpool. subst pool.
    destruct username as [u|]; run_manager;
      try (destruct (_ =? kInvalidPid));
      cbv beta iota delta [negb]; run_manager;
      eexists; split; reflexivity.
Qed.

(** What ChangeUser has been called with once ensure_started has taken the
    delegate [d]. *)
Lemma ensure_started_enabled : forall s sg options,
  m_started (s_manager s) = false ->
  hackcConfiguration ho = Some options ->
  let m := s_manager s in
  let lp := light_process s in
  let d := hd (-1) (lp_delegates lp) in
  let users :=
    match m_username m with
    | Some username =>
        if d =? kInvalidPid then lp_users lp else (d, username) :: lp_users lp
    | None => lp_users lp
    end in
  let after started p' :=
    mkProcess (mkCompilerManager d (Some p') started (m_username m))
              (mkLightProcess (tl (lp_delegates lp)) users) in
  ensure_started ext ro ho s sg
  = match CompilerPool_start ext ro (new_CompilerPool options) sg with
    | (Ret _, p', sg') => (Ret tt, after true p', sg')
    | (Throw e, p', sg') => (Throw e, after false p', sg')
    | (Halt h, p', sg') => (Halt h, after false p', sg')
    end.
Proof.
  intros [[d0 pool started username] [ds us]] sg options Hs Hcfg.
  cbn in Hs. subst started. cbv zeta.
  unfold ensure_started, bind at 1, this at 1.
  cbn [s_manager light_process m_started m_username lp_delegates lp_users].
  rewrite Hcfg.
  destruct ds as [|d ds]; (destruct username as [u|]); run_manager;
    try change (-1 =? kInvalidPid) with true;
    try (destruct (_ =? kInvalidPid));
    cbv beta iota delta [negb]; run_manager;
    destruct (CompilerPool_start ext ro (new_CompilerPool options) sg)
      as [[[[]|e|h] p'] sg']; reflexivity.
Qed.

(** An ensure_started that returns leaves the manager started. *)
Lemma ensure_started_ret : forall s sg s' sg',
  ensure_started ext ro ho s sg = (Ret tt, s', sg') ->
  m_started (s_manager s') = true.
Proof.
  intros s sg s' sg'.
  destruct (m_started (s_manager s)) eqn:Hs.
  - rewrite ensure_started_started by exact Hs.
    intros [= <- _]. exact Hs.
  - destruct (hackcConfiguration ho) as [options|] eqn:Hcfg.
    + rewrite (ensure_started_enabled s sg options Hs Hcfg).
      destruct (CompilerPool_start ext ro (new_CompilerPool options) sg)
        as [[[[]|e|h] p'] sg2]; intros [= <- _]; reflexivity.
    + destruct s as [[d pool started username] lp]. cbn in Hs. subst started.
      unfold ensure_started, bind at 1, this at 1.
      cbn [s_manager m_started]. rewrite Hcfg.
      destruct username as [u|], pool as [p|]; run_manager;
        try (destruct (_ =? kInvalidPid));
        cbv beta iota delta [negb]; run_manager;
        try (destruct (CompilerPool_start ext ro p sg) as [[[[]|e|h] p'] sg2]);
        intros [= <- _]; reflexivity.
Qed.

(** X18.  The first ensure_started of a manager with hackc configured takes
    a delegate, reports the user name to it when a name is set and the
    delegate is valid, builds a pool of EvalHackCompilerWorkers workers and
    starts the worker of slot 0.  If that start returns, the manager is
    started and the pool's version is the worker's.  If it throws,
    ensure_started throws the same exception with m_started still false,
    although the delegate and the pool are set, so that hackc_enabled() holds
    of a manager that is not started. *)
Theorem ensure_started_first_call : forall s sg options,
  m_started (s_manager s) = false ->
  hackcConfiguration ho = Some options ->
  0 <= workers options < 2 ^ 64 ->
  let m := s_manager s in
  let lp := light_process s in
  let d := hd (-1) (lp_delegates lp) in
  let users :=
    match m_username m with
    | Some username =>
        if d =? kInvalidPid then lp_users lp else (d, username) :: lp_users lp
    | None => lp_users lp
    end in
  let after started p' :=
    mkProcess (mkCompilerManager d (Some p') started (m_username m))
              (mkLightProcess (tl (lp_delegates lp)) users) in
  let fresh := new_ExternCompiler options in
  let others := repeat (Some fresh) (Z.to_nat (workers options) - 1) in
  let '(r, c', sg') := start ext ro fresh (log_event (EvGetCompiler 0) sg) in
  ensure_started ext ro ho s sg
  = match r with
    | Ret _ =>
        (Ret tt,
         after true (mkCompilerPool options (workers options) (Some c' :: others)
                                    (m_version c')),
         log_event (EvReleaseCompiler 0) sg')
    | Throw e =>
        (Throw e,
         after false (mkCompilerPool options (workers options) (Some c' :: others)
                                     EmptyString),
         log_event (EvReleaseCompiler 0) sg')
    | Halt h =>
        (Halt h,
         after false (mkCompilerPool options (workers options - 1) (None :: others)
                                     EmptyString),
         sg')
    end.
Proof.
  intros s sg options Hs Hcfg Hw m lp d users after fresh others.
  destruct (start ext ro fresh (log_event (EvGetCompiler 0) sg))
    as [[r c'] sg'] eqn:Hstart.
  destruct (hackcConfiguration_some options Hcfg) as (_ & _ & Hw0 & _).
  rewrite (ensure_started_enabled s sg options Hs Hcfg).
  rewrite (CompilerPool_start_new_run ext ro options sg r c' sg'
             ltac:(lia) Hstart).
  destruct r as [[]|e|h]; reflexivity.
Qed.

(** X19.  With hackc disabled and no pool, UnitCompiler::create returns the
    null pointer and leaves the world as it was, while hackc_compile and
    hackc_version, which do not look at the mode, go through the null pool
    pointer. *)
Theorem hackc_disabled_entry_points : forall s sg code filename md5,
  hackc_mode ho = kNever ->
  m_hackc_pool (s_manager s) = None ->
  fst (fst (UnitCompiler_create ext ro ho code filename md5 s sg)) = Ret None
  /\ snd (UnitCompiler_create ext ro ho code filename md5 s sg) = sg
  /\ fst (fst (hackc_compile ext ro ho code filename md5 s sg)) = Halt NullDeref
  /\ fst (fst (hackc_version ext ro ho s sg)) = Halt NullDeref.
Proof.
  intros s sg code filename md5 Hmode Hpool.
  destruct (ensure_started_disabled s sg Hmode Hpool) as (s' & Hrun & Hpool').
  destruct s' as [[d' pool' started' username'] lp']. cbn in Hpool'. subst pool'.
  unfold UnitCompiler_create, hackc_compile, hackc_version, with_hackc_pool.
  repeat split; unfold bind at 1; rewrite Hrun; run_manager; try reflexivity;
    rewrite Hmode; cbn [HackcMode_eqb negb andb];
    destruct (w_s_inited sg || EvalUseExternCompilerForSystemLib ho);
    reflexivity.
Qed.

(** X20.  A unit compiler that UnitCompiler::create returned carries the
    mode read at its creation, and the manager is then started with a pool:
    its compile() runs CompilerPool::compile on that pool without starting
    anything.  A unit is passed on; an error string gives the null pointer in
    fallback mode and the fatal unit of that message otherwise; an exception
    leaves compile(). *)
Theorem create_then_compile : forall s sg code filename md5 uc s1 sg1,
  UnitCompiler_create ext ro ho code filename md5 s sg = (Ret (Some uc), s1, sg1) ->
  exists p,
    m_hackc_pool (s_manager s1) = Some p
    /\ uc = mkHackcUnitCompiler code filename md5 (hackc_mode ho)
    /\ hackc_mode ho <> kNever
    /\ HackcUnitCompiler_compile ext ro ho uc s1 sg1
       = let after p' :=
           mkProcess (set_m_hackc_pool (Some p') (s_manager s1))
                     (light_process s1) in
         match CompilerPool_compile ext ro code filename md5 p sg1 with
         | (Ret (inl ue), p', sg2) => (Ret (Some (Assembled ue)), after p', sg2)
         | (Ret (inr err), p', sg2) =>
             (Ret (if EvalHackCompilerFallback ho then None
                   else Some (createFatalUnit filename md5 FatalOp_Runtime err)),
              after p', sg2)
         | (Throw e, p', sg2) => (Throw e, after p', sg2)
         | (Halt h, p', sg2) => (Halt h, after p', sg2)
         end.
Proof.
  intros s sg code filename md5 uc s1 sg1.
  unfold UnitCompiler_create. unfold bind at 1.
  destruct (ensure_started ext ro ho s sg) as [[[[]|e|h] s'] sg'] eqn:Hes;
    try (intros H; discriminate H).
  pose proof (ensure_started_ret s sg s' sg' Hes) as Hstarted.
  destruct s' as [[d' pool' started' username'] lp'].
  cbn in Hstarted. subst started'.
  run_manager.
  destruct (w_s_inited sg' || EvalUseExternCompilerForSystemLib ho);
    [|intros H; discriminate H].
  destruct (hackc_mode ho) eqn:Hmode; cbn [HackcMode_eqb negb andb];
    try (intros H; discriminate H);
    (destruct pool' as [p|]; [|intros H; discriminate H]);
    intros [= <- <- <-]; exists p;
    (split; [reflexivity|]); (split; [reflexivity|]); (split; [discriminate|]);
    unfold HackcUnitCompiler_compile, hackc_compile, with_hackc_pool;
    cbn [m_code m_filename m_md5 m_hackcMode];
    unfold bind at 1; unfold bind at 1;
    rewrite ensure_started_started by reflexivity;
    run_manager;
    destruct (CompilerPool_compile ext ro code filename md5 p sg')
      as [[[[ue|err]|e|h] p'] sg2]; cbn [HackcMode_eqb negb];
    unfold hackc_mode in Hmode;
    destruct (EvalHackCompilerDefault ho); cbn [negb] in Hmode;
    try discriminate;
    destruct (String.eqb (hackcCommand ho) EmptyString
              || (EvalHackCompilerWorkers ho =? 0)); try discriminate;
    destruct (EvalHackCompilerFallback ho); try discriminate; reflexivity.
Qed.

(** X21.  compilers_shutdown shuts the pool down in normal mode, if there
    is one, and returns exactly when that does: when the join of the stderr
    thread returns for every worker in a slot, and always when there is no
    pool.  It then leaves the manager without pool, without delegate and not
    started, has sent SIGTERM to the subprocess of each running worker found
    in a slot, once, and has closed the delegate's descriptor last, whether
    or not a delegate was set.  Otherwise it waits in the join of the first
    worker whose join does not return: the manager still has its pool, its
    delegate and its started flag, the slots reached are empty, and nothing
    is closed.  Either way it spawns nothing. *)
Theorem compilers_shutdown_resets : forall s sg,
  let cs := match m_hackc_pool (s_manager s) with
            | Some p => m_compilers p
            | None => []
            end in
  let reach := shutdown_reach sg cs in
  exists en evs,
    spawn_count evs = O
    /\ kills evs = running_pids reach
    /\ if all_can_join sg cs
       then compilers_shutdown s sg
            = (Ret tt,
               mkProcess (mkCompilerManager kInvalidPid None false
                                            (m_username (s_manager s)))
                         (light_process s),
               set_errno en
                 (add_events (evs ++ [EvClose (m_delegate (s_manager s))]) sg))
            /\ reach = cs
       else exists p,
            m_hackc_pool (s_manager s) = Some p
            /\ compilers_shutdown s sg
               = (Halt JoinWait,
                  mkProcess
                    (mkCompilerManager
                       (m_delegate (s_manager s))
                       (Some (set_m_compilers
                                (repeat None (List.length reach)
                                   ++ skipn (List.length reach) cs) p))
                       (m_started (s_manager s))
                       (m_username (s_manager s)))
                    (light_process s),
                  set_errno en (add_events evs sg)).
Proof.
  intros [[d pool started username] lp] sg.
  cbn [s_manager light_process m_hackc_pool m_delegate m_username m_started].
  destruct pool as [p|]; cbv zeta.
  - assert (Hsh : CompilerPool_shutdown false p sg
                  = shutdown_from false 0 (List.length (m_compilers p)) p sg)
      by reflexivity.
    destruct (shutdown_from_normal (m_compilers p) [] p sg eq_refl)
      as (en & evs & Hrun & Hk & Hs).
    cbn [List.length app] in Hrun. rewrite <- Hsh in Hrun. clear Hsh.
    exists en, evs. split; [exact Hs|]. split; [exact Hk|].
    unfold compilers_shutdown, on_manager, CompilerManager_shutdown,
      CompilerManager_stop.
    cbn [s_manager light_process m_hackc_pool m_delegate m_username].
    destruct (all_can_join sg (m_compilers p)) eqn:Hall.
    + split; [|apply shutdown_reach_all; exact Hall].
      unfold bind at 1, this at 1. unfold bind at 1.
      cbn [m_hackc_pool]. rewrite Hrun.
      unfold bind, this, emit, update, log_event.
      cbn [m_delegate m_hackc_pool m_username m_started].
      rewrite <- set_errno_add_events, add_events_app. reflexivity.
    + exists p. split; [reflexivity|].
      unfold bind at 1, this at 1. unfold bind at 1.
      cbn [m_hackc_pool]. rewrite Hrun. reflexivity.
  - exists (w_errno sg), []. split; [reflexivity|]. split; [reflexivity|].
    cbn [all_can_join forallb]. split; [|reflexivity].
    unfold compilers_shutdown, on_manager, CompilerManager_shutdown,
      CompilerManager_stop.
    unfold bind, this, emit, update, ret, log_event.
    cbn [m_delegate m_hackc_pool m_username m_started app s_manager light_process].
    destruct sg; reflexivity.
Qed.

End ManagerProperties.

Lemma ensure_started_first_call_witness :
  let s := SampleProcess.fresh (Some "www") in
  let sg := Sample.world0
              [Sample.proc 100 (Sample.frame Sample.version_doc EmptyString)] in
  let '(r, s', sg') :=
    ensure_started Sample.ext Sample.ro (SampleProcess.hackc true false) s sg in
  r = Ret tt
  /\ m_started (s_manager s') = true
  /\ m_delegate (s_manager s') = 7
  /\ lp_users (light_process s') = [(7, "www")]
  /\ spawn_count (w_trace sg') = 1%nat.
Proof.
  intros s sg.
  assert (Hw : 0 <= workers (Sample.options false 2 2) < 2 ^ 64)
    by (split; [discriminate|reflexivity]).
  pose proof (ensure_started_first_call Sample.ext Sample.ro
                (SampleProcess.hackc true false) s sg
                (mkCompilerOptions false 2 2 "hackc" false)
                eq_refl eq_refl Hw) as T.
  cbv zeta in T.
  destruct (start Sample.ext Sample.ro _ _) as [[r c'] sg'] eqn:E in T.
  vm_compute in E. inversion E; subst. rewrite T.
  vm_compute. repeat split.
Defined.

Lemma hackc_disabled_entry_points_witness :
  let s := SampleProcess.fresh None in
  let sg := Sample.world0 [] in
  let ho := SampleProcess.hackc false false in
  fst (fst (UnitCompiler_create Sample.ext Sample.ro ho "<?hh" "a.hh" "d41d8cd9" s sg))
  = Ret None
  /\ snd (UnitCompiler_create Sample.ext Sample.ro ho "<?hh" "a.hh" "d41d8cd9" s sg)
     = sg
  /\ fst (fst (hackc_compile Sample.ext Sample.ro ho "<?hh" "a.hh" "d41d8cd9" s sg))
     = Halt NullDeref
  /\ fst (fst (hackc_version Sample.ext Sample.ro ho s sg)) = Halt NullDeref.
Proof.
  intros s sg ho.
  apply (hackc_disabled_entry_points Sample.ext Sample.ro ho s sg);
    reflexivity.
Defined.

Lemma create_then_compile_witness :
  let s := SampleProcess.fresh None in
  let sg := Sample.world0
              [Sample.proc 100 (Sample.frame Sample.version_doc EmptyString)] in
  let ho := SampleProcess.hackc true false in
  exists uc s1 sg1 p,
    UnitCompiler_create Sample.ext Sample.ro ho "<?hh" "a.hh" "d41d8cd9" s sg
    = (Ret (Some uc), s1, sg1)
    /\ m_hackc_pool (s_manager s1) = Some p
    /\ m_hackcMode uc = kFatal.
Proof.
  intros s sg ho.
  eexists _, _, _.
  assert (H : UnitCompiler_create Sample.ext Sample.ro ho "<?hh" "a.hh" "d41d8cd9"
                s sg = (Ret (Some _), _, _))
    by (vm_compute; reflexivity).
  destruct (create_then_compile Sample.ext Sample.ro ho s sg _ _ _ _ _ _ H)
    as (p & Hp & Huc & _).
  exists p. split; [exact H|]. split; [exact Hp|].
  rewrite Huc. reflexivity.
Defined.
